(** * icon-changer: ICO reader, RESDIR serializer, BMP loader and BMP-to-ICO writer

    A shallow embedding of [src/icon.hpp], [src/icon.cpp] and the bitmap
    class (loader and ICO writer), followed by the properties proved about
    them.

    Conventions of the embedding.
    - A raw byte is a [Byte.byte]; a file is a [list byte].
    - A C++ unsigned integer of w bits is a [Z] in [0, 2^w); an [int] or an
      [std::int32_t] is a [Z] in [-2^31, 2^31).  Signed overflow is undefined
      in C++ and shows up as the outcome [Undefined]; unsigned arithmetic
      ([std::size_t], 64 bits) wraps and the wrap is written out.
    - The structs marked [PACKED] (and those under [#pragma pack(1)]) are
      copied to and from bytes with [memcpy]/[reinterpret_cast]; on the
      little-endian targets the program is built for this is the field by
      field little-endian layout below, with no padding.
    - A C++ exception is the outcome [Throws]; [std::ios_base::failure] raised
      by a stream whose exception mask is set is the [None] of
      [istream_read].
    - Memory is taken to suffice: a vector of at most [max_size] bytes is
      allocated without [std::bad_alloc]; a larger request throws
      [std::length_error]. *)

From Stdlib Require Import ZArith String Ascii Bool Lia FinFun List.
From Stdlib Require Import Strings.Byte.
Import ListNotations.

#[local] Open Scope Z_scope.

(* ------------------------------------------------------------------ *)
(** ** Bytes and fixed-width integers *)

Definition Z_of_byte (b : byte) : Z := Z.of_N (Byte.to_N b).

(** [static_cast<std::uint8_t>]: the value modulo 256. *)
Definition byte_of_Z (z : Z) : byte :=
  match Byte.of_N (Z.to_N (z mod 256)) with
  | Some b => b
  | None => x00
  end.

Definition INT_MAX : Z := 2147483647.
Definition INT_MIN : Z := -2147483648.
Definition SIZE_MOD : Z := 2 ^ 64.
(** [std::vector<std::uint8_t>::max_size()] (PTRDIFF_MAX). *)
Definition max_size : Z := 2 ^ 63 - 1.

Definition in_int (z : Z) : bool := (INT_MIN <=? z) && (z <=? INT_MAX).

(** Conversion of an integer to [std::size_t]. *)
Definition to_size_t (z : Z) : Z := z mod SIZE_MOD.
Definition to_u8 (z : Z) : Z := z mod 256.
Definition to_u16 (z : Z) : Z := z mod 65536.
Definition to_u32 (z : Z) : Z := z mod 4294967296.

(** Little-endian reads at a byte offset ([reinterpret_cast] of a packed field). *)
Definition u8_at (bs : list byte) (off : nat) : Z := Z_of_byte (nth off bs x00).
Definition u16_at (bs : list byte) (off : nat) : Z :=
  u8_at bs off + 256 * u8_at bs (off + 1).
Definition u32_at (bs : list byte) (off : nat) : Z :=
  u16_at bs off + 65536 * u16_at bs (off + 2).
Definition i32_at (bs : list byte) (off : nat) : Z :=
  let u := u32_at bs off in
  if u <? 2147483648 then u else u - 4294967296.

(** Little-endian writes ([memcpy] out of a packed field); two's complement
    for negative values. *)
Definition enc_u8 (z : Z) : list byte := [byte_of_Z z].
Definition enc_u16 (z : Z) : list byte := [byte_of_Z z; byte_of_Z (z / 256)].
Definition enc_u32 (z : Z) : list byte :=
  [byte_of_Z z; byte_of_Z (z / 256); byte_of_Z (z / 65536); byte_of_Z (z / 16777216)].

(** [std::vector::resize] on bytes: keep a prefix, pad with value-initialised
    (zero) elements. *)
Definition resize (v : list byte) (n : nat) : list byte :=
  firstn n v ++ repeat x00 (n - length v).

(** Overwrite [length src] elements of [dst] from index [off]
    ([std::copy_n] into the middle of a vector). *)
Definition write_at (dst : list byte) (off : nat) (src : list byte) : list byte :=
  firstn off dst ++ src ++ skipn (off + length src) dst.

(** Split a byte block into records of [k] bytes each ([n] of them). *)
Fixpoint chunks (k n : nat) (bs : list byte) : list (list byte) :=
  match n with
  | O => []
  | S n' => firstn k bs :: chunks k n' (skipn k bs)
  end.

(* ------------------------------------------------------------------ *)
(** ** [std::format] with the [{:X}] presentation *)

(** The digits of the upper-case presentation, by value. *)
Definition hex_alphabet : list ascii := list_ascii_of_string "0123456789ABCDEF".

Definition hex_digit (d : Z) : ascii := nth (Z.to_nat d) hex_alphabet "0"%char.

Fixpoint hex_digits (fuel : nat) (n : Z) (acc : string) : string :=
  match fuel with
  | O => acc
  | S fuel' =>
      let acc' := String (hex_digit (n mod 16)) acc in
      if n / 16 =? 0 then acc' else hex_digits fuel' (n / 16) acc'
  end.

(** Upper-case hexadecimal of an unsigned value of at most 64 bits, no prefix. *)
Definition format_X (n : Z) : string := hex_digits 16 n EmptyString.

Definition quote : string := String "034"%char EmptyString.

(* ------------------------------------------------------------------ *)
(** ** Outcomes of a C++ call *)

Inductive exn : Type :=
| invalid_argument (what : string)
| runtime_error (what : string)
| length_error        (* thrown by std::vector beyond max_size(); the text of
                         what() is the library's *)
| ios_base_failure.

Inductive outcome (A : Type) : Type :=
| Returns (a : A)
| Throws (e : exn)
| Aborts            (* a failed [assert] *)
| Undefined.        (* undefined behaviour: signed overflow, access out of bounds *)

Arguments Returns {A} a.
Arguments Throws {A} e.
Arguments Aborts {A}.
Arguments Undefined {A}.

Definition bind {A B : Type} (m : outcome A) (k : A -> outcome B) : outcome B :=
  match m with
  | Returns a => k a
  | Throws e => Throws e
  | Aborts => Aborts
  | Undefined => Undefined
  end.

Declare Scope outcome_scope.
Delimit Scope outcome_scope with outcome.
Notation "x <- m ;; k" := (bind m (fun x => k))
  (at level 61, m at next level, right associativity) : outcome_scope.
Notation "' p <- m ;; k" := (bind m (fun p => k))
  (at level 61, p pattern, m at next level, right associativity) : outcome_scope.
#[local] Open Scope outcome_scope.

(** [int] arithmetic: the mathematical result when it is representable,
    undefined behaviour otherwise. *)
Definition int_result (z : Z) : outcome Z :=
  if in_int z then Returns z else Undefined.
Definition int_mul (a b : Z) : outcome Z := int_result (a * b).
Definition int_add (a b : Z) : outcome Z := int_result (a + b).
Definition int_sub (a b : Z) : outcome Z := int_result (a - b).

(* ------------------------------------------------------------------ *)
(** ** Files and input streams *)

(** The part of the file system the program touches: the content of the
    file at a path if it can be opened for reading, and whether a path can
    be opened for writing. *)
Record filesystem : Type := mk_filesystem {
  file_at : string -> option (list byte);
  writable : string -> bool
}.

(** The file a closed [std::ofstream] leaves at [path]: writes to an open
    file are taken to succeed. *)
Definition fs_write (fs : filesystem) (path : string) (data : list byte) : filesystem :=
  {| file_at := fun p => if String.eqb p path then Some data else file_at fs p;
     writable := writable fs |}.

(** [std::filesystem::remove], taken to succeed: no file is left at the
    path, and a path without a file is not an error. *)
Definition fs_remove (fs : filesystem) (path : string) : filesystem :=
  {| file_at := fun p => if String.eqb p path then None else file_at fs p;
     writable := writable fs |}.

(** An open [std::ifstream] in binary mode. *)
Record ifstream : Type := mk_ifstream {
  contents : list byte;
  gpos : nat;               (* the get position *)
  failbit : bool;
  exceptions_mask : bool    (* [exceptions(failbit | badbit)] was called *)
}.

Definition ifstream_open (data : list byte) : ifstream :=
  {| contents := data; gpos := 0; failbit := false; exceptions_mask := false |}.

Definition set_exceptions (f : ifstream) : ifstream :=
  {| contents := contents f; gpos := gpos f; failbit := failbit f;
     exceptions_mask := true |}.

(** [file.read(buf, n)].  On a stream in a failed state nothing is
    extracted.  Otherwise [n] bytes are stored at the start of [buf]; when
    fewer are left they are stored and failbit (with eofbit) is set.
    Setting failbit raises [std::ios_base::failure] ([None]) when the
    exception mask asks for it. *)
Definition istream_read (f : ifstream) (buf : list byte) (n : nat)
  : option (list byte * ifstream) :=
  if failbit f then
    if exceptions_mask f then None else Some (buf, f)
  else
    let avail := skipn (gpos f) (contents f) in
    if (n <=? length avail)%nat then
      Some (firstn n avail ++ skipn n buf,
            {| contents := contents f; gpos := gpos f + n; failbit := false;
               exceptions_mask := exceptions_mask f |})
    else if exceptions_mask f then None
    else
      Some (avail ++ skipn (length avail) buf,
            {| contents := contents f; gpos := gpos f + length avail; failbit := true;
               exceptions_mask := exceptions_mask f |}).

(** [file.seekg(off, std::ios::beg)] on a stream without exception mask:
    nothing happens in a failed state; a position past the end is accepted. *)
Definition seekg (f : ifstream) (off : Z) : ifstream :=
  if failbit f then f
  else {| contents := contents f; gpos := Z.to_nat off; failbit := false;
          exceptions_mask := exceptions_mask f |}.

(* ------------------------------------------------------------------ *)
(** ** The BMP headers ([#pragma pack(push, 1)]) *)

Record BitmapFileHeader : Type := mk_BitmapFileHeader {
  bfType : Z;        (* std::uint16_t *)
  bfSize : Z;        (* std::uint32_t *)
  bfReserved1 : Z;   (* std::uint16_t *)
  bfReserved2 : Z;   (* std::uint16_t *)
  bfOffBits : Z      (* std::uint32_t *)
}.

Record BitmapInfoHeader : Type := mk_BitmapInfoHeader {
  biSize : Z;            (* std::uint32_t *)
  biWidth : Z;           (* std::int32_t *)
  biHeight : Z;          (* std::int32_t *)
  biPlanes : Z;          (* std::uint16_t *)
  biBitCount : Z;        (* std::uint16_t *)
  biCompression : Z;     (* std::uint32_t *)
  biSizeImage : Z;       (* std::uint32_t *)
  biXPelsPerMeter : Z;   (* std::int32_t *)
  biYPelsPerMeter : Z;   (* std::int32_t *)
  biClrUsed : Z;         (* std::uint32_t *)
  biClrImportant : Z     (* std::uint32_t *)
}.

Definition sizeof_BitmapFileHeader : nat := 14.
Definition sizeof_BitmapInfoHeader : nat := 40.

(** The struct a 14-byte buffer is read as. *)
Definition BitmapFileHeader_of_bytes (b : list byte) : BitmapFileHeader :=
  {| bfType := u16_at b 0; bfSize := u32_at b 2; bfReserved1 := u16_at b 6;
     bfReserved2 := u16_at b 8; bfOffBits := u32_at b 10 |}.

(** The struct a 40-byte buffer is read as. *)
Definition BitmapInfoHeader_of_bytes (b : list byte) : BitmapInfoHeader :=
  {| biSize := u32_at b 0; biWidth := i32_at b 4; biHeight := i32_at b 8;
     biPlanes := u16_at b 12; biBitCount := u16_at b 14; biCompression := u32_at b 16;
     biSizeImage := u32_at b 20; biXPelsPerMeter := i32_at b 24;
     biYPelsPerMeter := i32_at b 28; biClrUsed := u32_at b 32;
     biClrImportant := u32_at b 36 |}.

(** The 40 bytes [out.write(&bih, sizeof(bih))] emits. *)
Definition bytes_of_BitmapInfoHeader (h : BitmapInfoHeader) : list byte :=
  enc_u32 (biSize h) ++ enc_u32 (biWidth h) ++ enc_u32 (biHeight h) ++
  enc_u16 (biPlanes h) ++ enc_u16 (biBitCount h) ++ enc_u32 (biCompression h) ++
  enc_u32 (biSizeImage h) ++ enc_u32 (biXPelsPerMeter h) ++
  enc_u32 (biYPelsPerMeter h) ++ enc_u32 (biClrUsed h) ++ enc_u32 (biClrImportant h).

(* ------------------------------------------------------------------ *)
(** ** class bitmap *)

Module bitmap.

(** The data members. *)
Record t : Type := mk {
  width : Z;             (* int *)
  height : Z;            (* int *)
  bitDepth : Z;          (* int *)
  pixels : list byte     (* BGR format *)
}.

(** A default-constructed bitmap. *)
Definition empty : t := {| width := 0; height := 0; bitDepth := 0; pixels := [] |}.

Definition len (v : list byte) : Z := Z.of_nat (length v).

(** [bytesPerPixel], [paddedRowSize] and [rawRowSize] of [loadFromImage]. *)
Definition row_sizes (self : t) : outcome (Z * Z * Z) :=
  let bytesPerPixel := to_size_t (Z.quot (bitDepth self) 8) in
  m <- int_mul (bitDepth self) (width self);;
  s <- int_add m 31;;
  r <- int_mul (Z.quot s 32) 4;;
  let paddedRowSize := to_size_t r in
  let rawRowSize := (to_size_t (width self) * bytesPerPixel) mod SIZE_MOD in
  Returns (bytesPerPixel, paddedRowSize, rawRowSize).

(** The argument of [pixels.resize]: [width * height * bytesPerPixel]. *)
Definition pixel_bytes (self : t) (bytesPerPixel : Z) : outcome Z :=
  wh <- int_mul (width self) (height self);;
  Returns ((to_size_t wh * bytesPerPixel) mod SIZE_MOD).

(** The row loop of [loadFromImage]: [n] iterations are left, [y] is the
    loop counter.  Returns the pixel buffer as the loop leaves it. *)
Fixpoint read_rows (n : nat) (y height : Z) (topDown : bool)
    (paddedRowSize rawRowSize : Z) (file : ifstream) (row px : list byte)
  : list byte * outcome unit :=
  match n with
  | O => (px, Returns tt)
  | S n' =>
      match istream_read file row (Z.to_nat paddedRowSize) with
      | None => (px, Throws ios_base_failure)
      | Some (row', file') =>
          let destY := if topDown then y else height - 1 - y in
          let dst := (to_size_t destY * rawRowSize) mod SIZE_MOD in
          (* row.data()[0 .. rawRowSize) and pixels[dst], pixels[dst .. dst + rawRowSize) *)
          if (rawRowSize <=? len row') && (dst <? len px) && (dst + rawRowSize <=? len px)
          then
            read_rows n' (y + 1) height topDown paddedRowSize rawRowSize file' row'
              (write_at px (Z.to_nat dst) (firstn (Z.to_nat rawRowSize) row'))
          else (px, Undefined)
      end
  end.

(** Everything after the three data members are assigned: the buffer is
    resized, the stream is positioned at [bfOffBits] and the rows are read. *)
Definition load_pixels (self : t) (file : ifstream) (offBits : Z) : t * outcome bool :=
  let topDown := height self <? 0 in
  match row_sizes self with
  | Returns (bytesPerPixel, paddedRowSize, rawRowSize) =>
      match pixel_bytes self bytesPerPixel with
      | Returns n =>
          if n >? max_size then (self, Throws length_error)
          else
            let self' := {| width := width self; height := height self;
                            bitDepth := bitDepth self;
                            pixels := resize (pixels self) (Z.to_nat n) |} in
            let file' := seekg file offBits in
            if paddedRowSize >? max_size
            then (self', Throws length_error)
            else
              let row := repeat x00 (Z.to_nat paddedRowSize) in
              let '(px, r) := read_rows (Z.to_nat (height self')) 0 (height self') topDown
                                paddedRowSize rawRowSize file' row (pixels self') in
              ({| width := width self'; height := height self';
                  bitDepth := bitDepth self'; pixels := px |},
               _ <- r;; Returns true)
      | Throws e => (self, Throws e)
      | Aborts => (self, Aborts)
      | Undefined => (self, Undefined)
      end
  | Throws e => (self, Throws e)
  | Aborts => (self, Aborts)
  | Undefined => (self, Undefined)
  end.

(** [bool bitmap::loadFromImage(const std::string& path)]: the object after
    the call and the call's outcome. *)
Definition loadFromImage (self : t) (fs : filesystem) (path : string) : t * outcome bool :=
  match file_at fs path with
  | None => (self, Throws (invalid_argument ("Failed to open BMP file: " ++ path)%string))
  | Some data =>
      let file := ifstream_open data in
      match istream_read file (repeat x00 sizeof_BitmapFileHeader) sizeof_BitmapFileHeader with
      | None => (self, Throws ios_base_failure)
      | Some (fh, file) =>
          match istream_read file (repeat x00 sizeof_BitmapInfoHeader) sizeof_BitmapInfoHeader with
          | None => (self, Throws ios_base_failure)
          | Some (ih, file) =>
              let file_header := BitmapFileHeader_of_bytes fh in
              let info_header := BitmapInfoHeader_of_bytes ih in
              if negb (bfType file_header =? 0x4D42) (* 'BM' *)
              then (self, Throws (runtime_error ("Not a valid BMP file: " ++ path)%string))
              else if negb (biCompression info_header =? 0)
              then (self, Throws (runtime_error ("Unsupported BMP compression: " ++ path)%string))
              else
                load_pixels {| width := biWidth info_header;
                               height := biHeight info_header;
                               bitDepth := biBitCount info_header;
                               pixels := pixels self |}
                            file (bfOffBits file_header)
          end
      end
  end.

(** [pixels[i]] for an [int] index. *)
Definition pixel_at (px : list byte) (i : Z) : outcome byte :=
  if 0 <=? i then
    match nth_error px (Z.to_nat i) with
    | Some b => Returns b
    | None => Undefined
    end
  else Undefined.

(** The inner loop of [saveToIco] for row [y]: [n] pixels are left, [x] is
    the loop counter.  The bytes are those [out.put] appends, in order. *)
Fixpoint put_row (n : nat) (x y w : Z) (px : list byte) : outcome (list byte) :=
  match n with
  | O => Returns []
  | S n' =>
      yw <- int_mul y w;;
      s <- int_add yw x;;
      i <- int_mul s 3;;
      i0 <- int_add i 0;;
      b <- pixel_at px i0;;
      i1 <- int_add i 1;;
      g <- pixel_at px i1;;
      i2 <- int_add i 2;;
      r <- pixel_at px i2;;
      let a := xff in
      rest <- put_row n' (x + 1) y w px;;
      Returns (b :: g :: r :: a :: rest)
  end.

(** The outer loop: [y] runs from [n - 1] down to 0. *)
Fixpoint put_rows (n : nat) (w : Z) (px : list byte) : outcome (list byte) :=
  match n with
  | O => Returns []
  | S n' =>
      row <- put_row (Z.to_nat w) 0 (Z.of_nat n') w px;;
      rest <- put_rows n' w px;;
      Returns (row ++ rest)
  end.

(** [sizeof(ICONDIR)] and [sizeof(ICONDIRENTRY)] of the two local structs of
    [saveToIco]; both have their natural layout, which leaves no padding. *)
Definition sizeof_ICONDIR : Z := 6.
Definition sizeof_ICONDIRENTRY : Z := 16.

(** Everything [saveToIco] writes to [out] once it is open. *)
Definition ico_bytes (self : t) : outcome (list byte) :=
  wh <- int_mul (width self) (height self);;
  wh4 <- int_mul wh 4;;
  let imageSize := to_size_t wh4 in
  w31 <- int_add (width self) 31;;
  m4 <- int_mul (Z.quot w31 32) 4;;
  m <- int_mul m4 (height self);;
  let maskSize := to_size_t m in
  let dataSize := (imageSize + maskSize) mod SIZE_MOD in
  let iconDir := enc_u16 0 ++ enc_u16 1 ++ enc_u16 1 in
  let bWidth := to_u8 (width self) in
  let bHeight := to_u8 (height self) in
  let dwBytesInRes := to_u32 ((Z.of_nat sizeof_BitmapInfoHeader + dataSize) mod SIZE_MOD) in
  let dwImageOffset := to_u32 (sizeof_ICONDIR + sizeof_ICONDIRENTRY) in
  let entry := enc_u8 bWidth ++ enc_u8 bHeight ++ enc_u8 0 ++ enc_u8 0 ++
               enc_u16 1 ++ enc_u16 32 ++ enc_u32 dwBytesInRes ++ enc_u32 dwImageOffset in
  h2 <- int_mul (height self) 2;;
  let bih := {| biSize := Z.of_nat sizeof_BitmapInfoHeader;
                biWidth := width self;
                biHeight := h2;
                biPlanes := 1;
                biBitCount := 32;
                biCompression := 0;
                biSizeImage := to_u32 imageSize;
                biXPelsPerMeter := 0; biYPelsPerMeter := 0;
                biClrUsed := 0; biClrImportant := 0 |} in
  colour <- put_rows (Z.to_nat (height self)) (width self) (pixels self);;
  if maskSize >? max_size
  then Throws length_error
  else
    let mask := repeat x00 (Z.to_nat maskSize) in
    Returns (iconDir ++ entry ++ bytes_of_BitmapInfoHeader bih ++ colour ++ mask).

(** [bool bitmap::saveToIco(const std::string& path) const]: the file system
    after the call and the call's outcome.  What a call that opened the file
    and did not return has written by then is not tracked: the file is left
    empty here. *)
Definition saveToIco (self : t) (fs : filesystem) (path : string)
  : filesystem * outcome bool :=
  if (width self <=? 0) || (height self <=? 0) || negb (bitDepth self =? 24)
  then (fs, Throws (runtime_error "Bitmap must be valid and 24-bit to save as ICO."))
  else if negb (writable fs path)
  then (fs, Throws (runtime_error ("Failed to write ICO file: " ++ path)%string))
  else
    match ico_bytes self with
    | Returns out => (fs_write fs path out, Returns true)
    | Throws e => (fs_write fs path [], Throws e)
    | Aborts => (fs_write fs path [], Aborts)
    | Undefined => (fs_write fs path [], Undefined)
    end.

End bitmap.

(* ------------------------------------------------------------------ *)
(** ** class icon *)

Module icon.

(** [struct PACKED header] (ICONDIR, NEWHEADER). *)
Module header.
Record t : Type := mk {
  reserved : Z;        (* std::uint16_t *)
  type : Z;            (* std::uint16_t *)
  entries_count : Z    (* std::uint16_t *)
}.
End header.

(** [struct PACKED icon_entry] (ICONDIRENTRY). *)
Module icon_entry.
Record t : Type := mk {
  width : Z;          (* std::uint8_t *)
  height : Z;         (* std::uint8_t *)
  color_count : Z;    (* std::uint8_t *)
  reserved : Z;       (* std::uint8_t *)
  planes : Z;         (* std::uint16_t *)
  bit_count : Z;      (* std::uint16_t *)
  image_size : Z;     (* std::uint32_t *)
  image_offset : Z    (* std::uint32_t *)
}.
End icon_entry.

(** [struct PACKED entry] (RESDIR). *)
Module entry.
Record t : Type := mk {
  width : Z;           (* std::uint8_t *)
  height : Z;          (* std::uint8_t *)
  color_count : Z;     (* std::uint8_t *)
  reserved : Z;        (* std::uint8_t *)
  planes : Z;          (* std::uint16_t *)
  bit_count : Z;       (* std::uint16_t *)
  resource_size : Z;   (* std::uint32_t *)
  icon_id : Z          (* std::uint16_t *)
}.
End entry.

(** [sizeof] of the three packed structs. *)
Definition sizeof_header : nat := 6.
Definition sizeof_icon_entry : nat := 16.
Definition sizeof_entry : nat := 14.

(** The data members. *)
Record t : Type := mk {
  resource_header : header.t;
  resource_entries : list entry.t;
  images : list (list byte)
}.

(** The [header] a 6-byte buffer is read as. *)
Definition header_of_bytes (b : list byte) : header.t :=
  {| header.reserved := u16_at b 0;
     header.type := u16_at b 2;
     header.entries_count := u16_at b 4 |}.

(** The [icon_entry] a 16-byte buffer is read as. *)
Definition icon_entry_of_bytes (b : list byte) : icon_entry.t :=
  {| icon_entry.width := u8_at b 0;
     icon_entry.height := u8_at b 1;
     icon_entry.color_count := u8_at b 2;
     icon_entry.reserved := u8_at b 3;
     icon_entry.planes := u16_at b 4;
     icon_entry.bit_count := u16_at b 6;
     icon_entry.image_size := u32_at b 8;
     icon_entry.image_offset := u32_at b 12 |}.

(** [serialize(const header&)]: [sizeof(header)] bytes copied out of the struct. *)
Definition serialize_header (h : header.t) : list byte :=
  enc_u16 (header.reserved h) ++ enc_u16 (header.type h) ++
  enc_u16 (header.entries_count h).

(** [serialize(const entry&)]: [sizeof(entry)] bytes copied out of the struct. *)
Definition serialize_entry (e : entry.t) : list byte :=
  enc_u8 (entry.width e) ++ enc_u8 (entry.height e) ++
  enc_u8 (entry.color_count e) ++ enc_u8 (entry.reserved e) ++
  enc_u16 (entry.planes e) ++ enc_u16 (entry.bit_count e) ++
  enc_u32 (entry.resource_size e) ++ enc_u16 (entry.icon_id e).

(** [get_header]: the loop appends each serialized entry to the
    serialized header. *)
Definition get_header (self : t) : list byte :=
  fold_left (fun serialized_header e => serialized_header ++ serialize_entry e)
            (resource_entries self)
            ([] ++ serialize_header (resource_header self)).

Definition get_images (self : t) : list (list byte) := images self.

(** [open_file]: the stream raises on failbit and badbit from here on. *)
Definition open_file (fs : filesystem) (file_path : string) : outcome ifstream :=
  match file_at fs file_path with
  | None =>
      Throws (invalid_argument
                ("Failed to open " ++ quote ++ file_path ++ quote ++ "!")%string)
  | Some data => Returns (set_exceptions (ifstream_open data))
  end.

Definition ICO_IMAGE_TYPE : Z := 0x0001.
Definition CUR_IMAGE_TYPE : Z := 0x0002.

(** The exceptions of the reader, by the message they carry. *)
Definition header_read_failure : exn :=
  runtime_error "Failed to read icon header from file.".
Definition header_reserved_invalid (actual : Z) : exn :=
  invalid_argument
    ("Header reserved bytes are 0x" ++ format_X actual ++ ", expecting 0x"
       ++ format_X 0x0000 ++ "!")%string.
Definition image_is_cursor : exn :=
  invalid_argument "Image is of CUR type, not ICO!".
Definition image_type_invalid (actual : Z) : exn :=
  invalid_argument ("Image type 0x" ++ format_X actual ++ " is invalid!")%string.
Definition no_image_entries : exn :=
  invalid_argument "Icon does not have image entries!".
Definition entries_read_failure : exn :=
  runtime_error "Failed to read icon entry data from file.".
Definition entry_reserved_invalid (actual : Z) : exn :=
  invalid_argument
    ("Entry's reserved byte is 0x" ++ format_X actual ++ ", excepting 0x"
       ++ format_X 0x00 ++ "!")%string.
Definition entry_planes_invalid (actual : Z) : exn :=
  invalid_argument
    ("Entry's color planes is 0x" ++ format_X actual ++ ", expecting 0x"
       ++ format_X 0x0000 ++ " or 0x" ++ format_X 0x0001 ++ "!")%string.
Definition image_read_failure : exn :=
  runtime_error "Failed to read icon image data from file.".

(** [read_header]: fills [resource_header] and validates it. *)
Definition read_header (file : ifstream) : outcome (header.t * ifstream) :=
  match istream_read file (repeat x00 sizeof_header) sizeof_header with
  | None => Throws header_read_failure
  | Some (b, file') =>
      let resource_header := header_of_bytes b in
      if negb (0x0000 =? header.reserved resource_header)
      then Throws (header_reserved_invalid (header.reserved resource_header))
      else if CUR_IMAGE_TYPE =? header.type resource_header
      then Throws image_is_cursor
      else if negb (ICO_IMAGE_TYPE =? header.type resource_header)
      then Throws (image_type_invalid (header.type resource_header))
      else if 0x0000 =? header.entries_count resource_header
      then Throws no_image_entries
      else Returns (resource_header, file')
  end.

(** [read_icon_entries]: the header, then the entry table in one read. *)
Definition read_icon_entries (file : ifstream)
  : outcome (header.t * list icon_entry.t * ifstream) :=
  '(resource_header, file) <- read_header file;;
  let n := Z.to_nat (header.entries_count resource_header) in
  let size := (n * sizeof_icon_entry)%nat in
  match istream_read file (repeat x00 size) size with
  | None => Throws entries_read_failure
  | Some (b, file') =>
      Returns (resource_header,
               map icon_entry_of_bytes (chunks sizeof_icon_entry n b),
               file')
  end.

(** [read_images]: the loop over the entries, [images] being the member
    the blobs are pushed to. *)
Fixpoint read_images (file : ifstream) (entries : list icon_entry.t)
    (images : list (list byte)) : outcome (list (list byte) * ifstream) :=
  match entries with
  | [] => Returns (images, file)
  | entry :: rest =>
      if negb (0x00 =? icon_entry.reserved entry)
      then Throws (entry_reserved_invalid (icon_entry.reserved entry))
      else if negb (0x0000 =? icon_entry.planes entry) && negb (0x0001 =? icon_entry.planes entry)
      then Throws (entry_planes_invalid (icon_entry.planes entry))
      else
        (* [image] is empty here: fresh, or moved from by the last push_back *)
        let image := resize [] (Z.to_nat (icon_entry.image_size entry)) in
        match istream_read file image (length image) with
        | None => Throws image_read_failure
        | Some (image', file') => read_images file' rest (images ++ [image'])
        end
  end.

(** [convert_entries]: the loop over the entries, [icon_id] being the
    counter and [resource_entries] the member the records are pushed to. *)
Fixpoint convert_entries (entries : list icon_entry.t) (icon_id : Z)
    (resource_entries : list entry.t) : outcome (list entry.t) :=
  match entries with
  | [] => Returns resource_entries
  | icon_entry :: rest =>
      if negb (0 =? icon_entry.reserved icon_entry) then Aborts
      else if negb ((0 =? icon_entry.planes icon_entry) || (1 =? icon_entry.planes icon_entry))
      then Aborts
      else
        let icon_id' := to_u16 (icon_id + 1) in
        let entry :=
          {| entry.width := icon_entry.width icon_entry;
             entry.height := icon_entry.height icon_entry;
             entry.color_count := icon_entry.color_count icon_entry;
             entry.reserved := icon_entry.reserved icon_entry;
             entry.planes := icon_entry.planes icon_entry;
             entry.bit_count := icon_entry.bit_count icon_entry;
             entry.resource_size := icon_entry.image_size icon_entry;
             entry.icon_id := icon_id' |} in
        convert_entries rest icon_id' (resource_entries ++ [entry])
  end.

(** The constructor [icon::icon(std::string_view file_path)]. *)
Definition icon (fs : filesystem) (file_path : string) : outcome t :=
  file <- open_file fs file_path;;
  '(resource_header, entries, file) <- read_icon_entries file;;
  '(images, _) <- read_images file entries [];;
  resource_entries <- convert_entries entries 0 [];;
  Returns {| resource_header := resource_header;
             resource_entries := resource_entries;
             images := images |}.

(** [icon::from_bmp]: the file system after the call and the call's outcome.
    The [try] block is [attempt]; the handler removes the temporary file and
    rethrows. *)
Definition from_bmp (fs : filesystem) (bmp_path : string) : filesystem * outcome t :=
  let '(bmp, loaded) := bitmap.loadFromImage bitmap.empty fs bmp_path in
  match loaded with
  | Returns ok =>
      if negb ok
      then (fs, Throws (runtime_error ("Failed to load BMP image from: " ++ bmp_path)%string))
      else
        let temp_ico_path := (bmp_path ++ ".temp.ico")%string in
        let '(fs', saved) := bitmap.saveToIco bmp fs temp_ico_path in
        let attempt : outcome t :=
          ok' <- saved;;
          if negb ok' then Throws (runtime_error "Failed to save temporary .ICO file")
          else icon fs' temp_ico_path in
        match attempt with
        | Returns ico => (fs_remove fs' temp_ico_path, Returns ico)
        | Throws e => (fs_remove fs' temp_ico_path, Throws e)
        | Aborts => (fs', Aborts)
        | Undefined => (fs', Undefined)
        end
  | Throws e => (fs, Throws e)
  | Aborts => (fs, Aborts)
  | Undefined => (fs, Undefined)
  end.

End icon.

(* ================================================================== *)
(** * Properties *)

(* ------------------------------------------------------------------ *)
(** ** The byte codec *)

Section Codec.

Lemma Z_of_byte_range (b : byte) : 0 <= Z_of_byte b < 256.
Proof.
  unfold Z_of_byte. pose proof (Byte.to_N_bounded b) as H.
  split; [apply N2Z.is_nonneg|]. lia.
Qed.

Lemma byte_of_Z_of_byte (b : byte) : byte_of_Z (Z_of_byte b) = b.
Proof.
  unfold byte_of_Z. pose proof (Z_of_byte_range b) as H.
  rewrite Z.mod_small by exact H.
  unfold Z_of_byte. rewrite N2Z.id, Byte.of_to_N. reflexivity.
Qed.

Lemma Z_of_byte_of_Z (z : Z) : Z_of_byte (byte_of_Z z) = z mod 256.
Proof.
  unfold byte_of_Z, Z_of_byte.
  pose proof (Z.mod_pos_bound z 256 ltac:(lia)) as Hm.
  destruct (Byte.of_N (Z.to_N (z mod 256))) as [b|] eqn:E.
  - apply Byte.to_of_N in E. rewrite E. rewrite Z2N.id; lia.
  - apply Byte.of_N_None_iff in E. lia.
Qed.

Lemma Z_of_byte_inj (a b : byte) : Z_of_byte a = Z_of_byte b -> a = b.
Proof.
  intro H. rewrite <- (byte_of_Z_of_byte a), <- (byte_of_Z_of_byte b), H. reflexivity.
Qed.

Lemma u8_at_range bs off : 0 <= u8_at bs off < 256.
Proof. apply Z_of_byte_range. Qed.

Lemma u16_at_range bs off : 0 <= u16_at bs off < 65536.
Proof.
  unfold u16_at.
  pose proof (u8_at_range bs off). pose proof (u8_at_range bs (off + 1)). lia.
Qed.

Lemma u32_at_range bs off : 0 <= u32_at bs off < 4294967296.
Proof.
  unfold u32_at.
  pose proof (u16_at_range bs off). pose proof (u16_at_range bs (off + 2)). lia.
Qed.

Lemma i32_at_range bs off : INT_MIN <= i32_at bs off <= INT_MAX.
Proof.
  unfold i32_at, INT_MIN, INT_MAX. pose proof (u32_at_range bs off).
  destruct (Z.ltb_spec (u32_at bs off) 2147483648); lia.
Qed.

(** Reading at an offset past a prefix. *)
Lemma u8_at_app pre bs off : u8_at (pre ++ bs) (length pre + off) = u8_at bs off.
Proof.
  unfold u8_at. rewrite app_nth2 by lia. f_equal. f_equal. lia.
Qed.

Lemma u16_at_app pre bs off : u16_at (pre ++ bs) (length pre + off) = u16_at bs off.
Proof.
  unfold u16_at. rewrite <- Nat.add_assoc, !u8_at_app. reflexivity.
Qed.

Lemma u32_at_app pre bs off : u32_at (pre ++ bs) (length pre + off) = u32_at bs off.
Proof.
  unfold u32_at. rewrite <- Nat.add_assoc, !u16_at_app. reflexivity.
Qed.

Lemma i32_at_app pre bs off : i32_at (pre ++ bs) (length pre + off) = i32_at bs off.
Proof. unfold i32_at. rewrite u32_at_app. reflexivity. Qed.

(** Decoding what was encoded. *)
Lemma u8_at_enc_u8 z rest : u8_at (enc_u8 z ++ rest) 0 = z mod 256.
Proof. unfold u8_at, enc_u8. cbn [app nth]. apply Z_of_byte_of_Z. Qed.

Lemma u16_at_enc_u16 z rest : u16_at (enc_u16 z ++ rest) 0 = z mod 65536.
Proof.
  unfold u16_at, u8_at, enc_u16. cbn [app nth Nat.add].
  rewrite !Z_of_byte_of_Z. Z.div_mod_to_equations; lia.
Qed.

Lemma u32_at_enc_u32 z rest : u32_at (enc_u32 z ++ rest) 0 = z mod 4294967296.
Proof.
  unfold u32_at, u16_at, u8_at, enc_u32. cbn [app nth Nat.add].
  rewrite !Z_of_byte_of_Z. Z.div_mod_to_equations; lia.
Qed.

Lemma i32_at_enc_u32 z rest :
  INT_MIN <= z <= INT_MAX -> i32_at (enc_u32 z ++ rest) 0 = z.
Proof.
  unfold INT_MIN, INT_MAX. intro H.
  unfold i32_at. rewrite u32_at_enc_u32.
  destruct (Z.ltb_spec (z mod 4294967296) 2147483648);
    Z.div_mod_to_equations; lia.
Qed.

Lemma length_enc_u8 z : length (enc_u8 z) = 1%nat.
Proof. reflexivity. Qed.
Lemma length_enc_u16 z : length (enc_u16 z) = 2%nat.
Proof. reflexivity. Qed.
Lemma length_enc_u32 z : length (enc_u32 z) = 4%nat.
Proof. reflexivity. Qed.

End Codec.

(* ------------------------------------------------------------------ *)
(** ** Lists of bytes and streams *)

Section Streams.

Lemma skipn_repeat_all (n : nat) : skipn n (repeat x00 n) = [].
Proof. apply skipn_all2. rewrite repeat_length. lia. Qed.

Lemma resize_nil (n : nat) : resize [] n = repeat x00 n.
Proof. unfold resize. rewrite firstn_nil. cbn [app length]. f_equal. lia. Qed.

Lemma length_resize v n : length (resize v n) = n.
Proof.
  unfold resize. rewrite length_app, length_firstn, repeat_length. lia.
Qed.

Lemma length_write_at dst off src :
  (off + length src <= length dst)%nat ->
  length (write_at dst off src) = length dst.
Proof.
  intro H. unfold write_at.
  rewrite !length_app, length_firstn, length_skipn. lia.
Qed.

Lemma u8_at_skipn k bs off : u8_at (skipn k bs) off = u8_at bs (k + off).
Proof.
  unfold u8_at. f_equal.
  revert bs. induction k as [|k IH]; intros [|b bs]; cbn [skipn Nat.add nth]; auto.
  destruct off; reflexivity.
Qed.

Lemma u8_at_firstn m bs off : (off < m)%nat -> u8_at (firstn m bs) off = u8_at bs off.
Proof.
  unfold u8_at. intro H. f_equal.
  revert bs off H. induction m as [|m IH]; intros bs off H; [lia|].
  destruct bs as [|b bs]; cbn [firstn]; [reflexivity|].
  destruct off as [|off]; cbn [nth]; [reflexivity|]. apply IH. lia.
Qed.

Lemma u16_at_skipn k bs off : u16_at (skipn k bs) off = u16_at bs (k + off).
Proof. unfold u16_at. rewrite !u8_at_skipn. do 2 f_equal. f_equal. lia. Qed.

Lemma u32_at_skipn k bs off : u32_at (skipn k bs) off = u32_at bs (k + off).
Proof. unfold u32_at. rewrite !u16_at_skipn. do 2 f_equal. f_equal. lia. Qed.

Lemma u16_at_firstn m bs off : (off + 1 < m)%nat -> u16_at (firstn m bs) off = u16_at bs off.
Proof. intro H. unfold u16_at. rewrite !u8_at_firstn by lia. reflexivity. Qed.

Lemma u32_at_firstn m bs off : (off + 3 < m)%nat -> u32_at (firstn m bs) off = u32_at bs off.
Proof. intro H. unfold u32_at. rewrite !u16_at_firstn by lia. reflexivity. Qed.

(** A stream of the icon reader: unfailed, raising on failure. *)
Definition at_pos (data : list byte) (k : nat) : ifstream :=
  {| contents := data; gpos := k; failbit := false; exceptions_mask := true |}.

(** A stream of the bitmap loader: not raising. *)
Definition quiet (data : list byte) (k : nat) (failed : bool) : ifstream :=
  {| contents := data; gpos := k; failbit := failed; exceptions_mask := false |}.

Lemma read_at_pos data k n :
  istream_read (at_pos data k) (repeat x00 n) n =
  if (n <=? length data - k)%nat
  then Some (firstn n (skipn k data), at_pos data (k + n))
  else None.
Proof.
  unfold istream_read, at_pos. cbn [failbit contents gpos exceptions_mask].
  rewrite length_skipn, skipn_repeat_all, app_nil_r. reflexivity.
Qed.

Lemma read_quiet data k failed buf n :
  exists buf' k' failed',
    istream_read (quiet data k failed) buf n = Some (buf', quiet data k' failed')
    /\ (length buf' = length buf \/ (length buf < n)%nat).
Proof.
  unfold istream_read, quiet. cbn [failbit contents gpos exceptions_mask].
  destruct failed.
  - exists buf, k, true. auto.
  - destruct (Nat.leb_spec n (length (skipn k data))) as [Hle|Hgt].
    + eexists _, _, false. split; [reflexivity|].
      rewrite length_app, length_firstn, !length_skipn. rewrite length_skipn in Hle.
      destruct (Nat.le_gt_cases n (length buf)); [left|right]; lia.
    + eexists _, _, true. split; [reflexivity|].
      rewrite length_app, !length_skipn. rewrite length_skipn in Hgt.
      destruct (Nat.le_gt_cases n (length buf)); [left|right]; lia.
Qed.

End Streams.

(* ------------------------------------------------------------------ *)
(** ** The ICO reader *)

Section IcoReader.

Import icon.

(** What the validation of [read_images] accepts. *)
Definition entry_ok (e : icon_entry.t) : Prop :=
  icon_entry.reserved e = 0 /\ (icon_entry.planes e = 0 \/ icon_entry.planes e = 1).

Definition blob_size (e : icon_entry.t) : nat := Z.to_nat (icon_entry.image_size e).

Definition payload_size (es : list icon_entry.t) : nat := list_sum (map blob_size es).

(** The directory entry number [i] of a file, counted from 0: the 16
    bytes at offset [6 + 16 * i]. *)
Definition dir_entry (data : list byte) (i : nat) : icon_entry.t :=
  icon_entry_of_bytes (skipn (6 + 16 * i) data).

(** The entry table a file announces in its header. *)
Definition directory (data : list byte) : list icon_entry.t :=
  map (dir_entry data) (seq 0 (Z.to_nat (u16_at data 4))).

(** Where blob number [i] starts when the blobs follow the table of [es]
    back to back. *)
Definition blob_offset (es : list icon_entry.t) (i : nat) : nat :=
  6 + 16 * length es + payload_size (firstn i es).

(** The blobs of [es] cut out of [data] back to back from position [k]. *)
Fixpoint blobs_from (data : list byte) (k : nat) (es : list icon_entry.t)
  : list (list byte) :=
  match es with
  | [] => []
  | e :: es' => firstn (blob_size e) (skipn k data) :: blobs_from data (k + blob_size e) es'
  end.

(** The record [convert_entries] builds from a directory entry. *)
Definition resource_entry_of (e : icon_entry.t) (id : Z) : entry.t :=
  {| entry.width := icon_entry.width e;
     entry.height := icon_entry.height e;
     entry.color_count := icon_entry.color_count e;
     entry.reserved := icon_entry.reserved e;
     entry.planes := icon_entry.planes e;
     entry.bit_count := icon_entry.bit_count e;
     entry.resource_size := icon_entry.image_size e;
     entry.icon_id := id |}.

(** The records of [es], numbered from [id + 1]. *)
Fixpoint numbered (es : list icon_entry.t) (id : Z) : list entry.t :=
  match es with
  | [] => []
  | e :: es' => resource_entry_of e (id + 1) :: numbered es' (id + 1)
  end.

Lemma length_blobs_from data k es : length (blobs_from data k es) = length es.
Proof. revert k; induction es; intro k; cbn; auto. Qed.

Lemma length_numbered es id : length (numbered es id) = length es.
Proof. revert id; induction es; intro id; cbn; auto. Qed.

Lemma payload_size_app es es' :
  payload_size (es ++ es') = (payload_size es + payload_size es')%nat.
Proof. unfold payload_size. rewrite map_app, list_sum_app. reflexivity. Qed.

Lemma payload_size_cons e es :
  payload_size (e :: es) = (blob_size e + payload_size es)%nat.
Proof. reflexivity. Qed.

Lemma nth_error_blobs_from data es : forall k i e,
  nth_error es i = Some e ->
  nth_error (blobs_from data k es) i =
  Some (firstn (blob_size e) (skipn (k + payload_size (firstn i es)) data)).
Proof.
  induction es as [|a es IH]; intros k i e H; [destruct i; discriminate|].
  destruct i as [|i]; cbn [nth_error blobs_from firstn] in *.
  - injection H as ->. unfold payload_size. cbn. rewrite Nat.add_0_r. reflexivity.
  - rewrite (IH _ _ _ H), payload_size_cons. do 3 f_equal. lia.
Qed.

Lemma nth_error_numbered es : forall id i e,
  nth_error es i = Some e ->
  nth_error (numbered es id) i = Some (resource_entry_of e (id + 1 + Z.of_nat i)).
Proof.
  induction es as [|a es IH]; intros id i e H; [destruct i; discriminate|].
  destruct i as [|i]; cbn [nth_error numbered] in *.
  - injection H as ->. do 2 f_equal. lia.
  - rewrite (IH _ _ _ H). do 2 f_equal. lia.
Qed.

Lemma map_icon_id_numbered es : forall id,
  map entry.icon_id (numbered es id) =
  map (fun k => id + Z.of_nat k) (seq 1 (length es)).
Proof.
  induction es as [|a es IH]; intro id; [reflexivity|].
  cbn [numbered map length seq]. f_equal.
  rewrite IH, <- (seq_shift (length es) 1), map_map. apply map_ext. intro k. lia.
Qed.

(** *** [read_header] *)

Lemma header_of_bytes_firstn data :
  header_of_bytes (firstn sizeof_header data) = header_of_bytes data.
Proof.
  unfold header_of_bytes, sizeof_header.
  rewrite !u16_at_firstn by lia. reflexivity.
Qed.

Lemma read_header_at data :
  read_header (at_pos data 0) =
  if (6 <=? length data)%nat then
    let h := header_of_bytes data in
    if negb (0 =? header.reserved h) then Throws (header_reserved_invalid (header.reserved h))
    else if 2 =? header.type h then Throws image_is_cursor
    else if negb (1 =? header.type h) then Throws (image_type_invalid (header.type h))
    else if 0 =? header.entries_count h then Throws no_image_entries
    else Returns (h, at_pos data 6)
  else Throws header_read_failure.
Proof.
  unfold read_header. rewrite read_at_pos, Nat.sub_0_r.
  change sizeof_header with 6%nat.
  destruct (6 <=? length data)%nat; [|reflexivity].
  cbn [skipn]. change 6%nat with sizeof_header at 1 2 3 4 5 6 7.
  rewrite header_of_bytes_firstn. reflexivity.
Qed.

(** *** [read_icon_entries] *)

Lemma dir_entry_of_chunk data n i :
  (i < n)%nat ->
  icon_entry_of_bytes
    (firstn sizeof_icon_entry
       (skipn (sizeof_icon_entry * i) (firstn (n * sizeof_icon_entry) (skipn 6 data)))) =
  dir_entry data i.
Proof.
  intro H. unfold dir_entry, icon_entry_of_bytes, sizeof_icon_entry.
  rewrite !u8_at_firstn, !u16_at_firstn, !u32_at_firstn by lia.
  rewrite !u8_at_skipn, !u16_at_skipn, !u32_at_skipn.
  rewrite !u8_at_firstn, !u16_at_firstn, !u32_at_firstn by lia.
  rewrite !u8_at_skipn, !u16_at_skipn, !u32_at_skipn.
  rewrite !Nat.add_assoc.
  reflexivity.
Qed.

Lemma chunks_nth k bs : forall n i,
  (i < n)%nat -> nth_error (chunks k n bs) i = Some (firstn k (skipn (k * i) bs)).
Proof.
  intros n; revert bs. induction n as [|n IH]; intros bs i H; [lia|].
  destruct i as [|i]; cbn [chunks nth_error].
  - rewrite Nat.mul_0_r. reflexivity.
  - rewrite IH by lia. rewrite skipn_skipn. do 3 f_equal. lia.
Qed.

Lemma length_chunks k bs : forall n, length (chunks k n bs) = n.
Proof. intro n; revert bs; induction n; intro bs; cbn; auto. Qed.

Lemma directory_of_chunks data n :
  map icon_entry_of_bytes
      (chunks sizeof_icon_entry n (firstn (n * sizeof_icon_entry) (skipn 6 data))) =
  map (dir_entry data) (seq 0 n).
Proof.
  apply nth_error_ext. intro i.
  rewrite !nth_error_map.
  destruct (Nat.lt_ge_cases i n) as [Hlt|Hge].
  - rewrite chunks_nth by exact Hlt.
    rewrite nth_error_seq. destruct (Nat.ltb_spec i n); [|lia].
    cbn [option_map Nat.add]. f_equal. apply dir_entry_of_chunk. exact Hlt.
  - assert (nth_error (chunks sizeof_icon_entry n
                         (firstn (n * sizeof_icon_entry) (skipn 6 data))) i = None) as ->
      by (apply nth_error_None; rewrite length_chunks; exact Hge).
    assert (nth_error (seq 0 n) i = None) as ->
      by (apply nth_error_None; rewrite length_seq; exact Hge).
    reflexivity.
Qed.

Lemma length_directory data : length (directory data) = Z.to_nat (u16_at data 4).
Proof. unfold directory. rewrite length_map, length_seq. reflexivity. Qed.

Lemma nth_error_directory data i e :
  nth_error (directory data) i = Some e -> e = dir_entry data i.
Proof.
  unfold directory. rewrite nth_error_map, nth_error_seq.
  destruct (i <? _)%nat; cbn; congruence.
Qed.

Lemma read_icon_entries_at data :
  read_icon_entries (at_pos data 0) =
  ('(h, file) <- read_header (at_pos data 0);;
   let n := Z.to_nat (header.entries_count h) in
   if (n * 16 <=? length (contents file) - gpos file)%nat
   then if failbit file then Throws entries_read_failure
        else Returns (h, map icon_entry_of_bytes
                           (chunks 16 n (firstn (n * 16) (skipn (gpos file) (contents file)))),
                      at_pos (contents file) (gpos file + n * 16))
   else Throws entries_read_failure).
Proof.
  unfold read_icon_entries. rewrite read_header_at.
  destruct (6 <=? length data)%nat; [|reflexivity].
  cbv zeta.
  repeat match goal with
         | |- context [if ?c then Throws ?e else _] => destruct c; [reflexivity|]
         end.
  cbn [bind]. change sizeof_icon_entry with 16%nat.
  rewrite read_at_pos. cbn [contents gpos failbit at_pos].
  destruct (_ <=? _)%nat; reflexivity.
Qed.

(** The conditions under which the header and the entry table are read. *)
Definition table_readable (data : list byte) : Prop :=
  (6 <= length data)%nat /\ u16_at data 0 = 0 /\ u16_at data 2 = 1 /\
  u16_at data 4 <> 0 /\
  (6 + 16 * Z.to_nat (u16_at data 4) <= length data)%nat.

Lemma read_icon_entries_ok data :
  table_readable data ->
  read_icon_entries (at_pos data 0) =
  Returns (header_of_bytes data, directory data,
           at_pos data (6 + 16 * Z.to_nat (u16_at data 4))).
Proof.
  intros (HL & Hr & Ht & Hc & Hn).
  rewrite read_icon_entries_at, read_header_at.
  destruct (Nat.leb_spec 6 (length data)); [|lia].
  cbv zeta.
  change (header.reserved (header_of_bytes data)) with (u16_at data 0).
  change (header.type (header_of_bytes data)) with (u16_at data 2).
  change (header.entries_count (header_of_bytes data)) with (u16_at data 4).
  rewrite Hr, Ht.
  change (0 =? 0) with true. change (2 =? 1) with false. change (1 =? 1) with true.
  cbn [negb].
  destruct (Z.eqb_spec 0 (u16_at data 4)); [congruence|].
  cbn [bind contents gpos failbit at_pos].
  change (header.entries_count (header_of_bytes data)) with (u16_at data 4).
  destruct (Nat.leb_spec (Z.to_nat (u16_at data 4) * 16) (length data - 6)); [|lia].
  change 16%nat with sizeof_icon_entry at 1 2.
  rewrite directory_of_chunks. unfold directory.
  do 3 f_equal. unfold sizeof_icon_entry. lia.
Qed.

Lemma read_icon_entries_inv data h es file :
  read_icon_entries (at_pos data 0) = Returns (h, es, file) ->
  table_readable data /\ h = header_of_bytes data /\ es = directory data /\
  file = at_pos data (6 + 16 * Z.to_nat (u16_at data 4)).
Proof.
  intro H.
  assert (table_readable data) as Hok.
  { rewrite read_icon_entries_at, read_header_at in H.
    unfold table_readable.
    destruct (Nat.leb_spec 6 (length data)); [|discriminate].
    cbv zeta in H. unfold header_of_bytes in H.
    cbn [header.reserved header.type header.entries_count] in H.
    destruct (Z.eqb_spec 0 (u16_at data 0)); [|discriminate].
    destruct (Z.eqb_spec 2 (u16_at data 2)); [discriminate|].
    destruct (Z.eqb_spec 1 (u16_at data 2)); [|discriminate].
    destruct (Z.eqb_spec 0 (u16_at data 4)); [discriminate|].
    cbn [negb bind contents gpos failbit at_pos header.entries_count] in H.
    destruct (Nat.leb_spec (Z.to_nat (u16_at data 4) * 16) (length data - 6));
      [|discriminate].
    repeat split; auto; lia. }
  rewrite (read_icon_entries_ok _ Hok) in H.
  injection H as <- <- <-. auto.
Qed.

Lemma icon_open fs file_path data :
  file_at fs file_path = Some data ->
  icon fs file_path =
  ('(resource_header, entries, file) <- read_icon_entries (at_pos data 0);;
   '(images, _) <- read_images file entries [];;
   resource_entries <- convert_entries entries 0 [];;
   Returns {| resource_header := resource_header;
              resource_entries := resource_entries;
              images := images |}).
Proof. intro H. unfold icon, open_file. rewrite H. reflexivity. Qed.

(** *** [read_images] *)

Lemma read_images_step data k e rest imgs :
  read_images (at_pos data k) (e :: rest) imgs =
  if negb (0 =? icon_entry.reserved e)
  then Throws (entry_reserved_invalid (icon_entry.reserved e))
  else if negb (0 =? icon_entry.planes e) && negb (1 =? icon_entry.planes e)
  then Throws (entry_planes_invalid (icon_entry.planes e))
  else if (blob_size e <=? length data - k)%nat
  then read_images (at_pos data (k + blob_size e)) rest
         (imgs ++ [firstn (blob_size e) (skipn k data)])
  else Throws image_read_failure.
Proof.
  cbn [read_images]. rewrite resize_nil, repeat_length, read_at_pos.
  fold (blob_size e).
  destruct (negb _); [reflexivity|]. destruct (_ && _); [reflexivity|].
  destruct (_ <=? _)%nat; reflexivity.
Qed.

Lemma entry_ok_checks e :
  entry_ok e ->
  negb (0 =? icon_entry.reserved e) = false /\
  negb (0 =? icon_entry.planes e) && negb (1 =? icon_entry.planes e) = false.
Proof.
  intros [Hr [Hp|Hp]]; rewrite Hr, Hp; split; reflexivity.
Qed.

Lemma checks_entry_ok e :
  negb (0 =? icon_entry.reserved e) = false ->
  negb (0 =? icon_entry.planes e) && negb (1 =? icon_entry.planes e) = false ->
  entry_ok e.
Proof.
  intros Hr Hp. unfold entry_ok.
  destruct (Z.eqb_spec 0 (icon_entry.reserved e)); [|discriminate].
  destruct (Z.eqb_spec 0 (icon_entry.planes e)); [auto|].
  destruct (Z.eqb_spec 1 (icon_entry.planes e)); [auto|discriminate].
Qed.

(** Valid entries whose blobs are all there are read back to back. *)
Lemma read_images_run data es : forall k imgs,
  Forall entry_ok es ->
  (payload_size es <= length data - k)%nat ->
  read_images (at_pos data k) es imgs =
  Returns (imgs ++ blobs_from data k es, at_pos data (k + payload_size es)).
Proof.
  induction es as [|e es IH]; intros k imgs Hok Hlen.
  - cbn. rewrite app_nil_r, Nat.add_0_r. reflexivity.
  - inversion Hok as [|? ? He Hes]; subst.
    rewrite payload_size_cons in Hlen.
    rewrite read_images_step.
    destruct (entry_ok_checks e He) as [-> ->].
    destruct (Nat.leb_spec (blob_size e) (length data - k)); [|lia].
    rewrite IH by (auto; lia).
    cbn [blobs_from]. rewrite <- app_assoc, payload_size_cons. cbn [app].
    do 3 f_equal. lia.
Qed.

(** A run of [read_images] that returns has validated every entry and
    found every blob. *)
Lemma read_images_inv data es : forall k imgs imgs' file',
  read_images (at_pos data k) es imgs = Returns (imgs', file') ->
  Forall entry_ok es /\ (payload_size es <= length data - k)%nat.
Proof.
  induction es as [|e es IH]; intros k imgs imgs' file' H.
  - split; [constructor|cbn; lia].
  - rewrite read_images_step in H.
    destruct (negb (0 =? icon_entry.reserved e)) eqn:Hr; [discriminate|].
    destruct (negb (0 =? icon_entry.planes e) && negb (1 =? icon_entry.planes e)) eqn:Hp;
      [discriminate|].
    destruct (Nat.leb_spec (blob_size e) (length data - k)); [|discriminate].
    apply IH in H. destruct H as [Hes Hlen].
    split; [constructor; auto using checks_entry_ok|].
    rewrite payload_size_cons. lia.
Qed.

(** The loop passes a prefix of valid entries whose blobs are there. *)
Lemma read_images_prefix data pre post k imgs :
  Forall entry_ok pre ->
  (payload_size pre <= length data - k)%nat ->
  read_images (at_pos data k) (pre ++ post) imgs =
  read_images (at_pos data (k + payload_size pre)) post (imgs ++ blobs_from data k pre).
Proof.
  revert k imgs. induction pre as [|e pre IH]; intros k imgs Hok Hlen.
  - cbn. rewrite app_nil_r, Nat.add_0_r. reflexivity.
  - inversion Hok as [|? ? He Hes]; subst.
    rewrite payload_size_cons in Hlen.
    cbn [app]. rewrite read_images_step.
    destruct (entry_ok_checks e He) as [-> ->].
    destruct (Nat.leb_spec (blob_size e) (length data - k)); [|lia].
    rewrite IH by (auto; lia).
    cbn [blobs_from]. rewrite <- app_assoc, payload_size_cons. cbn [app].
    do 2 f_equal. lia.
Qed.

(** Two entries that differ at most in [image_offset]. *)
Definition same_but_offset (e e' : icon_entry.t) : Prop :=
  icon_entry.width e = icon_entry.width e' /\
  icon_entry.height e = icon_entry.height e' /\
  icon_entry.color_count e = icon_entry.color_count e' /\
  icon_entry.reserved e = icon_entry.reserved e' /\
  icon_entry.planes e = icon_entry.planes e' /\
  icon_entry.bit_count e = icon_entry.bit_count e' /\
  icon_entry.image_size e = icon_entry.image_size e'.

Lemma read_images_ignores_offset es es' :
  Forall2 same_but_offset es es' ->
  forall file imgs, read_images file es imgs = read_images file es' imgs.
Proof.
  induction 1 as [|e e' es es' (_ & _ & _ & Hr & Hp & _ & Hs) _ IH]; intros file imgs.
  - reflexivity.
  - cbn [read_images]. rewrite Hr, Hp, Hs.
    destruct (negb _); [reflexivity|]. destruct (_ && _); [reflexivity|].
    destruct (istream_read _ _ _) as [[image' file']|]; [apply IH|reflexivity].
Qed.

(** *** [convert_entries] *)

Lemma convert_entries_run es : forall id acc,
  Forall entry_ok es ->
  0 <= id -> id + Z.of_nat (length es) <= 65535 ->
  convert_entries es id acc = Returns (acc ++ numbered es id).
Proof.
  induction es as [|e es IH]; intros id acc Hok Hid Hn.
  - cbn. rewrite app_nil_r. reflexivity.
  - inversion Hok as [|? ? [Hr Hp] Hes]; subst.
    cbn [length] in Hn. cbn [convert_entries numbered].
    rewrite Hr. change (negb (0 =? 0)) with false. cbv iota.
    assert ((0 =? icon_entry.planes e) || (1 =? icon_entry.planes e) = true) as ->
      by (destruct Hp as [-> | ->]; reflexivity).
    cbn [negb]. unfold to_u16. rewrite Z.mod_small by lia.
    rewrite IH by (auto; lia).
    rewrite <- app_assoc. unfold resource_entry_of. rewrite Hr. reflexivity.
Qed.

(** *** The constructor *)

(** The icon a file is loaded as, when it is. *)
Definition loaded (data : list byte) : t :=
  {| resource_header := header_of_bytes data;
     resource_entries := numbered (directory data) 0;
     images := blobs_from data (6 + 16 * Z.to_nat (u16_at data 4)) (directory data) |}.

(** The files the constructor accepts. *)
Definition loadable (data : list byte) : Prop :=
  table_readable data /\ Forall entry_ok (directory data) /\
  (6 + 16 * Z.to_nat (u16_at data 4) + payload_size (directory data) <= length data)%nat.

Lemma icon_loads fs file_path data :
  file_at fs file_path = Some data ->
  loadable data ->
  icon fs file_path = Returns (loaded data).
Proof.
  intros Hf (Ht & Hok & Hlen).
  rewrite (icon_open _ _ _ Hf), (read_icon_entries_ok _ Ht). cbn [bind].
  rewrite read_images_run by (auto; lia). cbn [bind app].
  rewrite convert_entries_run; [reflexivity|exact Hok|lia|].
  rewrite length_directory. pose proof (u16_at_range data 4). lia.
Qed.

Lemma icon_loaded_inv fs file_path data ico :
  file_at fs file_path = Some data ->
  icon fs file_path = Returns ico ->
  loadable data /\ ico = loaded data.
Proof.
  intros Hf H.
  assert (loadable data) as Hl.
  { rewrite (icon_open _ _ _ Hf) in H.
    destruct (read_icon_entries (at_pos data 0)) as [[[h es] file]| | |] eqn:E;
      try discriminate.
    apply read_icon_entries_inv in E. destruct E as (Ht & -> & -> & ->).
    cbn [bind] in H.
    destruct (read_images _ _ _) as [[imgs file']| | |] eqn:E; try discriminate.
    apply read_images_inv in E. destruct E as [Hok Hlen].
    destruct Ht as (HL & Hr & Hty & Hc & Hn).
    repeat split; auto; lia. }
  rewrite (icon_loads _ _ _ Hf Hl) in H. injection H as <-. auto.
Qed.

End IcoReader.

(* ------------------------------------------------------------------ *)
(** ** Header validation (the exceptions of [read_header])

    The spec's names for the failures of the header stage are the
    exceptions of the source: TruncatedHeader is [header_read_failure],
    InvalidHeaderReserved is [header_reserved_invalid], WrongContainerType
    is [image_is_cursor], InvalidContainerType is [image_type_invalid] and
    NoImageEntries is [no_image_entries]. *)

Section HeaderValidation.

Import icon.

(** C6: the header checks run in a fixed order and the first failing one
    decides the exception of the constructor: a file shorter than 6 bytes
    fails to read; then a nonzero [reserved] is reported with its value; then
    type 2 is reported as a cursor; then any type other than 1 is reported
    with its value; then a zero entry count is reported; and a header that
    passes all four checks is returned with the stream left at offset 6. *)
Theorem header_validation_order fs file_path data :
  file_at fs file_path = Some data ->
  let reserved := u16_at data 0 in
  let type := u16_at data 2 in
  let entries_count := u16_at data 4 in
  ((length data < 6)%nat -> icon fs file_path = Throws header_read_failure) /\
  ((6 <= length data)%nat ->
   (reserved <> 0 ->
    icon fs file_path = Throws (header_reserved_invalid reserved)) /\
   (reserved = 0 -> type = 2 ->
    icon fs file_path = Throws image_is_cursor) /\
   (reserved = 0 -> type <> 2 -> type <> 1 ->
    icon fs file_path = Throws (image_type_invalid type)) /\
   (reserved = 0 -> type = 1 -> entries_count = 0 ->
    icon fs file_path = Throws no_image_entries) /\
   (reserved = 0 -> type = 1 -> entries_count <> 0 ->
    read_header (at_pos data 0) = Returns (header_of_bytes data, at_pos data 6))).
Proof.
  intros Hf reserved type entries_count.
  assert (icon fs file_path =
          ('(h, file) <- read_header (at_pos data 0);;
           '(h, es, file) <- (let n := Z.to_nat (header.entries_count h) in
              if (n * 16 <=? length (contents file) - gpos file)%nat
              then if failbit file then Throws entries_read_failure
                   else Returns (h, map icon_entry_of_bytes
                                   (chunks 16 n (firstn (n * 16)
                                      (skipn (gpos file) (contents file)))),
                                 at_pos (contents file) (gpos file + n * 16))
              else Throws entries_read_failure);;
           '(images, _) <- read_images file es [];;
           resource_entries <- convert_entries es 0 [];;
           Returns {| resource_header := h;
                      resource_entries := resource_entries;
                      images := images |})) as Hicon.
  { rewrite (icon_open _ _ _ Hf), read_icon_entries_at.
    destruct (read_header (at_pos data 0)) as [[h file]| | |]; reflexivity. }
  rewrite Hicon, read_header_at. clear Hicon.
  change (header.reserved (header_of_bytes data)) with reserved.
  change (header.type (header_of_bytes data)) with type.
  change (header.entries_count (header_of_bytes data)) with entries_count.
  cbv zeta.
  change (header.reserved (header_of_bytes data)) with reserved.
  change (header.type (header_of_bytes data)) with type.
  change (header.entries_count (header_of_bytes data)) with entries_count.
  split.
  - intro H. destruct (Nat.leb_spec 6 (length data)); [lia|reflexivity].
  - intro H. destruct (Nat.leb_spec 6 (length data)); [|lia].
    destruct (Z.eqb_spec 0 reserved), (Z.eqb_spec 2 type), (Z.eqb_spec 1 type),
      (Z.eqb_spec 0 entries_count);
      cbn [negb bind]; repeat split; intros; try congruence; try reflexivity.
Qed.

Definition header_cur : list byte := [x00; x00; x02; x00; x01; x00].

Lemma header_validation_order_witness :
  icon (mk_filesystem (fun _ => Some header_cur) (fun _ => false)) "header_cur.ico"
  = Throws image_is_cursor.
Proof.
  apply (header_validation_order
           (mk_filesystem (fun _ => Some header_cur) (fun _ => false))
           "header_cur.ico" header_cur eq_refl);
    [cbn; lia | reflexivity | reflexivity].
Defined.

End HeaderValidation.

(* ------------------------------------------------------------------ *)
(** ** The image loop ([read_images])

    InvalidEntryReserved is [entry_reserved_invalid], InvalidEntryPlanes is
    [entry_planes_invalid] and TruncatedImageData is [image_read_failure]. *)

Section ImageLoop.

Import icon.

Lemma nth_error_decompose {A : Type} (l : list A) : forall i a,
  nth_error l i = Some a -> l = firstn i l ++ a :: skipn (S i) l.
Proof.
  induction l as [|x l IH]; intros [|i] a H; try discriminate.
  - injection H as ->. reflexivity.
  - cbn [firstn skipn app]. f_equal. apply IH. exact H.
Qed.

Lemma payload_before es i e :
  nth_error es i = Some e ->
  (payload_size (firstn i es) + blob_size e <= payload_size es)%nat.
Proof.
  intro H. rewrite (nth_error_decompose es i e H) at 2.
  rewrite payload_size_app, payload_size_cons. lia.
Qed.

(** C1: the image loop works through the entry table in file order.  When
    the constructor returns, every entry passed both checks and blob [i] is
    the run of [image_size] bytes that starts where the table and the
    blobs before it end.  When entry [i] is the first one with a problem
    (all entries before it are valid and their blobs are there), a nonzero
    [reserved] is reported with its value, else a [planes] other than 0 and 1
    is reported with its value, else a blob that is cut short is a read
    failure.  Entries that differ only in [image_offset] give the same run of
    the loop: the field is never used. *)
Theorem read_images_in_file_order fs file_path data :
  file_at fs file_path = Some data ->
  table_readable data ->
  let es := directory data in
  (forall ico, icon fs file_path = Returns ico ->
     length (images ico) = length es /\
     forall i e, nth_error es i = Some e ->
       entry_ok e /\
       (blob_offset es i + blob_size e <= length data)%nat /\
       nth_error (images ico) i =
         Some (firstn (blob_size e) (skipn (blob_offset es i) data))) /\
  (forall i e, nth_error es i = Some e ->
     Forall entry_ok (firstn i es) ->
     (blob_offset es i <= length data)%nat ->
     (icon_entry.reserved e <> 0 ->
      icon fs file_path = Throws (entry_reserved_invalid (icon_entry.reserved e))) /\
     (icon_entry.reserved e = 0 ->
      icon_entry.planes e <> 0 -> icon_entry.planes e <> 1 ->
      icon fs file_path = Throws (entry_planes_invalid (icon_entry.planes e))) /\
     (entry_ok e ->
      (length data < blob_offset es i + blob_size e)%nat ->
      icon fs file_path = Throws image_read_failure)) /\
  (forall es' file imgs,
     Forall2 same_but_offset es es' ->
     read_images file es imgs = read_images file es' imgs).
Proof.
  intros Hf Ht es.
  assert (length es = Z.to_nat (u16_at data 4)) as Hn by apply length_directory.
  split; [|split].
  - intros ico H.
    destruct (icon_loaded_inv _ _ _ _ Hf H) as [(_ & Hok & Hlen) ->].
    cbn [images loaded]. fold es in Hok, Hlen |- *.
    split; [apply length_blobs_from|].
    intros i e He.
    split; [|split].
    + rewrite Forall_forall in Hok. apply Hok. eapply nth_error_In; eauto.
    + pose proof (payload_before es i e He). unfold blob_offset. lia.
    + rewrite (nth_error_blobs_from _ _ _ _ _ He).
      unfold blob_offset. rewrite Hn. do 3 f_equal.
  - intros i e He Hpre Hoff.
    assert (icon fs file_path =
            ('(images, _) <- read_images (at_pos data (blob_offset es i))
                               (e :: skipn (S i) es)
                               ([] ++ blobs_from data (6 + 16 * length es) (firstn i es));;
             resource_entries <- convert_entries es 0 [];;
             Returns {| resource_header := header_of_bytes data;
                        resource_entries := resource_entries;
                        images := images |})) as ->.
    { rewrite (icon_open _ _ _ Hf), (read_icon_entries_ok _ Ht). cbn [bind].
      fold es. rewrite <- Hn. unfold blob_offset in *.
      set (k := (6 + 16 * length es)%nat) in *.
      rewrite (nth_error_decompose es i e He) at 1.
      rewrite read_images_prefix; [reflexivity|exact Hpre|lia]. }
    rewrite read_images_step.
    split; [|split].
    + intro Hr. destruct (Z.eqb_spec 0 (icon_entry.reserved e)); [congruence|].
      reflexivity.
    + intros Hr Hp0 Hp1. rewrite Hr. change (negb (0 =? 0)) with false. cbv iota.
      destruct (Z.eqb_spec 0 (icon_entry.planes e)); [congruence|].
      destruct (Z.eqb_spec 1 (icon_entry.planes e)); [congruence|].
      reflexivity.
    + intros Hok Hshort. destruct (entry_ok_checks e Hok) as [-> ->].
      destruct (Nat.leb_spec (blob_size e) (length data - blob_offset es i)); [lia|].
      reflexivity.
  - intros es' file imgs H. apply read_images_ignores_offset. exact H.
Qed.

(** A header, one entry whose [reserved] byte is 0xFF, and no payload. *)
Definition entry_reserved_ff : list byte :=
  [x00; x00; x01; x00; x01; x00;
   x20; x20; x00; xff; x01; x00; x20; x00; x04; x00; x00; x00; x16; x00; x00; x00].

Lemma read_images_in_file_order_witness :
  icon (mk_filesystem (fun _ => Some entry_reserved_ff) (fun _ => false))
       "entry_reserved_ff.ico"
  = Throws (entry_reserved_invalid 255).
Proof.
  assert (table_readable entry_reserved_ff) as Ht
    by (unfold table_readable; cbn; repeat split; try lia; discriminate).
  apply (proj1 (proj2 (read_images_in_file_order
                         (mk_filesystem (fun _ => Some entry_reserved_ff) (fun _ => false))
                         "entry_reserved_ff.ico" entry_reserved_ff eq_refl Ht))
           0%nat (dir_entry entry_reserved_ff 0) eq_refl).
  - constructor.
  - apply Nat.leb_le. vm_compute. reflexivity.
  - vm_compute. discriminate.
Defined.

End ImageLoop.

(* ------------------------------------------------------------------ *)
(** ** Resource entries ([convert_entries]) *)

Section ResourceEntries.

Import icon.

Lemma NoDup_ids n : NoDup (map Z.of_nat (seq 1 n)).
Proof.
  apply Injective_map_NoDup; [|apply seq_NoDup].
  intros a b H. apply Nat2Z.inj. exact H.
Qed.

(** C8: the resource entries of a loaded icon are numbered 1, 2, ...,
    [entries_count] in stored order, so the ids are sequential and unique;
    entry [i] copies the geometry of directory entry [i] of the file, its
    [resource_size] being that entry's [image_size]. *)
Theorem icon_ids_sequential fs file_path data ico :
  file_at fs file_path = Some data ->
  icon fs file_path = Returns ico ->
  let n := Z.to_nat (header.entries_count (resource_header ico)) in
  length (resource_entries ico) = n /\
  map entry.icon_id (resource_entries ico) = map Z.of_nat (seq 1 n) /\
  NoDup (map entry.icon_id (resource_entries ico)) /\
  forall i, (i < n)%nat ->
    exists r, nth_error (resource_entries ico) i = Some r /\
      entry.icon_id r = Z.of_nat i + 1 /\
      entry.resource_size r = icon_entry.image_size (dir_entry data i) /\
      entry.width r = icon_entry.width (dir_entry data i) /\
      entry.height r = icon_entry.height (dir_entry data i) /\
      entry.color_count r = icon_entry.color_count (dir_entry data i) /\
      entry.reserved r = icon_entry.reserved (dir_entry data i) /\
      entry.planes r = icon_entry.planes (dir_entry data i) /\
      entry.bit_count r = icon_entry.bit_count (dir_entry data i).
Proof.
  intros Hf H.
  destruct (icon_loaded_inv _ _ _ _ Hf H) as [_ ->].
  cbn [resource_header resource_entries loaded header.entries_count header_of_bytes].
  cbv zeta.
  assert (map entry.icon_id (numbered (directory data) 0) =
          map Z.of_nat (seq 1 (Z.to_nat (u16_at data 4)))) as Hids.
  { rewrite map_icon_id_numbered, length_directory. apply map_ext. intro; lia. }
  split; [rewrite length_numbered; apply length_directory|].
  split; [exact Hids|].
  split; [rewrite Hids; apply NoDup_ids|].
  intros i Hi.
  assert (nth_error (directory data) i = Some (dir_entry data i)) as He.
  { unfold directory. rewrite nth_error_map, nth_error_seq.
    destruct (Nat.ltb_spec i (Z.to_nat (u16_at data 4))); [reflexivity|lia]. }
  exists (resource_entry_of (dir_entry data i) (0 + 1 + Z.of_nat i)).
  split; [apply nth_error_numbered; exact He|].
  cbn [resource_entry_of entry.icon_id entry.resource_size entry.width entry.height
       entry.color_count entry.reserved entry.planes entry.bit_count].
  repeat split; lia.
Qed.

(** A header announcing two images, their entries, and 1 + 2 bytes of payload. *)
Definition two_images : list byte :=
  [x00; x00; x01; x00; x02; x00;
   x10; x10; x00; x00; x01; x00; x20; x00; x01; x00; x00; x00; x26; x00; x00; x00;
   x20; x20; x00; x00; x00; x00; x18; x00; x02; x00; x00; x00; x27; x00; x00; x00;
   xaa; xbb; xcc].

Lemma icon_ids_sequential_witness :
  map entry.icon_id (resource_entries (loaded two_images)) = [1; 2].
Proof.
  assert (icon (mk_filesystem (fun _ => Some two_images) (fun _ => false)) "two.ico"
          = Returns (loaded two_images)) as H by (vm_compute; reflexivity).
  exact (proj1 (proj2 (icon_ids_sequential
                         (mk_filesystem (fun _ => Some two_images) (fun _ => false))
                         "two.ico" two_images (loaded two_images) eq_refl H))).
Defined.

End ResourceEntries.

(* ------------------------------------------------------------------ *)
(** ** The resource header ([get_header]) *)

Section ResourceHeader.

Import icon.

Lemma get_header_concat ico :
  get_header ico =
  serialize_header (resource_header ico) ++
  concat (map serialize_entry (resource_entries ico)).
Proof.
  unfold get_header. cbn [app].
  generalize (serialize_header (resource_header ico)) as acc.
  induction (resource_entries ico) as [|e es IH]; intro acc.
  - cbn. rewrite app_nil_r. reflexivity.
  - cbn [fold_left map concat]. rewrite IH, <- app_assoc. reflexivity.
Qed.

Lemma length_serialize_header h : length (serialize_header h) = sizeof_header.
Proof. reflexivity. Qed.

Lemma length_serialize_entry e : length (serialize_entry e) = sizeof_entry.
Proof. reflexivity. Qed.

Lemma length_serialized_entries es :
  length (concat (map serialize_entry es)) = (sizeof_entry * length es)%nat.
Proof.
  induction es as [|e es IH]; [reflexivity|].
  cbn [map concat length]. rewrite length_app, IH, length_serialize_entry. lia.
Qed.

(** Every field holds a value of its C++ type. *)
Definition entry_in_range (r : entry.t) : Prop :=
  0 <= entry.width r < 256 /\ 0 <= entry.height r < 256 /\
  0 <= entry.color_count r < 256 /\ 0 <= entry.reserved r < 256 /\
  0 <= entry.planes r < 65536 /\ 0 <= entry.bit_count r < 65536 /\
  0 <= entry.resource_size r < 4294967296 /\ 0 <= entry.icon_id r < 65536.

Lemma serialize_entry_fields r rest :
  entry_in_range r ->
  let b := serialize_entry r ++ rest in
  u8_at b 0 = entry.width r /\ u8_at b 1 = entry.height r /\
  u8_at b 2 = entry.color_count r /\ u8_at b 3 = entry.reserved r /\
  u16_at b 4 = entry.planes r /\ u16_at b 6 = entry.bit_count r /\
  u32_at b 8 = entry.resource_size r /\ u16_at b 12 = entry.icon_id r.
Proof.
  intros (Hw & Hh & Hc & Hr & Hp & Hb & Hs & Hi). cbv zeta.
  unfold serialize_entry, enc_u8, enc_u16, enc_u32, u32_at, u16_at, u8_at.
  cbn [app nth Nat.add]. rewrite !Z_of_byte_of_Z.
  repeat split; Z.div_mod_to_equations; lia.
Qed.

Lemma serialize_header_fields h rest :
  0 <= header.reserved h < 65536 -> 0 <= header.type h < 65536 ->
  0 <= header.entries_count h < 65536 ->
  let b := serialize_header h ++ rest in
  u16_at b 0 = header.reserved h /\ u16_at b 2 = header.type h /\
  u16_at b 4 = header.entries_count h.
Proof.
  intros Hr Ht Hc. cbv zeta.
  unfold serialize_header, enc_u16, u16_at, u8_at.
  cbn [app nth Nat.add]. rewrite !Z_of_byte_of_Z.
  repeat split; Z.div_mod_to_equations; lia.
Qed.

Lemma numbered_in_range es : forall id r,
  0 <= id -> id + Z.of_nat (length es) <= 65535 ->
  Forall (fun e => exists b, e = icon_entry_of_bytes b) es ->
  In r (numbered es id) -> entry_in_range r.
Proof.
  induction es as [|e es IH]; intros id r Hid Hn Hes Hin; [destruct Hin|].
  inversion Hes as [|? ? [b ->] Hes']; subst.
  cbn [length] in Hn. cbn [numbered] in Hin. destruct Hin as [<-|Hin].
  - unfold entry_in_range, resource_entry_of, icon_entry_of_bytes.
    cbn [entry.width entry.height entry.color_count entry.reserved entry.planes
         entry.bit_count entry.resource_size entry.icon_id
         icon_entry.width icon_entry.height icon_entry.color_count
         icon_entry.reserved icon_entry.planes icon_entry.bit_count
         icon_entry.image_size].
    pose proof (u8_at_range b 0). pose proof (u8_at_range b 1).
    pose proof (u8_at_range b 2). pose proof (u8_at_range b 3).
    pose proof (u16_at_range b 4). pose proof (u16_at_range b 6).
    pose proof (u32_at_range b 8). repeat split; lia.
  - apply (IH (id + 1)); auto; lia.
Qed.

Lemma loaded_entries_in_range data r :
  In r (resource_entries (loaded data)) -> entry_in_range r.
Proof.
  cbn [resource_entries loaded]. apply numbered_in_range; [lia| |].
  - rewrite length_directory. pose proof (u16_at_range data 4). lia.
  - unfold directory. apply Forall_forall. intros e He.
    apply in_map_iff in He. destruct He as (i & <- & _). eexists. reflexivity.
Qed.

(** C3: for a loaded icon with n entries, [get_header] returns the 6 header
    bytes followed by the n records in stored order, 6 + 14 * n bytes in all;
    the header bytes decode to the three header fields and record [i]
    occupies the 14 bytes from offset [6 + 14 * i], holding width, height,
    color count and reserved as single bytes, then planes and bit count as
    16-bit, the resource size as 32-bit and the icon id as 16-bit
    little-endian values, with no offset field.  [get_header] is a total
    function of the icon's state. *)
Theorem get_header_layout fs file_path ico :
  icon fs file_path = Returns ico ->
  let out := get_header ico in
  let n := length (resource_entries ico) in
  Z.of_nat n = header.entries_count (resource_header ico) /\
  out = serialize_header (resource_header ico) ++
        concat (map serialize_entry (resource_entries ico)) /\
  length out = (6 + 14 * n)%nat /\
  u16_at out 0 = header.reserved (resource_header ico) /\
  u16_at out 2 = header.type (resource_header ico) /\
  u16_at out 4 = header.entries_count (resource_header ico) /\
  forall i r, nth_error (resource_entries ico) i = Some r ->
    let off := (6 + 14 * i)%nat in
    firstn 14 (skipn off out) = serialize_entry r /\
    u8_at out off = entry.width r /\
    u8_at out (off + 1) = entry.height r /\
    u8_at out (off + 2) = entry.color_count r /\
    u8_at out (off + 3) = entry.reserved r /\
    u16_at out (off + 4) = entry.planes r /\
    u16_at out (off + 6) = entry.bit_count r /\
    u32_at out (off + 8) = entry.resource_size r /\
    u16_at out (off + 12) = entry.icon_id r.
Proof.
  intros H out n.
  destruct (file_at fs file_path) as [data|] eqn:Hf;
    [|unfold icon, open_file in H; rewrite Hf in H; discriminate].
  destruct (icon_loaded_inv _ _ _ _ Hf H) as [_ Hico].
  assert (forall r, In r (resource_entries ico) -> entry_in_range r) as Hrange
    by (subst ico; apply loaded_entries_in_range).
  assert (Z.of_nat n = header.entries_count (resource_header ico)) as Hn.
  { subst n ico. cbn [resource_entries resource_header loaded].
    rewrite length_numbered, length_directory.
    pose proof (u16_at_range data 4). unfold header_of_bytes.
    cbn [header.entries_count]. lia. }
  assert (out = serialize_header (resource_header ico) ++
                concat (map serialize_entry (resource_entries ico))) as Hout
    by apply get_header_concat.
  split; [exact Hn|]. split; [exact Hout|].
  split.
  { rewrite Hout, length_app, length_serialized_entries, length_serialize_header.
    reflexivity. }
  assert (0 <= header.reserved (resource_header ico) < 65536 /\
          0 <= header.type (resource_header ico) < 65536 /\
          0 <= header.entries_count (resource_header ico) < 65536) as (Hr & Ht & Hc).
  { subst ico. cbn [resource_header loaded]. unfold header_of_bytes.
    cbn [header.reserved header.type header.entries_count].
    auto using u16_at_range. }
  destruct (serialize_header_fields (resource_header ico)
              (concat (map serialize_entry (resource_entries ico))) Hr Ht Hc)
    as (F0 & F2 & F4).
  rewrite <- Hout in F0, F2, F4.
  split; [exact F0|]. split; [exact F2|]. split; [exact F4|].
  intros i r Hi off.
  pose proof (nth_error_decompose _ _ _ Hi) as Hsplit.
  set (pre := firstn i (resource_entries ico)) in *.
  set (post := skipn (S i) (resource_entries ico)) in *.
  assert (length pre = i) as Hpre.
  { subst pre. rewrite length_firstn. apply Nat.min_l.
    apply Nat.lt_le_incl, nth_error_Some. congruence. }
  assert (out = (serialize_header (resource_header ico) ++
                 concat (map serialize_entry pre)) ++
                serialize_entry r ++ concat (map serialize_entry post)) as Hout'.
  { rewrite Hout, Hsplit, map_app, concat_app. cbn [map concat].
    rewrite <- app_assoc. reflexivity. }
  assert (length (serialize_header (resource_header ico) ++
                  concat (map serialize_entry pre)) = off) as Hoff.
  { rewrite length_app, length_serialized_entries, length_serialize_header, Hpre.
    reflexivity. }
  destruct (serialize_entry_fields r (concat (map serialize_entry post))
              (Hrange r (nth_error_In _ _ Hi)))
    as (G0 & G1 & G2 & G3 & G4 & G6 & G8 & G12).
  rewrite Hout'. rewrite <- Hoff.
  rewrite !u8_at_app, !u16_at_app, !u32_at_app.
  rewrite <- (Nat.add_0_r (length _)) at 1 2.
  rewrite u8_at_app.
  rewrite skipn_app, skipn_all2, Nat.add_0_r, Nat.sub_diag by lia.
  cbn [skipn app].
  rewrite firstn_app, firstn_all2 by (rewrite length_serialize_entry; reflexivity).
  rewrite length_serialize_entry. cbn [sizeof_entry Nat.sub firstn].
  rewrite app_nil_r.
  repeat split; assumption.
Qed.

Lemma get_header_layout_witness :
  length (get_header (loaded two_images)) = 34%nat.
Proof.
  assert (icon (mk_filesystem (fun _ => Some two_images) (fun _ => false)) "two.ico"
          = Returns (loaded two_images)) as H by (vm_compute; reflexivity).
  exact (proj1 (proj2 (proj2 (get_header_layout
                                (mk_filesystem (fun _ => Some two_images) (fun _ => false))
                                "two.ico" (loaded two_images) H)))).
Defined.

End ResourceHeader.

(* ------------------------------------------------------------------ *)
(** ** The single-image file of the unit test [get_success] *)

Section SingleImage.

Import icon.

(** The 22 bytes quoted by the spec and by the test's [expected_header]. *)
Definition image1_bytes : list byte :=
  [x00; x00; x01; x00; x01; x00; x20; x20; x00; x00; x01; x00;
   x20; x00; xa8; x10; x00; x00; x01; x00; x00; x00].

(** An ICO file that starts with those bytes and carries a payload of
    4264 bytes. *)
Definition image1_file : list byte := image1_bytes ++ repeat x00 4264.

Definition image1_fs : filesystem :=
  mk_filesystem (fun _ => Some image1_file) (fun _ => false).

(** C2 (the serialized header is two bytes short of what the unit test
    states): a single-image file that starts with the 22 bytes is accepted,
    but [get_header] gives 20 bytes -- the 6-byte header and one record of
    [sizeof(entry)] = 14 bytes, [entry] being [PACKED] -- and not the 22
    bytes that the test [get_success] expects of it. *)
Lemma image1_header_is_not_the_22_bytes :
  exists ico,
    icon image1_fs "image1.ico" = Returns ico /\
    length (get_header ico) = 20%nat /\
    get_header ico <> image1_bytes.
Proof.
  exists (loaded image1_file).
  split; [vm_compute; reflexivity|].
  split; [vm_compute; reflexivity|].
  vm_compute. discriminate.
Qed.

Lemma image1_loadable payload :
  (4264 <= length payload)%nat -> loadable (image1_bytes ++ payload).
Proof.
  intro H. unfold loadable, table_readable.
  change (u16_at (image1_bytes ++ payload) 4) with 1.
  change (directory (image1_bytes ++ payload))
    with [dir_entry (image1_bytes ++ payload) 0].
  change (payload_size [dir_entry (image1_bytes ++ payload) 0]) with 4264%nat.
  rewrite length_app. change (length image1_bytes) with 22%nat.
  repeat split; try reflexivity; try discriminate; try lia.
  constructor; [|constructor].
  split; [reflexivity|right; reflexivity].
Qed.

(** What the code does with such a file: a file that starts with the 22
    bytes and goes on with at least 4264 bytes of payload is accepted; its
    serialized resource header is the first 20 of those bytes, it has exactly
    one image blob, the first 4264 bytes of the payload, and exactly one
    resource entry, whose id is 1. *)
Theorem image1_round_trip fs file_path payload :
  file_at fs file_path = Some (image1_bytes ++ payload) ->
  (4264 <= length payload)%nat ->
  exists ico,
    icon fs file_path = Returns ico /\
    get_header ico = firstn 20 image1_bytes /\
    images ico = [firstn 4264 payload] /\
    length (firstn 4264 payload) = 4264%nat /\
    exists r, resource_entries ico = [r] /\ entry.icon_id r = 1.
Proof.
  intros Hf Hlen.
  exists (loaded (image1_bytes ++ payload)).
  split; [apply (icon_loads _ _ _ Hf), image1_loadable, Hlen|].
  split; [reflexivity|].
  split; [reflexivity|].
  split; [apply firstn_length_le; exact Hlen|].
  eexists. split; reflexivity.
Qed.

Lemma image1_round_trip_witness :
  exists ico,
    icon image1_fs "image1.ico" = Returns ico /\
    get_header ico = firstn 20 image1_bytes /\
    images ico = [firstn 4264 (repeat x00 4264)] /\
    length (firstn 4264 (repeat x00 4264)) = 4264%nat /\
    exists r, resource_entries ico = [r] /\ entry.icon_id r = 1.
Proof.
  apply (image1_round_trip image1_fs "image1.ico" (repeat x00 4264) eq_refl).
  rewrite repeat_length. apply Nat.le_refl.
Defined.

End SingleImage.

(* ------------------------------------------------------------------ *)
(** ** The bitmap loader and writer: the boolean result *)

Section BoolResult.

Import bitmap.

(** The two headers of a BMP file: 14 + 40 bytes. *)
Definition bmp_headers (offBits biWidth biHeight biBitCount biCompression : Z)
  : list byte :=
  [x42; x4d] ++ enc_u32 0 ++ enc_u16 0 ++ enc_u16 0 ++ enc_u32 offBits ++
  enc_u32 40 ++ enc_u32 biWidth ++ enc_u32 biHeight ++ enc_u16 1 ++
  enc_u16 biBitCount ++ enc_u32 biCompression ++ enc_u32 0 ++ enc_u32 0 ++
  enc_u32 0 ++ enc_u32 0 ++ enc_u32 0.

Definition one_file (data : list byte) : filesystem :=
  mk_filesystem (fun _ => Some data) (fun _ => true).

(** A bottom-up 2x2 24-bit bitmap: two rows of 6 pixel bytes and 2 bytes of
    padding each. *)
Definition bmp_2x2 : list byte :=
  bmp_headers 54 2 2 24 0 ++
  [x01; x02; x03; x04; x05; x06; xaa; xbb;
   x11; x12; x13; x14; x15; x16; xcc; xdd].

(** C9: neither [loadFromImage] nor [saveToIco] ever returns [false]: a
    call that returns, returns [true]. *)
Theorem bool_result_is_true self fs path :
  (forall self' b, loadFromImage self fs path = (self', Returns b) -> b = true) /\
  (forall fs' b, saveToIco self fs path = (fs', Returns b) -> b = true).
Proof.
  split.
  - intros self' b. unfold loadFromImage.
    destruct (file_at fs path); [|discriminate].
    destruct (istream_read _ _ _) as [[fh file]|]; [|discriminate].
    destruct (istream_read _ _ _) as [[ih file']|]; [|discriminate].
    destruct (negb _); [discriminate|]. destruct (negb _); [discriminate|].
    unfold load_pixels.
    destruct (row_sizes _) as [[[bpp padded] raw]| | |]; try discriminate.
    destruct (pixel_bytes _ _); try discriminate.
    destruct (_ >? _); [discriminate|]. destruct (_ >? _); [discriminate|].
    destruct (read_rows _ _ _ _ _ _ _ _ _) as [px [[]| | |]]; cbn [bind];
      intro H; try discriminate.
    injection H as _ <-. reflexivity.
  - intros fs' b. unfold saveToIco.
    destruct (_ || _); [discriminate|]. destruct (negb _); [discriminate|].
    destruct (ico_bytes self); intro H; try discriminate.
    injection H as _ <-. reflexivity.
Qed.

Lemma bool_result_is_true_witness :
  snd (loadFromImage empty (one_file bmp_2x2) "valid_24bit.bmp") = Returns true.
Proof.
  pose (r := loadFromImage empty (one_file bmp_2x2) "valid_24bit.bmp").
  pose (b := match snd r with Returns b => b | _ => false end).
  assert (r = (fst r, Returns b)) as E by (vm_compute; reflexivity).
  change (snd r = Returns true). rewrite E. cbn [snd].
  exact (f_equal Returns
           (proj1 (bool_result_is_true empty (one_file bmp_2x2) "valid_24bit.bmp")
              (fst r) b E)).
Defined.

End BoolResult.

(* ------------------------------------------------------------------ *)
(** ** The bitmap loader on short and on top-down files *)

Section LoaderRuns.

Import bitmap.

(** The headers of a 1x1 24-bit bitmap whose pixel data (one row of 3 + 1
    bytes at offset 54) is missing altogether. *)
Definition bmp_1x1_headers_only : list byte := bmp_headers 54 1 1 24 0.

(** [bmp_2x2] with its second row (the top row of the picture) cut after
    one pixel. *)
Definition bmp_2x2_cut : list byte :=
  bmp_headers 54 2 2 24 0 ++
  [x01; x02; x03; x04; x05; x06; xaa; xbb;
   x11; x12; x13].

(** C5 (the loader misses the check): the stream of [loadFromImage] never
    gets an exception mask and its state is never tested, so a file whose
    pixel data is short is accepted.  With no pixel data at all the 1x1
    bitmap is returned with the zero bytes [resize] put there; with a row cut
    short the rest of the row keeps the bytes of the row read before. *)
Theorem short_pixel_data_is_accepted :
  loadFromImage empty (one_file bmp_1x1_headers_only) "cut.bmp" =
    ({| width := 1; height := 1; bitDepth := 24; pixels := [x00; x00; x00] |},
     Returns true) /\
  loadFromImage empty (one_file bmp_2x2_cut) "cut.bmp" =
    ({| width := 2; height := 2; bitDepth := 24;
        pixels := [x11; x12; x13; x04; x05; x06;
                   x01; x02; x03; x04; x05; x06] |},
     Returns true).
Proof. split; vm_compute; reflexivity. Qed.

(** A top-down file ([biHeight] = -2) of 8x2 pixels at 4 bits per pixel:
    two rows of 4 bytes. *)
Definition bmp_top_down_4bpp : list byte :=
  bmp_headers 54 8 (-2) 4 0 ++ [x01; x23; x45; x67; x89; xab; xcd; xef].

(** A top-down 2x2 24-bit file: [bmp_2x2] with [biHeight] = -2. *)
Definition bmp_top_down_24bpp : list byte :=
  bmp_headers 54 2 (-2) 24 0 ++
  [x01; x02; x03; x04; x05; x06; xaa; xbb;
   x11; x12; x13; x14; x15; x16; xcc; xdd].

(** C4 (the loader misses the absolute value): [height] is assigned
    [biHeight] as it is.  A top-down file with less than 8 bits per pixel is
    accepted with a negative height and no pixels; a top-down 24-bit file
    makes [pixels.resize] throw, the negative product having been converted
    to [std::size_t]. *)
Theorem top_down_height_stays_negative :
  loadFromImage empty (one_file bmp_top_down_4bpp) "top_down.bmp" =
    ({| width := 8; height := -2; bitDepth := 4; pixels := [] |}, Returns true) /\
  loadFromImage empty (one_file bmp_top_down_24bpp) "top_down.bmp" =
    ({| width := 2; height := -2; bitDepth := 24; pixels := [] |},
     Throws length_error).
Proof. split; vm_compute; reflexivity. Qed.

End LoaderRuns.

(* ------------------------------------------------------------------ *)
(** ** The BMP-to-ICO writer ([saveToIco]) *)

Section IcoWriter.

Import bitmap.

Lemma int_result_ok z : INT_MIN <= z <= INT_MAX -> int_result z = Returns z.
Proof.
  intro H. unfold int_result, in_int.
  destruct (Z.leb_spec INT_MIN z), (Z.leb_spec z INT_MAX); try lia. reflexivity.
Qed.

Lemma int_result_inv z v :
  int_result z = Returns v -> v = z /\ INT_MIN <= z <= INT_MAX.
Proof.
  unfold int_result, in_int.
  destruct (Z.leb_spec INT_MIN z), (Z.leb_spec z INT_MAX); cbn [andb];
    intro Hr; try discriminate.
  injection Hr as <-. lia.
Qed.

Lemma pixel_at_ok px i :
  0 <= i < len px -> pixel_at px i = Returns (nth (Z.to_nat i) px x00).
Proof.
  intro H. unfold pixel_at, len in *.
  destruct (Z.leb_spec 0 i); [|lia].
  rewrite (nth_error_nth' px x00) by lia. reflexivity.
Qed.

(** One pixel of the colour plane: the three bytes of pixel number [i] of
    the buffer, and alpha 255. *)
Definition bgra (px : list byte) (i : Z) : list byte :=
  [nth (Z.to_nat (i * 3 + 0)) px x00; nth (Z.to_nat (i * 3 + 1)) px x00;
   nth (Z.to_nat (i * 3 + 2)) px x00; xff].

(** Row [y] of the buffer, widened. *)
Definition bgra_row (w y : Z) (px : list byte) : list byte :=
  flat_map (fun x => bgra px (y * w + Z.of_nat x)) (seq 0 (Z.to_nat w)).

(** The rows from the last one up to row 0. *)
Definition colour_plane (w h : Z) (px : list byte) : list byte :=
  flat_map (fun y => bgra_row w (Z.of_nat y) px) (rev (seq 0 (Z.to_nat h))).

Lemma flat_map_shift {A : Type} (f : nat -> list A) n :
  flat_map f (seq 1 n) = flat_map (fun k => f (S k)) (seq 0 n).
Proof.
  rewrite <- seq_shift, !flat_map_concat_map, map_map. reflexivity.
Qed.

Lemma put_row_run px y w : forall n x,
  0 <= x -> 0 <= y -> 0 <= w ->
  (y * w + x + Z.of_nat n) * 3 <= len px ->
  (y * w + x + Z.of_nat n) * 3 <= INT_MAX ->
  put_row n x y w px =
  Returns (flat_map (fun k => bgra px (y * w + x + Z.of_nat k)) (seq 0 n)).
Proof.
  induction n as [|n IH]; intros x Hx Hy Hw Hlen Hmax; [reflexivity|].
  assert (0 <= y * w) by nia.
  cbn [put_row]. unfold int_mul, int_add, INT_MAX in *.
  rewrite (int_result_ok (y * w)) by (unfold INT_MIN, INT_MAX; lia). cbn [bind].
  rewrite (int_result_ok (y * w + x)) by (unfold INT_MIN, INT_MAX; lia). cbn [bind].
  rewrite (int_result_ok ((y * w + x) * 3)) by (unfold INT_MIN, INT_MAX; lia).
  cbn [bind].
  rewrite (int_result_ok ((y * w + x) * 3 + 0)) by (unfold INT_MIN, INT_MAX; lia).
  cbn [bind]. rewrite pixel_at_ok by lia. cbn [bind].
  rewrite (int_result_ok ((y * w + x) * 3 + 1)) by (unfold INT_MIN, INT_MAX; lia).
  cbn [bind]. rewrite pixel_at_ok by lia. cbn [bind].
  rewrite (int_result_ok ((y * w + x) * 3 + 2)) by (unfold INT_MIN, INT_MAX; lia).
  cbn [bind]. rewrite pixel_at_ok by lia. cbn [bind].
  rewrite IH by lia. cbn [bind].
  cbn [seq flat_map]. rewrite flat_map_shift.
  change (Z.of_nat 0) with 0. rewrite (Z.add_0_r (y * w + x)).
  unfold bgra at 2. cbn [app].
  apply (f_equal Returns). do 4 apply (f_equal (cons _)).
  apply flat_map_ext. intro k. f_equal. lia.
Qed.

Lemma put_rows_run px w : forall n,
  0 <= w ->
  Z.of_nat n * w * 3 <= len px ->
  Z.of_nat n * w * 3 <= INT_MAX ->
  put_rows n w px =
  Returns (flat_map (fun y => bgra_row w (Z.of_nat y) px) (rev (seq 0 n))).
Proof.
  induction n as [|n IH]; intros Hw Hlen Hmax; [reflexivity|].
  cbn [put_rows].
  rewrite put_row_run by (rewrite ?Z2Nat.id; lia). cbn [bind].
  rewrite IH by lia. cbn [bind].
  rewrite seq_S, rev_app_distr. cbn [rev app flat_map Nat.add].
  apply (f_equal Returns). apply (f_equal (fun l => l ++ _)).
  unfold bgra_row. apply flat_map_ext. intro k. f_equal. lia.
Qed.

Lemma length_bgra_row w y px : length (bgra_row w y px) = (Z.to_nat w * 4)%nat.
Proof.
  unfold bgra_row. rewrite (flat_map_constant_length (c := 4%nat)) by reflexivity.
  rewrite length_seq. reflexivity.
Qed.

Lemma length_colour_plane w h px :
  length (colour_plane w h px) = (Z.to_nat h * (Z.to_nat w * 4))%nat.
Proof.
  unfold colour_plane.
  rewrite (flat_map_constant_length (c := (Z.to_nat w * 4)%nat))
    by (intros; apply length_bgra_row).
  rewrite length_rev, length_seq. reflexivity.
Qed.

(** The size of the AND mask: one bit per pixel, rows padded to 4 bytes. *)
Definition mask_size (w h : Z) : Z := (w + 31) / 32 * 4 * h.

(** The 62 bytes in front of the colour plane: ICONDIR, ICONDIRENTRY and
    the info header of a [w] x [h] image. *)
Definition ico_headers (w h : Z) : list byte :=
  (enc_u16 0 ++ enc_u16 1 ++ enc_u16 1) ++
  (enc_u8 (to_u8 w) ++ enc_u8 (to_u8 h) ++ enc_u8 0 ++ enc_u8 0 ++
   enc_u16 1 ++ enc_u16 32 ++
   enc_u32 (to_u32 (40 + (w * h * 4 + mask_size w h))) ++ enc_u32 22) ++
  bytes_of_BitmapInfoHeader
    {| biSize := 40; biWidth := w; biHeight := h * 2; biPlanes := 1;
       biBitCount := 32; biCompression := 0; biSizeImage := w * h * 4;
       biXPelsPerMeter := 0; biYPelsPerMeter := 0;
       biClrUsed := 0; biClrImportant := 0 |}.

Lemma length_ico_headers w h : length (ico_headers w h) = 62%nat.
Proof. reflexivity. Qed.

Lemma size_facts w h :
  0 < w -> 0 < h -> w * h * 4 <= INT_MAX ->
  w <= w * h /\ h <= w * h /\
  Z.quot (w + 31) 32 = (w + 31) / 32 /\
  0 <= (w + 31) / 32 <= w /\
  0 <= mask_size w h <= w * h * 4.
Proof.
  unfold INT_MAX, mask_size. intros Hw Hh Hmax.
  assert (0 <= (w + 31) / 32 <= w) as Hq
    by (split; [apply Z.div_pos; lia | apply Z.div_le_upper_bound; lia]).
  repeat split; try nia.
  apply Z.quot_div_nonneg; lia.
Qed.

(** When the sizes fit in an [int], the writer's arithmetic goes through
    and leaves the two loops. *)
Lemma ico_bytes_unfold self :
  0 < width self -> 0 < height self ->
  width self * height self * 4 <= INT_MAX ->
  ico_bytes self =
  (colour <- put_rows (Z.to_nat (height self)) (width self) (pixels self);;
   Returns (ico_headers (width self) (height self) ++ colour ++
            repeat x00 (Z.to_nat (mask_size (width self) (height self))))).
Proof.
  intros Hw Hh Hmax.
  destruct (size_facts _ _ Hw Hh Hmax) as (Hwh & Hhw & Hquot & Hq & Hm).
  unfold mask_size, INT_MAX in *.
  unfold ico_bytes, int_mul, int_add.
  rewrite (int_result_ok (width self * height self))
    by (unfold INT_MIN, INT_MAX; lia). cbn [bind].
  rewrite (int_result_ok (width self * height self * 4))
    by (unfold INT_MIN, INT_MAX; lia). cbn [bind].
  rewrite (int_result_ok (width self + 31))
    by (unfold INT_MIN, INT_MAX; lia). cbn [bind].
  rewrite Hquot.
  rewrite (int_result_ok ((width self + 31) / 32 * 4))
    by (unfold INT_MIN, INT_MAX; lia). cbn [bind].
  rewrite (int_result_ok ((width self + 31) / 32 * 4 * height self))
    by (unfold INT_MIN, INT_MAX; lia). cbn [bind].
  rewrite (int_result_ok (height self * 2))
    by (unfold INT_MIN, INT_MAX; lia). cbn [bind].
  destruct (put_rows _ _ _) as [colour| | |]; cbn [bind]; try reflexivity.
  set (m := (width self + 31) / 32 * 4 * height self) in *.
  set (c := width self * height self * 4) in *.
  unfold to_size_t, to_u32, SIZE_MOD.
  change (Z.of_nat sizeof_BitmapInfoHeader) with 40.
  change ((sizeof_ICONDIR + sizeof_ICONDIRENTRY) mod 4294967296) with 22.
  rewrite (Z.mod_small c) by lia. rewrite (Z.mod_small m) by lia.
  rewrite (Z.mod_small (c + m)) by lia.
  rewrite (Z.mod_small (40 + (c + m)) (2 ^ 64)) by lia.
  rewrite (Z.mod_small c) by lia.
  destruct (Z.gtb_spec m max_size); [unfold max_size in *; lia|].
  unfold ico_headers, mask_size, to_u32. fold m c.
  rewrite <- !app_assoc. reflexivity.
Qed.

(** Reading back a field from the bytes it was written to. *)
Lemma u8_at_written bs k v :
  firstn 1 (skipn k bs) = enc_u8 v -> u8_at bs k = v mod 256.
Proof.
  intro H. rewrite <- (Nat.add_0_r k), <- u8_at_skipn, <- (u8_at_firstn 1) by lia.
  rewrite H, <- (app_nil_r (enc_u8 v)). apply u8_at_enc_u8.
Qed.

Lemma u16_at_written bs k v :
  firstn 2 (skipn k bs) = enc_u16 v -> u16_at bs k = v mod 65536.
Proof.
  intro H. rewrite <- (Nat.add_0_r k), <- u16_at_skipn, <- (u16_at_firstn 2) by lia.
  rewrite H, <- (app_nil_r (enc_u16 v)). apply u16_at_enc_u16.
Qed.

Lemma u32_at_written bs k v :
  firstn 4 (skipn k bs) = enc_u32 v -> u32_at bs k = v mod 4294967296.
Proof.
  intro H. rewrite <- (Nat.add_0_r k), <- u32_at_skipn, <- (u32_at_firstn 4) by lia.
  rewrite H, <- (app_nil_r (enc_u32 v)). apply u32_at_enc_u32.
Qed.

Lemma i32_at_written bs k v :
  firstn 4 (skipn k bs) = enc_u32 v -> INT_MIN <= v <= INT_MAX -> i32_at bs k = v.
Proof.
  intros H Hv. unfold i32_at. rewrite (u32_at_written bs k v H).
  unfold INT_MIN, INT_MAX in Hv.
  destruct (Z.ltb_spec (v mod 4294967296) 2147483648);
    Z.div_mod_to_equations; lia.
Qed.

Lemma ico_headers_fields w h rest :
  0 < w -> 0 < h -> w * h * 4 <= INT_MAX ->
  let out := ico_headers w h ++ rest in
  (u16_at out 0 = 0 /\ u16_at out 2 = 1 /\ u16_at out 4 = 1) /\
  (u8_at out 6 = w mod 256 /\ u8_at out 7 = h mod 256 /\
   u8_at out 8 = 0 /\ u8_at out 9 = 0 /\
   u16_at out 10 = 1 /\ u16_at out 12 = 32 /\
   u32_at out 14 = (40 + (w * h * 4 + mask_size w h)) mod 4294967296 /\
   u32_at out 18 = 22) /\
  (u32_at out 22 = 40 /\ i32_at out 26 = w /\ i32_at out 30 = h * 2 /\
   u16_at out 34 = 1 /\ u16_at out 36 = 32 /\ u32_at out 38 = 0 /\
   u32_at out 42 = w * h * 4).
Proof.
  intros Hw Hh Hmax out.
  destruct (size_facts _ _ Hw Hh Hmax) as (Hwh & Hhw & _ & _ & Hm).
  unfold INT_MAX in Hmax.
  repeat match goal with |- _ /\ _ => split end.
  - apply (u16_at_written out 0 0). reflexivity.
  - apply (u16_at_written out 2 1). reflexivity.
  - apply (u16_at_written out 4 1). reflexivity.
  - rewrite (u8_at_written out 6 (to_u8 w)) by reflexivity.
    unfold to_u8. apply Z.mod_mod. lia.
  - rewrite (u8_at_written out 7 (to_u8 h)) by reflexivity.
    unfold to_u8. apply Z.mod_mod. lia.
  - apply (u8_at_written out 8 0). reflexivity.
  - apply (u8_at_written out 9 0). reflexivity.
  - apply (u16_at_written out 10 1). reflexivity.
  - apply (u16_at_written out 12 32). reflexivity.
  - rewrite (u32_at_written out 14 (to_u32 (40 + (w * h * 4 + mask_size w h))))
      by reflexivity.
    unfold to_u32. apply Z.mod_mod. lia.
  - apply (u32_at_written out 18 22). reflexivity.
  - apply (u32_at_written out 22 40). reflexivity.
  - apply (i32_at_written out 26 w); [reflexivity|unfold INT_MIN, INT_MAX; lia].
  - apply (i32_at_written out 30 (h * 2)); [reflexivity|unfold INT_MIN, INT_MAX; lia].
  - apply (u16_at_written out 34 1). reflexivity.
  - apply (u16_at_written out 36 32). reflexivity.
  - apply (u32_at_written out 38 0). reflexivity.
  - rewrite (u32_at_written out 42 (w * h * 4)) by reflexivity.
    apply Z.mod_small. lia.
Qed.

Definition unsupported_bitmap_format : exn :=
  runtime_error "Bitmap must be valid and 24-bit to save as ICO.".

(** The writer's run on a bitmap that passes the precondition, whose sizes
    fit in an [int] and whose buffer holds its pixels. *)
Lemma saveToIco_run self fs path :
  0 < width self -> 0 < height self -> bitDepth self = 24 ->
  width self * height self * 4 <= INT_MAX ->
  width self * height self * 3 <= len (pixels self) ->
  writable fs path = true ->
  saveToIco self fs path =
  (fs_write fs path
     (ico_headers (width self) (height self) ++
      colour_plane (width self) (height self) (pixels self) ++
      repeat x00 (Z.to_nat (mask_size (width self) (height self)))),
   Returns true).
Proof.
  intros Hw Hh Hd Hmax Hpx Hwr. unfold saveToIco.
  destruct (Z.leb_spec (width self) 0); [lia|].
  destruct (Z.leb_spec (height self) 0); [lia|].
  rewrite Hd, Hwr. cbn [orb negb Z.eqb Pos.eqb].
  rewrite ico_bytes_unfold by assumption.
  rewrite put_rows_run by (unfold INT_MAX in *; rewrite ?Z2Nat.id; lia).
  reflexivity.
Qed.

(** C7, amended: for a bitmap with [width > 0], [height > 0] and
    [bitDepth = 24] whose sizes are representable (width*height*4 fits in an
    [int], and 40 + width*height*4 + mask size fits in the 32-bit size field)
    and whose buffer holds its width*height*3 pixel bytes, [saveToIco] writes
    a file with: an ICONDIR of type 1 and count 1; one entry with width and
    height modulo 256, planes 1, bit count 32 and image size
    40 + width*height*4 + ((width+31)/32)*4*height; an info header with
    [biHeight] = 2*height and [biBitCount] = 32; the colour plane, rows from
    the last to the first, every pixel as B, G, R, 255; and the AND mask,
    ((width+31)/32)*4*height zero bytes.  A bitmap that violates the
    precondition makes the call throw before the file is touched. *)
Theorem saveToIco_layout self fs path :
  (0 < width self -> 0 < height self -> bitDepth self = 24 ->
   width self * height self * 4 <= INT_MAX ->
   40 + (width self * height self * 4 + (width self + 31) / 32 * 4 * height self)
     < 4294967296 ->
   width self * height self * 3 <= len (pixels self) ->
   writable fs path = true ->
   exists out,
     saveToIco self fs path = (fs_write fs path out, Returns true) /\
     let w := width self in
     let h := height self in
     len out = 62 + w * h * 4 + (w + 31) / 32 * 4 * h /\
     (u16_at out 0 = 0 /\ u16_at out 2 = 1 /\ u16_at out 4 = 1) /\
     (u8_at out 6 = w mod 256 /\ u8_at out 7 = h mod 256 /\
      u8_at out 8 = 0 /\ u8_at out 9 = 0 /\
      u16_at out 10 = 1 /\ u16_at out 12 = 32 /\
      u32_at out 14 = 40 + (w * h * 4 + (w + 31) / 32 * 4 * h) /\
      u32_at out 18 = 22) /\
     (u32_at out 22 = 40 /\ i32_at out 26 = w /\ i32_at out 30 = h * 2 /\
      u16_at out 34 = 1 /\ u16_at out 36 = 32 /\ u32_at out 38 = 0 /\
      u32_at out 42 = w * h * 4) /\
     firstn (Z.to_nat (w * h * 4)) (skipn 62 out) = colour_plane w h (pixels self) /\
     skipn (62 + Z.to_nat (w * h * 4)) out =
       repeat x00 (Z.to_nat ((w + 31) / 32 * 4 * h))) /\
  (width self <= 0 \/ height self <= 0 \/ bitDepth self <> 24 ->
   saveToIco self fs path = (fs, Throws unsupported_bitmap_format)).
Proof.
  split.
  - intros Hw Hh Hd Hmax Hfit Hpx Hwr.
    eexists. split; [apply saveToIco_run; assumption|].
    cbv zeta. fold (mask_size (width self) (height self)) in *.
    destruct (size_facts _ _ Hw Hh Hmax) as (Hwh & Hhw & _ & _ & Hm).
    assert (length (colour_plane (width self) (height self) (pixels self)) =
            Z.to_nat (width self * height self * 4)) as Hcol.
    { rewrite length_colour_plane. unfold INT_MAX in *. nia. }
    destruct (ico_headers_fields (width self) (height self)
                (colour_plane (width self) (height self) (pixels self) ++
                 repeat x00 (Z.to_nat (mask_size (width self) (height self))))
                Hw Hh Hmax) as (F1 & F2 & F3).
    cbv zeta in F1, F2, F3.
    split; [|split; [exact F1|split; [|split; [exact F3|split]]]].
    + unfold len. rewrite !length_app, length_ico_headers, Hcol, repeat_length.
      unfold INT_MAX in *. lia.
    + destruct F2 as (G6 & G7 & G8 & G9 & G10 & G12 & G14 & G18).
      rewrite Z.mod_small in G14 by (unfold INT_MAX in *; lia).
      repeat match goal with |- _ /\ _ => split end; assumption.
    + rewrite skipn_app, length_ico_headers.
      change (skipn 62 (ico_headers _ _)) with (@nil byte).
      cbn [Nat.sub skipn app].
      rewrite firstn_app, <- Hcol, Nat.sub_diag, firstn_all. cbn [firstn].
      apply app_nil_r.
    + rewrite <- Hcol, <- length_ico_headers with (w := width self) (h := height self).
      rewrite app_assoc, <- length_app, skipn_app, skipn_all, Nat.sub_diag.
      reflexivity.
  - intro H. unfold saveToIco.
    destruct (Z.leb_spec (width self) 0); [reflexivity|].
    destruct (Z.leb_spec (height self) 0); [reflexivity|].
    destruct (Z.eqb_spec (bitDepth self) 24); [lia|reflexivity].
Qed.

(** A 2x2 bitmap as [loadFromImage] leaves it for [bmp_2x2]. *)
Definition bitmap_2x2 : t :=
  {| width := 2; height := 2; bitDepth := 24;
     pixels := [x11; x12; x13; x14; x15; x16; x01; x02; x03; x04; x05; x06] |}.

Lemma saveToIco_layout_witness :
  exists out,
    saveToIco bitmap_2x2 (one_file []) "out.ico"
      = (fs_write (one_file []) "out.ico" out, Returns true) /\
    len out = 86 /\
    firstn 16 (skipn 62 out) =
      [x01; x02; x03; xff; x04; x05; x06; xff;
       x11; x12; x13; xff; x14; x15; x16; xff].
Proof.
  destruct (proj1 (saveToIco_layout bitmap_2x2 (one_file []) "out.ico"))
    as (out & Hrun & Hlen & _ & _ & _ & Hcol & _).
  - reflexivity.
  - reflexivity.
  - reflexivity.
  - discriminate.
  - reflexivity.
  - discriminate.
  - reflexivity.
  - exists out. split; [exact Hrun|]. split; [exact Hlen|exact Hcol].
Defined.

(** A bitmap one pixel wide and 536870911 pixels high: every size still
    fits in an [int], but header, colour plane and mask add up to
    2^32 + 32 bytes. *)
Definition tall_bitmap : t :=
  {| width := 1; height := 536870911; bitDepth := 24;
     pixels := repeat x00 (Z.to_nat 1610612733) |}.

(** C7 as stated fails: for the tall bitmap the entry's 32-bit size field
    holds 32, not the 4294967328 bytes of the image written after it. *)
Lemma tall_bitmap_size_field_wraps :
  exists out,
    saveToIco tall_bitmap (one_file []) "tall.ico"
      = (fs_write (one_file []) "tall.ico" out, Returns true) /\
    u32_at out 14 = 32 /\
    40 + (width tall_bitmap * height tall_bitmap * 4 +
          (width tall_bitmap + 31) / 32 * 4 * height tall_bitmap) = 4294967328.
Proof.
  assert (0 < width tall_bitmap) as Hw by reflexivity.
  assert (0 < height tall_bitmap) as Hh by reflexivity.
  assert (width tall_bitmap * height tall_bitmap * 4 <= INT_MAX) as Hmax
    by discriminate.
  assert (width tall_bitmap * height tall_bitmap * 3 <= len (pixels tall_bitmap))
    as Hpx.
  { unfold len. change (pixels tall_bitmap) with (repeat x00 (Z.to_nat 1610612733)).
    rewrite repeat_length, Z2Nat.id by lia. discriminate. }
  pose proof (saveToIco_run tall_bitmap (one_file []) "tall.ico"
                Hw Hh eq_refl Hmax Hpx eq_refl) as Hrun.
  exists (ico_headers (width tall_bitmap) (height tall_bitmap) ++
          colour_plane (width tall_bitmap) (height tall_bitmap) (pixels tall_bitmap) ++
          repeat x00 (Z.to_nat (mask_size (width tall_bitmap) (height tall_bitmap)))).
  split; [exact Hrun|split].
  - destruct (ico_headers_fields (width tall_bitmap) (height tall_bitmap)
                (colour_plane (width tall_bitmap) (height tall_bitmap)
                   (pixels tall_bitmap) ++
                 repeat x00 (Z.to_nat (mask_size (width tall_bitmap)
                                         (height tall_bitmap))))
                Hw Hh Hmax) as (_ & (_ & _ & _ & _ & _ & _ & G14 & _) & _).
    exact G14.
  - reflexivity.
Qed.

(** A bitmap of 32768 x 32768 pixels: [width * height * 4] is 2^32 and
    does not fit in an [int]. *)
Definition wide_bitmap : t :=
  {| width := 32768; height := 32768; bitDepth := 24;
     pixels := repeat x00 (Z.to_nat 3221225472) |}.

(** Past the range of [int] the writer's size computation is undefined. *)
Lemma wide_bitmap_overflows :
  snd (saveToIco wide_bitmap (one_file []) "wide.ico") = Undefined.
Proof.
  unfold saveToIco.
  change (width wide_bitmap) with 32768. change (height wide_bitmap) with 32768.
  change (bitDepth wide_bitmap) with 24.
  cbn [Z.leb Z.compare Pos.compare Pos.compare_cont orb negb Z.eqb Pos.eqb
       writable one_file].
  unfold ico_bytes.
  change (width wide_bitmap) with 32768. change (height wide_bitmap) with 32768.
  reflexivity.
Qed.

End IcoWriter.

(* ------------------------------------------------------------------ *)
(** ** The written file, read back ([from_bmp]) *)

Section RoundTrip.

Import bitmap.

Ltac invert_bind H :=
  match type of H with
  | bind ?m _ = Returns _ =>
      let E := fresh "E" in
      destruct m eqn:E; try discriminate H; cbn [bind] in H
  end.

Lemma put_row_returns px y w : forall n x row,
  put_row n x y w px = Returns row -> length row = (n * 4)%nat.
Proof.
  induction n as [|n IH]; intros x row H.
  - injection H as <-. reflexivity.
  - cbn [put_row] in H. repeat invert_bind H.
    injection H as <-. cbn [length]. erewrite IH by eassumption. lia.
Qed.

Lemma put_rows_returns px w : forall n colour,
  put_rows n w px = Returns colour -> length colour = (n * (Z.to_nat w * 4))%nat.
Proof.
  induction n as [|n IH]; intros colour H.
  - injection H as <-. reflexivity.
  - cbn [put_rows] in H. repeat invert_bind H.
    injection H as <-. rewrite length_app.
    rewrite (put_row_returns _ _ _ _ _ _ E), (IH _ eq_refl). lia.
Qed.

(** A run of the writer that returns: the precondition held, the sizes fit
    in an [int], and the file is headers, colour plane and mask. *)
Lemma saveToIco_returns self fs path fs' b :
  saveToIco self fs path = (fs', Returns b) ->
  0 < width self /\ 0 < height self /\
  width self * height self * 4 <= INT_MAX /\
  exists colour,
    length colour = (Z.to_nat (height self) * (Z.to_nat (width self) * 4))%nat /\
    fs' = fs_write fs path
            (ico_headers (width self) (height self) ++ colour ++
             repeat x00 (Z.to_nat (mask_size (width self) (height self)))).
Proof.
  unfold saveToIco. intro H.
  destruct (Z.leb_spec (width self) 0) as [|Hw]; [discriminate|].
  destruct (Z.leb_spec (height self) 0) as [|Hh]; [discriminate|].
  cbn [orb] in H.
  destruct (negb (bitDepth self =? 24)); [discriminate|].
  destruct (negb (writable fs path)); [discriminate|].
  destruct (ico_bytes self) as [out| | |] eqn:Hout; try discriminate.
  injection H as <- _.
  assert (width self * height self * 4 <= INT_MAX) as Hmax.
  { unfold ico_bytes, int_mul in Hout. do 2 invert_bind Hout.
    apply int_result_inv in E, E0. destruct E as [-> _], E0 as [_ ?]. lia. }
  rewrite (ico_bytes_unfold _ Hw Hh Hmax) in Hout.
  invert_bind Hout. injection Hout as <-.
  repeat split; try assumption.
  eexists. split; [eapply put_rows_returns; eassumption|reflexivity].
Qed.

Lemma file_at_fs_write fs path data : file_at (fs_write fs path data) path = Some data.
Proof. cbn. rewrite String.eqb_refl. reflexivity. Qed.

(** The reader on a file made of the writer's 62 header bytes and [rest]. *)
Lemma icon_reads_written w h rest fs path :
  0 < w -> 0 < h -> w * h * 4 <= INT_MAX ->
  let out := ico_headers w h ++ rest in
  file_at fs path = Some out ->
  (Z.to_nat (u32_at out 14) <= 40 + length rest)%nat ->
  icon.icon fs path = Returns (loaded out) /\
  icon.images (loaded out) = [firstn (Z.to_nat (u32_at out 14)) (skipn 22 out)].
Proof.
  intros Hw Hh Hmax out Hf Hlen.
  destruct (ico_headers_fields w h rest Hw Hh Hmax)
    as ((F0 & F2 & F4) & (_ & _ & _ & F9 & F10 & _ & _ & _) & _).
  fold out in F0, F2, F4, F9, F10.
  assert (length out = (62 + length rest)%nat) as HL
    by (unfold out; rewrite length_app, length_ico_headers; reflexivity).
  assert (directory out = [dir_entry out 0]) as Hdir
    by (unfold directory; rewrite F4; reflexivity).
  assert (icon.icon_entry.image_size (dir_entry out 0) = u32_at out 14) as Hsize
    by (unfold dir_entry, icon.icon_entry_of_bytes;
        cbn [icon.icon_entry.image_size]; apply u32_at_skipn).
  assert (loadable out) as Hl.
  { unfold loadable, table_readable. rewrite Hdir, F0, F2, F4.
    repeat match goal with |- _ /\ _ => split end;
      try reflexivity; try discriminate; try (cbn; lia).
    - constructor; [|constructor]. unfold entry_ok, dir_entry, icon.icon_entry_of_bytes.
      cbn [icon.icon_entry.reserved icon.icon_entry.planes].
      rewrite u8_at_skipn, u16_at_skipn. cbn [Nat.add Nat.mul].
      rewrite F9, F10. auto.
    - unfold payload_size, blob_size, list_sum. cbn [map fold_right].
      rewrite Hsize, HL. change (Z.to_nat 1) with 1%nat. lia. }
  split; [apply (icon_loads _ _ _ Hf Hl)|].
  cbn [icon.images loaded]. rewrite Hdir, F4. cbn [blobs_from].
  unfold blob_size. rewrite Hsize. reflexivity.
Qed.



End RoundTrip.

(* ------------------------------------------------------------------ *)
(** ** The bitmap loader: the pixel buffer *)

Section LoaderBuffer.

Import bitmap.

Lemma quiet_open data : ifstream_open data = quiet data 0 false.
Proof. reflexivity. Qed.

Lemma seekg_quiet data k failed off :
  seekg (quiet data k failed) off =
  quiet data (if failed then k else Z.to_nat off) failed.
Proof. unfold seekg, quiet. cbn [failbit]. destruct failed; reflexivity. Qed.

(** The row loop never changes the size of the buffer. *)
Lemma read_rows_length : forall n y h topDown padded raw data k failed row px px' r,
  read_rows n y h topDown padded raw (quiet data k failed) row px = (px', r) ->
  length px' = length px.
Proof.
  induction n as [|n IH]; intros y h topDown padded raw data k failed row px px' r H.
  - injection H as <- _. reflexivity.
  - cbn [read_rows] in H.
    destruct (read_quiet data k failed row (Z.to_nat padded))
      as (row' & k' & failed' & Hread & _).
    rewrite Hread in H.
    destruct (_ && _) eqn:Hchk; [|injection H as <- _; reflexivity].
    apply andb_prop in Hchk. destruct Hchk as [Hchk Hend].
    apply andb_prop in Hchk. destruct Hchk as [Hraw Hdst].
    apply IH in H. rewrite H.
    unfold len in *.
    apply Z.leb_le in Hraw, Hend. apply Z.ltb_lt in Hdst.
    assert (0 <= raw \/ raw < 0) as [Hr|Hr] by lia.
    + apply length_write_at. rewrite length_firstn.
      unfold SIZE_MOD in *.
      pose proof (Z.mod_pos_bound (to_size_t (if topDown then y else h - 1 - y) * raw)
                    (2 ^ 64) ltac:(lia)).
      lia.
    + replace (Z.to_nat raw) with 0%nat by lia. cbn [firstn].
      apply length_write_at. cbn [length].
      pose proof (Z.mod_pos_bound (to_size_t (if topDown then y else h - 1 - y) * raw)
                    SIZE_MOD ltac:(unfold SIZE_MOD; lia)).
      lia.
Qed.

(** The buffer of a bitmap that [loadFromImage] returned holds
    [width * height * (bitDepth / 8)] bytes, the product taken as the code
    takes it. *)
Lemma loadFromImage_buffer_size self fs path self' b :
  loadFromImage self fs path = (self', Returns b) ->
  INT_MIN <= width self' * height self' <= INT_MAX /\
  len (pixels self') =
    (to_size_t (width self' * height self') * to_size_t (Z.quot (bitDepth self') 8))
      mod SIZE_MOD.
Proof.
  unfold loadFromImage. intro H.
  destruct (file_at fs path) as [data|]; [|discriminate].
  rewrite quiet_open in H.
  destruct (read_quiet data 0 false (repeat x00 sizeof_BitmapFileHeader)
              sizeof_BitmapFileHeader) as (fh & k1 & f1 & R1 & _).
  rewrite R1 in H.
  destruct (read_quiet data k1 f1 (repeat x00 sizeof_BitmapInfoHeader)
              sizeof_BitmapInfoHeader) as (ih & k2 & f2 & R2 & _).
  rewrite R2 in H.
  destruct (negb _); [discriminate|]. destruct (negb _); [discriminate|].
  unfold load_pixels, row_sizes, pixel_bytes, int_mul, int_add in H.
  cbn [width height bitDepth pixels] in H.
  repeat match type of H with
         | context [bind (int_result ?z) _] =>
             let E := fresh "E" in
             destruct (int_result z) eqn:E; cbn [bind] in H; try discriminate H
         end.
  apply int_result_inv in E2. destruct E2 as [-> Hwh].
  set (n := (to_size_t _ * to_size_t _) mod SIZE_MOD) in H.
  destruct (n >? max_size); [discriminate|].
  rewrite seekg_quiet in H. cbv zeta in H.
  destruct (to_size_t a1 >? max_size); [discriminate|].
  cbn [width height bitDepth pixels] in H.
  destruct (read_rows _ _ _ _ _ _ _ _ _) as [px r] eqn:Hrows.
  apply read_rows_length in Hrows.
  destruct r; cbn [bind] in H; try discriminate.
  injection H as <- _. cbn [width height bitDepth pixels].
  split; [exact Hwh|].
  unfold len. rewrite Hrows, length_resize.
  rewrite Z2Nat.id; [reflexivity|].
  apply Z.mod_pos_bound. unfold SIZE_MOD. lia.
Qed.

(** For a bitmap that passes the writer's precondition this is the
    buffer the writer indexes: 3 bytes for each of the [width * height]
    pixels. *)
Lemma loaded_bitmap_holds_its_pixels self fs path self' b :
  loadFromImage self fs path = (self', Returns b) ->
  0 < width self' -> 0 < height self' -> bitDepth self' = 24 ->
  len (pixels self') = width self' * height self' * 3.
Proof.
  intros H Hw Hh Hd.
  destruct (loadFromImage_buffer_size _ _ _ _ _ H) as [Hwh ->].
  rewrite Hd. change (to_size_t (24 ÷ 8)) with 3.
  unfold to_size_t, SIZE_MOD, INT_MIN, INT_MAX in *.
  rewrite (Z.mod_small (width self' * height self')) by nia.
  apply Z.mod_small. nia.
Qed.

Lemma read_quiet_full data k buf n :
  (n <= length data - k)%nat -> length buf = n ->
  istream_read (quiet data k false) buf n =
  Some (firstn n (skipn k data), quiet data (k + n) false).
Proof.
  intros Hn Hbuf. unfold istream_read, quiet.
  cbn [failbit contents gpos exceptions_mask].
  rewrite length_skipn. destruct (Nat.leb_spec n (length data - k)); [|lia].
  rewrite (skipn_all2 buf) by lia. rewrite app_nil_r. reflexivity.
Qed.

(** Row [j] of the file, counted from the start of the pixel data, cut to
    its pixels. *)
Definition file_row (data : list byte) (off P R j : nat) : list byte :=
  firstn R (skipn (off + j * P) data).

Lemma length_file_row data off P R j :
  (R <= P)%nat -> (off + (j + 1) * P <= length data)%nat ->
  length (file_row data off P R j) = R.
Proof.
  intros HR Hlen. unfold file_row. rewrite length_firstn, length_skipn. nia.
Qed.

(** The row loop on a bottom-up file whose rows are all there: [n] rows
    from file row [y] on land in the buffer rows [h - y - n .. h - y - 1],
    last file row first; the rest of the buffer is kept. *)
Lemma read_rows_bottom_up data off P R h : forall n y row px,
  (y + n = h)%nat -> (0 < R)%nat -> (R <= P)%nat ->
  Z.of_nat h * Z.of_nat R < SIZE_MOD ->
  (off + h * P <= length data)%nat ->
  length row = P -> length px = (h * R)%nat ->
  read_rows n (Z.of_nat y) (Z.of_nat h) false (Z.of_nat P) (Z.of_nat R)
    (quiet data (off + y * P) false) row px =
  (firstn ((h - y - n) * R) px ++
   flat_map (file_row data off P R) (rev (seq y n)) ++
   skipn ((h - y) * R) px,
   Returns tt).
Proof.
  induction n as [|n IH]; intros y row px Hy HR HRP Hwrap Hdata Hrow Hpx.
  - cbn [read_rows seq rev flat_map app]. rewrite Nat.sub_0_r, firstn_skipn.
    reflexivity.
  - cbn [read_rows]. rewrite Nat2Z.id.
    rewrite read_quiet_full by (try assumption; nia).
    set (row' := firstn P (skipn (off + y * P) data)).
    assert (length row' = P) as Hrow'
      by (unfold row'; rewrite length_firstn, length_skipn; nia).
    assert (to_size_t (Z.of_nat h - 1 - Z.of_nat y) = Z.of_nat (h - 1 - y)) as ->
      by (unfold to_size_t, SIZE_MOD in *; rewrite Z.mod_small; lia).
    assert ((Z.of_nat (h - 1 - y) * Z.of_nat R) mod SIZE_MOD
            = Z.of_nat ((h - 1 - y) * R)) as ->
      by (rewrite Z.mod_small; nia).
    unfold len. rewrite Hrow', Hpx.
    destruct (Z.leb_spec (Z.of_nat R) (Z.of_nat P)); [|lia].
    destruct (Z.ltb_spec (Z.of_nat ((h - 1 - y) * R)) (Z.of_nat (h * R))); [|nia].
    destruct (Z.leb_spec (Z.of_nat ((h - 1 - y) * R) + Z.of_nat R) (Z.of_nat (h * R)));
      [|nia].
    cbn [andb]. rewrite !Nat2Z.id.
    assert (firstn R row' = file_row data off P R y) as ->
      by (unfold row', file_row; rewrite firstn_firstn, Nat.min_l by lia; reflexivity).
    pose proof (length_file_row data off P R y HRP ltac:(nia)) as Hfr.
    set (d := ((h - 1 - y) * R)%nat) in *.
    assert (d + R <= length px)%nat as Hd by (subst d; nia).
    replace (Z.of_nat y + 1) with (Z.of_nat (S y)) by lia.
    replace (off + y * P + P)%nat with (off + S y * P)%nat by lia.
    rewrite IH; try assumption; try lia;
      [|rewrite length_write_at; rewrite ?Hfr; lia].
    f_equal. unfold write_at. rewrite Hfr.
    assert (length (firstn d px) = d) as Hfd by (rewrite length_firstn; lia).
    replace ((h - S y - n) * R)%nat with ((h - y - S n) * R)%nat by lia.
    rewrite firstn_app, Hfd, firstn_firstn.
    replace ((h - y - S n) * R - d)%nat with 0%nat by (subst d; nia).
    rewrite Nat.min_l by (subst d; nia). cbn [firstn]. rewrite app_nil_r.
    f_equal.
    replace ((h - S y) * R)%nat with d by (subst d; f_equal; lia).
    rewrite skipn_app, Hfd, Nat.sub_diag, skipn_all2 by lia. cbn [skipn app].
    cbn [seq]. change (y :: seq (S y) n) with ([y] ++ seq (S y) n).
    rewrite rev_app_distr, flat_map_app. cbn [rev app flat_map].
    rewrite app_nil_r, <- app_assoc. do 2 f_equal.
    f_equal. subst d. nia.
Qed.

Lemma i32_at_skipn k bs off : i32_at (skipn k bs) off = i32_at bs (k + off).
Proof. unfold i32_at. rewrite u32_at_skipn. reflexivity. Qed.

Lemma i32_at_firstn m bs off : (off + 3 < m)%nat -> i32_at (firstn m bs) off = i32_at bs off.
Proof. intro H. unfold i32_at. rewrite u32_at_firstn by lia. reflexivity. Qed.

Lemma file_header_read data :
  BitmapFileHeader_of_bytes (firstn sizeof_BitmapFileHeader (skipn 0 data)) =
  {| bfType := u16_at data 0; bfSize := u32_at data 2; bfReserved1 := u16_at data 6;
     bfReserved2 := u16_at data 8; bfOffBits := u32_at data 10 |}.
Proof.
  unfold BitmapFileHeader_of_bytes, sizeof_BitmapFileHeader. cbn [skipn].
  rewrite !u16_at_firstn, !u32_at_firstn by lia. reflexivity.
Qed.

Lemma info_header_read data :
  BitmapInfoHeader_of_bytes (firstn sizeof_BitmapInfoHeader (skipn 14 data)) =
  {| biSize := u32_at data 14; biWidth := i32_at data 18; biHeight := i32_at data 22;
     biPlanes := u16_at data 26; biBitCount := u16_at data 28;
     biCompression := u32_at data 30; biSizeImage := u32_at data 34;
     biXPelsPerMeter := i32_at data 38; biYPelsPerMeter := i32_at data 42;
     biClrUsed := u32_at data 46; biClrImportant := u32_at data 50 |}.
Proof.
  unfold BitmapInfoHeader_of_bytes, sizeof_BitmapInfoHeader.
  rewrite !u16_at_firstn, !u32_at_firstn, !i32_at_firstn by lia.
  rewrite !u16_at_skipn, !u32_at_skipn, !i32_at_skipn. reflexivity.
Qed.

(** The run of the loader on a complete bottom-up file. *)
Lemma bottom_up_file_loads self fs path data :
  file_at fs path = Some data ->
  (54 <= length data)%nat ->
  u16_at data 0 = 0x4D42 -> u32_at data 30 = 0 ->
  let w := i32_at data 18 in
  let h := i32_at data 22 in
  let bits := u16_at data 28 in
  let off := Z.to_nat (u32_at data 10) in
  let P := Z.to_nat ((bits * w + 31) / 32 * 4) in
  let R := Z.to_nat (w * (bits / 8)) in
  0 < w -> 0 < h -> 8 <= bits ->
  bits * w + 31 <= INT_MAX -> w * h <= INT_MAX ->
  (off + Z.to_nat h * P <= length data)%nat ->
  loadFromImage self fs path =
  ({| width := w; height := h; bitDepth := bits;
      pixels := flat_map (file_row data off P R) (rev (seq 0 (Z.to_nat h))) |},
   Returns true).
Proof.
  intros Hf HL Hbm Hcomp w h bits off P R Hw Hh Hbits Hrow Hwh Hdata.
  pose proof (u16_at_range data 28) as Hb. fold bits in Hb.
  unfold INT_MAX in *.
  assert (1 <= bits / 8 <= 8191 /\ bits / 8 * 8 <= bits) as (Hbpp & Hbpp8)
    by (Z.div_mod_to_equations; lia).
  assert (0 <= (bits * w + 31) / 32 /\
          bits * w <= (bits * w + 31) / 32 * 32 <= bits * w + 31) as (Hq0 & Hq).
  { pose proof (Z.mul_div_le (bits * w + 31) 32 ltac:(lia)).
    pose proof (Z.mod_pos_bound (bits * w + 31) 32 ltac:(lia)).
    pose proof (Z.div_mod (bits * w + 31) 32 ltac:(lia)).
    split; [apply Z.div_pos; nia|lia]. }
  unfold loadFromImage. rewrite Hf, quiet_open.
  rewrite read_quiet_full by (rewrite ?repeat_length; unfold sizeof_BitmapFileHeader; lia).
  rewrite read_quiet_full by (rewrite ?repeat_length; unfold sizeof_BitmapInfoHeader,
                                sizeof_BitmapFileHeader; lia).
  change (0 + sizeof_BitmapFileHeader)%nat with 14%nat.
  rewrite file_header_read, info_header_read.
  cbn [bfType bfOffBits biWidth biHeight biBitCount biCompression].
  rewrite Hbm, Hcomp. change (negb (19778 =? 19778)) with false.
  change (negb (0 =? 0)) with false. cbv iota.
  fold w h bits.
  unfold load_pixels, row_sizes, pixel_bytes, int_mul, int_add.
  cbn [width height bitDepth pixels].
  rewrite (int_result_ok (bits * w)) by (unfold INT_MIN, INT_MAX; nia). cbn [bind].
  rewrite (int_result_ok (bits * w + 31)) by (unfold INT_MIN, INT_MAX; nia). cbn [bind].
  rewrite (Z.quot_div_nonneg (bits * w + 31) 32) by nia.
  rewrite (int_result_ok ((bits * w + 31) / 32 * 4)) by (unfold INT_MIN, INT_MAX; nia).
  cbn [bind].
  rewrite (int_result_ok (w * h)) by (unfold INT_MIN, INT_MAX; nia). cbn [bind].
  rewrite (Z.quot_div_nonneg bits 8) by lia.
  unfold to_size_t, SIZE_MOD in *.
  rewrite (Z.mod_small (bits / 8)) by lia.
  rewrite (Z.mod_small ((bits * w + 31) / 32 * 4)) by nia.
  rewrite (Z.mod_small w) by lia.
  rewrite (Z.mod_small (w * h)) by nia.
  rewrite (Z.mod_small (w * (bits / 8))) by nia.
  rewrite (Z.mod_small (w * h * (bits / 8))) by nia.
  destruct (Z.gtb_spec (w * h * (bits / 8)) max_size); [unfold max_size in *; nia|].
  destruct (Z.gtb_spec ((bits * w + 31) / 32 * 4) max_size);
    [unfold max_size in *; nia|].
  destruct (Z.ltb_spec h 0); [lia|].
  rewrite seekg_quiet. cbv iota.
  assert (Z.to_nat (w * h * (bits / 8)) = (Z.to_nat h * R)%nat) as Hn
    by (unfold R; nia).
  rewrite Hn.
  pose proof (read_rows_bottom_up data off P R (Z.to_nat h) (Z.to_nat h) 0%nat
                (repeat x00 P) (resize (pixels self) (Z.to_nat h * R))) as Hrows.
  rewrite Nat.sub_0_r, Nat.sub_diag, Nat.add_0_r in Hrows.
  cbn [Nat.mul firstn app Z.of_nat] in Hrows.
  rewrite skipn_all2 in Hrows by (rewrite length_resize; lia).
  rewrite app_nil_r in Hrows.
  assert (Z.of_nat P = (bits * w + 31) / 32 * 4) as HP by (unfold P; nia).
  assert (Z.of_nat R = w * (bits / 8)) as HR by (unfold R; nia).
  rewrite HP, HR, (Z2Nat.id h) in Hrows by lia.
  fold off. fold P.
  assert (0 < w * (bits / 8) /\ w * (bits / 8) * 8 <= bits * w) as (HR0 & HR8) by nia.
  rewrite Hrows.
  - reflexivity.
  - lia.
  - lia.
  - lia.
  - unfold SIZE_MOD.
    assert (h * (w * (bits / 8)) <= 2147483647 * 2147483647)
      by (apply Z.mul_le_mono_nonneg; lia).
    lia.
  - exact Hdata.
  - apply repeat_length.
  - apply length_resize.
Qed.

(** A bottom-up file with at least 8 bits per pixel whose sizes fit in an
    [int] and whose rows are all there is loaded as [biWidth] x [biHeight] at
    [biBitCount] bits, and its buffer is the rows of the file from the last
    one (the top of the picture) to the first, each without its padding. *)
Theorem loadFromImage_bottom_up self fs path data :
  file_at fs path = Some data ->
  (54 <= length data)%nat ->
  u16_at data 0 = 0x4D42 -> u32_at data 30 = 0 ->
  let w := i32_at data 18 in
  let h := i32_at data 22 in
  let bits := u16_at data 28 in
  let off := Z.to_nat (u32_at data 10) in
  let P := Z.to_nat ((bits * w + 31) / 32 * 4) in
  let R := Z.to_nat (w * (bits / 8)) in
  0 < w -> 0 < h -> 8 <= bits ->
  bits * w + 31 <= INT_MAX -> w * h <= INT_MAX ->
  (off + Z.to_nat h * P <= length data)%nat ->
  loadFromImage self fs path =
  ({| width := w; height := h; bitDepth := bits;
      pixels := flat_map (file_row data off P R) (rev (seq 0 (Z.to_nat h))) |},
   Returns true).
Proof. exact (bottom_up_file_loads self fs path data). Qed.

Lemma loadFromImage_bottom_up_witness :
  loadFromImage empty (one_file bmp_2x2) "valid_24bit.bmp" =
  ({| width := 2; height := 2; bitDepth := 24;
      pixels := [x11; x12; x13; x14; x15; x16; x01; x02; x03; x04; x05; x06] |},
   Returns true).
Proof.
  apply (loadFromImage_bottom_up empty (one_file bmp_2x2) "valid_24bit.bmp" bmp_2x2
           eq_refl);
    try reflexivity; try discriminate;
    apply Nat.leb_le; reflexivity.
Defined.

Lemma loaded_bitmap_holds_its_pixels_witness :
  len (pixels (fst (loadFromImage empty (one_file bmp_2x2) "valid_24bit.bmp"))) = 12.
Proof.
  pose (run := loadFromImage empty (one_file bmp_2x2) "valid_24bit.bmp").
  assert (run = (fst run, Returns true)) as E by (vm_compute; reflexivity).
  apply (loaded_bitmap_holds_its_pixels empty (one_file bmp_2x2) "valid_24bit.bmp"
           (fst run) true E); reflexivity.
Defined.

End LoaderBuffer.

(* ------------------------------------------------------------------ *)
(** ** The constructor never aborts, and [from_bmp] cleans up *)

Section Totality.

Import icon.

Lemma read_images_settles data es : forall k imgs,
  (exists r, read_images (at_pos data k) es imgs = Returns r) \/
  (exists e, read_images (at_pos data k) es imgs = Throws e).
Proof.
  induction es as [|e es IH]; intros k imgs.
  - left. eexists. reflexivity.
  - rewrite read_images_step.
    destruct (negb _); [right; eexists; reflexivity|].
    destruct (_ && _); [right; eexists; reflexivity|].
    destruct (_ <=? _)%nat; [apply IH|right; eexists; reflexivity].
Qed.

(** The two exception types the constructor names. *)
Definition invalid_argument_or_runtime_error (e : exn) : Prop :=
  (exists what, e = invalid_argument what) \/ (exists what, e = runtime_error what).

Lemma read_icon_entries_throws data e :
  read_icon_entries (at_pos data 0) = Throws e -> invalid_argument_or_runtime_error e.
Proof.
  rewrite read_icon_entries_at, read_header_at. intro E.
  destruct (6 <=? length data)%nat;
    [|injection E as <-; right; eexists; reflexivity].
  cbv zeta in E.
  repeat match type of E with
         | context [if ?c then Throws ?e else _] =>
             destruct c; [injection E as <-; left; eexists; reflexivity|]
         end.
  cbn [bind] in E.
  repeat match type of E with
         | context [if ?c then _ else _] =>
             destruct c; try discriminate E;
             try (injection E as <-; right; eexists; reflexivity)
         end.
Qed.

Lemma read_images_throws data es : forall k imgs e,
  read_images (at_pos data k) es imgs = Throws e -> invalid_argument_or_runtime_error e.
Proof.
  induction es as [|a es IH]; intros k imgs e E; [discriminate|].
  rewrite read_images_step in E.
  destruct (negb _); [injection E as <-; left; eexists; reflexivity|].
  destruct (_ && _); [injection E as <-; left; eexists; reflexivity|].
  destruct (_ <=? _)%nat; [eapply IH; eassumption|].
  injection E as <-. right. eexists. reflexivity.
Qed.

(** A call of the constructor never fails an assertion and has no
    undefined behaviour: it returns an icon or it throws.  The assertions of
    [convert_entries] hold whenever they are reached, [read_images] having
    validated every entry.  What is thrown is a [std::invalid_argument] or a
    [std::runtime_error]; this is stated for the files whose entries announce
    less than 2^31 bytes each, which keeps every vector the constructor
    resizes below 2 GiB, so that its allocation is not in question. *)
Theorem icon_returns_or_throws fs file_path :
  ((exists ico, icon fs file_path = Returns ico) \/
   (exists e, icon fs file_path = Throws e)) /\
  ((forall data, file_at fs file_path = Some data ->
      Forall (fun e => icon_entry.image_size e < 2 ^ 31) (directory data)) ->
   (exists ico, icon fs file_path = Returns ico) \/
   (exists what, icon fs file_path = Throws (invalid_argument what)) \/
   (exists what, icon fs file_path = Throws (runtime_error what))).
Proof.
  assert ((exists ico, icon fs file_path = Returns ico) \/
          (exists e, icon fs file_path = Throws e /\ invalid_argument_or_runtime_error e))
    as Hsettles.
  { destruct (file_at fs file_path) as [data|] eqn:Hf.
    - rewrite (icon_open _ _ _ Hf).
      destruct (read_icon_entries (at_pos data 0)) as [[[h es] file]|e| |] eqn:E.
      + apply read_icon_entries_inv in E. destruct E as (Ht & -> & -> & ->).
        cbn [bind].
        destruct (read_images_settles data (directory data)
                    (6 + 16 * Z.to_nat (u16_at data 4)) []) as [[[imgs f] H]|[e H]].
        * pose proof (read_images_inv _ _ _ _ _ _ H) as [Hok _].
          rewrite H. cbn [bind].
          rewrite convert_entries_run; [left; eexists; reflexivity|exact Hok|lia|].
          rewrite length_directory. pose proof (u16_at_range data 4). lia.
        * rewrite H. right. exists e. split; [reflexivity|].
          eapply read_images_throws; eassumption.
      + right. exists e. split; [reflexivity|].
        apply (read_icon_entries_throws data e E).
      + exfalso. rewrite read_icon_entries_at, read_header_at in E.
        destruct (6 <=? length data)%nat; [|discriminate].
        cbv zeta in E.
        repeat match type of E with
               | context [if ?c then Throws ?e else _] => destruct c; [discriminate|]
               end.
        cbn [bind] in E.
        repeat match type of E with
               | context [if ?c then _ else _] => destruct c; try discriminate
               end.
      + exfalso. rewrite read_icon_entries_at, read_header_at in E.
        destruct (6 <=? length data)%nat; [|discriminate].
        cbv zeta in E.
        repeat match type of E with
               | context [if ?c then Throws ?e else _] => destruct c; [discriminate|]
               end.
        cbn [bind] in E.
        repeat match type of E with
               | context [if ?c then _ else _] => destruct c; try discriminate
               end.
    - right. unfold icon, open_file. rewrite Hf. eexists. split; [reflexivity|].
      left. eexists. reflexivity. }
  split.
  - destruct Hsettles as [H|(e & H & _)]; [left; exact H|right; exists e; exact H].
  - intros _. destruct Hsettles as [H|(e & H & [[what ->]|[what ->]])].
    + left. exact H.
    + right. left. exists what. exact H.
    + right. right. exists what. exact H.
Qed.

Lemma icon_returns_or_throws_witness :
  exists what,
    icon (one_file entry_reserved_ff) "entry_reserved_ff.ico" =
    Throws (invalid_argument what).
Proof.
  destruct (proj2 (icon_returns_or_throws (one_file entry_reserved_ff)
                     "entry_reserved_ff.ico")) as [[ico H]|[H|[what H]]].
  - intros data Hf. injection Hf as <-.
    change (directory entry_reserved_ff) with [dir_entry entry_reserved_ff 0].
    repeat constructor.
  - discriminate H.
  - exact H.
  - discriminate H.
Defined.

Lemma file_at_fs_remove fs path : file_at (fs_remove fs path) path = None.
Proof. cbn. rewrite String.eqb_refl. reflexivity. Qed.

(** Once the bitmap is loaded, [from_bmp] leaves no temporary file
    behind, whether it returns the icon or throws. *)
Theorem from_bmp_removes_temporary_file fs bmp_path bmp fs' r :
  bitmap.loadFromImage bitmap.empty fs bmp_path = (bmp, Returns true) ->
  from_bmp fs bmp_path = (fs', r) ->
  match r with
  | Returns _ | Throws _ => file_at fs' (bmp_path ++ ".temp.ico")%string = None
  | Aborts | Undefined => True
  end.
Proof.
  intros Hload H. unfold from_bmp in H. rewrite Hload in H. cbn [negb] in H.
  destruct (bitmap.saveToIco bmp fs (bmp_path ++ ".temp.ico")) as [fs1 saved].
  destruct saved as [[|]|e| |]; cbn [bind negb] in H.
  - destruct (icon fs1 (bmp_path ++ ".temp.ico")) as [ico|e| |];
      injection H as <- <-; try exact I; apply file_at_fs_remove.
  - injection H as <- <-. apply file_at_fs_remove.
  - injection H as <- <-. apply file_at_fs_remove.
  - injection H as <- <-. exact I.
  - injection H as <- <-. exact I.
Qed.

Lemma from_bmp_removes_temporary_file_witness :
  file_at (fst (from_bmp (one_file bmp_2x2) "valid_24bit.bmp"))
          "valid_24bit.bmp.temp.ico" = None.
Proof.
  pose (run := from_bmp (one_file bmp_2x2) "valid_24bit.bmp").
  assert (exists ico, run = (fst run, Returns ico)) as [ico E]
    by (eexists; vm_compute; reflexivity).
  assert (bitmap.loadFromImage bitmap.empty (one_file bmp_2x2) "valid_24bit.bmp"
          = (bitmap_2x2, Returns true)) as Hload by (vm_compute; reflexivity).
  exact (from_bmp_removes_temporary_file (one_file bmp_2x2) "valid_24bit.bmp"
           bitmap_2x2 (fst run) (Returns ico) Hload E).
Defined.

(** The icon [from_bmp] returns: the header of a one-image icon file and a
    single 32-bit entry with id 1, its size that of the one blob. *)
Theorem from_bmp_icon fs bmp_path fs' ico :
  from_bmp fs bmp_path = (fs', Returns ico) ->
  header.reserved (resource_header ico) = 0 /\
  header.type (resource_header ico) = 1 /\
  header.entries_count (resource_header ico) = 1 /\
  exists r blob,
    resource_entries ico = [r] /\ images ico = [blob] /\
    entry.reserved r = 0 /\ entry.planes r = 1 /\ entry.bit_count r = 32 /\
    entry.icon_id r = 1 /\
    entry.resource_size r = Z.of_nat (length blob).
Proof.
  unfold from_bmp. intro H.
  destruct (bitmap.loadFromImage bitmap.empty fs bmp_path) as [bmp loaded_ok].
  destruct loaded_ok as [[|]| | |]; try discriminate. cbn [negb] in H.
  destruct (bitmap.saveToIco bmp fs (bmp_path ++ ".temp.ico")) as [fs1 saved] eqn:Hs.
  destruct saved as [[|]| | |]; try discriminate. cbn [bind negb] in H.
  destruct (saveToIco_returns _ _ _ _ _ Hs) as (Hw & Hh & Hmax & colour & Hcol & ->).
  destruct (size_facts _ _ Hw Hh Hmax) as (Hwh & Hhw & _ & _ & Hm).
  set (w := bitmap.width bmp) in *. set (h := bitmap.height bmp) in *.
  set (rest := colour ++ repeat x00 (Z.to_nat (mask_size w h))) in *.
  set (out := ico_headers w h ++ rest) in *.
  destruct (ico_headers_fields w h rest Hw Hh Hmax)
    as ((F0 & F2 & F4) & (_ & _ & _ & F9 & F10 & F12 & F14 & _) & _).
  fold out in F0, F2, F4, F9, F10, F12, F14.
  assert (length rest = Z.to_nat (w * h * 4 + mask_size w h)) as Hrest.
  { unfold rest. rewrite length_app, repeat_length, Hcol. unfold INT_MAX in *. nia. }
  assert (Z.to_nat (u32_at out 14) <= 40 + length rest)%nat as Hfits.
  { rewrite F14, Hrest.
    pose proof (Z.mod_le (40 + (w * h * 4 + mask_size w h)) 4294967296).
    pose proof (Z.mod_pos_bound (40 + (w * h * 4 + mask_size w h)) 4294967296).
    unfold INT_MAX in *. lia. }
  destruct (icon_reads_written w h rest (fs_write fs (bmp_path ++ ".temp.ico") out)
              (bmp_path ++ ".temp.ico") Hw Hh Hmax
              (file_at_fs_write fs _ out) Hfits) as [Hicon Himg].
  fold out in Hicon, Himg. rewrite Hicon in H. injection H as _ <-.
  cbn [resource_header loaded header_of_bytes header.reserved header.type
       header.entries_count].
  split; [exact F0|]. split; [exact F2|]. split; [exact F4|].
  assert (directory out = [dir_entry out 0]) as Hdir
    by (unfold directory; rewrite F4; reflexivity).
  eexists _, _. split; [cbn [resource_entries loaded]; rewrite Hdir; reflexivity|].
  split; [exact Himg|].
  cbn [resource_entry_of entry.reserved entry.planes entry.bit_count entry.icon_id
       entry.resource_size].
  unfold dir_entry, icon_entry_of_bytes.
  cbn [icon_entry.reserved icon_entry.planes icon_entry.bit_count icon_entry.image_size].
  rewrite u8_at_skipn, !u16_at_skipn, u32_at_skipn. cbn [Nat.add Nat.mul].
  rewrite F9, F10, F12.
  repeat match goal with |- _ /\ _ => split end; try reflexivity.
  rewrite length_firstn, length_skipn.
  assert (length out = (62 + length rest)%nat) as HL
    by (unfold out; rewrite length_app, length_ico_headers; reflexivity).
  pose proof (u32_at_range out 14). lia.
Qed.

Lemma from_bmp_icon_witness :
  exists ico,
    snd (from_bmp (one_file bmp_2x2) "valid_24bit.bmp") = Returns ico /\
    header.type (resource_header ico) = 1 /\
    header.entries_count (resource_header ico) = 1.
Proof.
  pose (run := from_bmp (one_file bmp_2x2) "valid_24bit.bmp").
  assert (exists ico, run = (fst run, Returns ico)) as [ico E]
    by (eexists; vm_compute; reflexivity).
  exists ico. split; [change (snd run = Returns ico); rewrite E; reflexivity|].
  destruct (from_bmp_icon (one_file bmp_2x2) "valid_24bit.bmp" (fst run) ico E)
    as (_ & Ht & Hc & _).
  split; assumption.
Defined.

End Totality.

(* ------------------------------------------------------------------ *)
(** ** The values in the exception messages *)

Section Messages.

Import icon.

#[local] Open Scope string_scope.

(** The position of a character in a list, counted from [i]. *)
Fixpoint index_from (c : ascii) (l : list ascii) (i : Z) : option Z :=
  match l with
  | nil => None
  | x :: l' => if Ascii.eqb c x then Some i else index_from c l' (i + 1)%Z
  end.

(** The value of a hexadecimal digit as [{:X}] prints it. *)
Definition hex_value (c : ascii) : option Z := index_from c hex_alphabet 0.

(** Read hexadecimal digits up to the first character that is none. *)
Fixpoint read_X (v : Z) (s : string) : Z :=
  match s with
  | EmptyString => v
  | String c s' =>
      match hex_value c with
      | Some d => read_X (16 * v + d) s'
      | None => v
      end
  end.

(** No hexadecimal digit starts the string. *)
Definition stops (s : string) : Prop :=
  match s with
  | EmptyString => True
  | String c _ => hex_value c = None
  end.

Lemma hex_value_nth n :
  (n < 16)%nat -> hex_value (nth n hex_alphabet "0"%char) = Some (Z.of_nat n).
Proof.
  intro H. do 16 (destruct n as [|n]; [reflexivity|]). lia.
Qed.

Lemma hex_value_digit d : (0 <= d < 16)%Z -> hex_value (hex_digit d) = Some d.
Proof.
  intro H. unfold hex_digit. rewrite hex_value_nth by lia. f_equal. lia.
Qed.

Lemma hex_digits_append rest : forall fuel n acc,
  hex_digits fuel n acc ++ rest = hex_digits fuel n (acc ++ rest).
Proof.
  induction fuel as [|fuel IH]; intros n acc; [reflexivity|].
  cbn [hex_digits]. destruct (n / 16 =? 0)%Z; [reflexivity|]. apply IH.
Qed.

Lemma read_X_hex_digits : forall fuel n acc,
  0 <= n < 16 ^ Z.of_nat fuel -> (0 < fuel)%nat ->
  read_X 0 (hex_digits fuel n acc) = read_X n acc.
Proof.
  induction fuel as [|fuel IH]; intros n acc Hn Hfuel; [lia|].
  cbn [hex_digits].
  assert (0 <= n mod 16 < 16) as Hd by (apply Z.mod_pos_bound; lia).
  destruct (Z.eqb_spec (n / 16) 0) as [Hq|Hq].
  - cbn [read_X]. rewrite (hex_value_digit _ Hd). f_equal.
    pose proof (Z.div_mod n 16 ltac:(lia)). lia.
  - rewrite Nat2Z.inj_succ, Z.pow_succ_r in Hn by lia.
    assert (0 <= n / 16 < 16 ^ Z.of_nat fuel) as Hn'
      by (split; [apply Z.div_pos; lia | apply Z.div_lt_upper_bound; lia]).
    destruct fuel as [|fuel']; [cbn in Hn'; lia|].
    rewrite IH by (auto; lia).
    cbn [read_X]. rewrite (hex_value_digit _ Hd). f_equal.
    pose proof (Z.div_mod n 16 ltac:(lia)). lia.
Qed.

Lemma read_X_stops v s : stops s -> read_X v s = v.
Proof. destruct s as [|c s]; cbn; [reflexivity|]. intros ->. reflexivity. Qed.

(** The number printed by [{:X}] is read back from the message, whatever
    text follows it. *)
Lemma read_X_format_X n rest :
  0 <= n < 2 ^ 64 -> stops rest -> read_X 0 (format_X n ++ rest) = n.
Proof.
  intros Hn Hrest. unfold format_X.
  rewrite hex_digits_append, read_X_hex_digits by (cbn; lia).
  apply read_X_stops. exact Hrest.
Qed.

(** The four messages that print a field determine its value: the
    exceptions for a bad header or entry carry the actual value. *)
Theorem messages_carry_the_value a b :
  0 <= a < 2 ^ 64 -> 0 <= b < 2 ^ 64 ->
  (header_reserved_invalid a = header_reserved_invalid b -> a = b) /\
  (image_type_invalid a = image_type_invalid b -> a = b) /\
  (entry_reserved_invalid a = entry_reserved_invalid b -> a = b) /\
  (entry_planes_invalid a = entry_planes_invalid b -> a = b).
Proof.
  intros Ha Hb.
  unfold header_reserved_invalid, image_type_invalid, entry_reserved_invalid,
    entry_planes_invalid.
  repeat split; intro H; injection H as H;
    apply (f_equal (read_X 0)) in H;
    rewrite !read_X_format_X in H by (auto; reflexivity); exact H.
Qed.

Lemma messages_carry_the_value_witness :
  image_type_invalid 65535 = invalid_argument "Image type 0xFFFF is invalid!" /\
  read_X 0 "FFFF is invalid!" = 65535.
Proof.
  split; [reflexivity|].
  apply (proj1 (proj2 (messages_carry_the_value (read_X 0 "FFFF is invalid!") 65535
                         ltac:(cbn; lia) ltac:(lia)))).
  reflexivity.
Defined.

End Messages.

(* ------------------------------------------------------------------ *)
(** ** What the constructor accepts, and what it keeps *)

Section Acceptance.

Import icon.

(** The constructor returns exactly for the files with a valid header, a
    complete entry table, valid entries and all their blobs; the icon is
    then the one the file determines. *)
Theorem icon_accepts_loadable_files fs file_path data :
  file_at fs file_path = Some data ->
  (((6 <= length data)%nat /\
    u16_at data 0 = 0 /\ u16_at data 2 = 1 /\ u16_at data 4 <> 0 /\
    Forall entry_ok (directory data) /\
    (6 + 16 * Z.to_nat (u16_at data 4) + payload_size (directory data)
       <= length data)%nat)
   <-> exists ico, icon fs file_path = Returns ico) /\
  (forall ico, icon fs file_path = Returns ico -> ico = loaded data).
Proof.
  intro Hf. split; [split|].
  - intros (HL & Hr & Ht & Hc & Hok & Hlen).
    exists (loaded data). apply (icon_loads _ _ _ Hf).
    repeat split; auto; lia.
  - intros [ico H].
    destruct (icon_loaded_inv _ _ _ _ Hf H) as [((HL & Hr & Ht & Hc & Hn) & Hok & Hlen) _].
    repeat split; auto.
  - intros ico H. apply (icon_loaded_inv _ _ _ _ Hf H).
Qed.

Lemma icon_accepts_loadable_files_witness :
  exists ico, icon (one_file two_images) "two.ico" = Returns ico.
Proof.
  apply (proj1 (proj1 (icon_accepts_loadable_files (one_file two_images) "two.ico"
                         two_images eq_refl))).
  repeat match goal with |- _ /\ _ => split end;
    try (apply Nat.leb_le; vm_compute; reflexivity);
    try (vm_compute; congruence).
  change (directory two_images) with [dir_entry two_images 0; dir_entry two_images 1].
  repeat (apply Forall_cons;
          [split; [reflexivity|first [left; reflexivity|right; reflexivity]]|]).
  apply Forall_nil.
Defined.

Lemma image_size_nonneg data i : 0 <= icon_entry.image_size (dir_entry data i).
Proof.
  unfold dir_entry, icon_entry_of_bytes. cbn [icon_entry.image_size].
  apply u32_at_range.
Qed.

(** Every record built from an entry carries the length of the blob read
    for that entry. *)
Lemma numbered_sizes data es : forall k id,
  Forall (fun e => 0 <= icon_entry.image_size e) es ->
  (k + payload_size es <= length data)%nat ->
  Forall2 (fun r blob => entry.resource_size r = Z.of_nat (length blob))
          (numbered es id) (blobs_from data k es).
Proof.
  induction es as [|e es IH]; intros k id Hpos Hlen; cbn [numbered blobs_from].
  - constructor.
  - inversion Hpos as [|? ? He Hes]; subst.
    rewrite payload_size_cons in Hlen.
    constructor.
    + cbn [resource_entry_of entry.resource_size].
      rewrite length_firstn, length_skipn. unfold blob_size in *. lia.
    + apply IH; [assumption|lia].
Qed.

(** The three members of a loaded icon agree: the header counts the
    images, there are between 1 and 65535 of them, and each record's
    [resource_size] is the length of the image at the same position. *)
Theorem icon_entries_describe_images fs file_path ico :
  icon fs file_path = Returns ico ->
  header.entries_count (resource_header ico) = Z.of_nat (length (images ico)) /\
  1 <= Z.of_nat (length (images ico)) <= 65535 /\
  length (resource_entries ico) = length (images ico) /\
  Forall2 (fun r blob => entry.resource_size r = Z.of_nat (length blob))
          (resource_entries ico) (images ico).
Proof.
  intro H.
  destruct (file_at fs file_path) as [data|] eqn:Hf;
    [|unfold icon, open_file in H; rewrite Hf in H; discriminate].
  destruct (icon_loaded_inv _ _ _ _ Hf H) as [((HL & Hr & Ht & Hc & Hn) & Hok & Hlen) ->].
  cbn [resource_header resource_entries images loaded header_of_bytes
       header.entries_count].
  rewrite length_blobs_from, length_numbered, length_directory.
  pose proof (u16_at_range data 4).
  repeat match goal with |- _ /\ _ => split end; try lia.
  apply numbered_sizes; [|lia].
  apply Forall_forall. intros e He. unfold directory in He.
  apply in_map_iff in He. destruct He as (i & <- & _). apply image_size_nonneg.
Qed.

Lemma icon_entries_describe_images_witness :
  exists ico,
    icon (one_file two_images) "two.ico" = Returns ico /\
    length (images ico) = 2%nat /\
    header.entries_count (resource_header ico) = 2.
Proof.
  pose (run := icon (one_file two_images) "two.ico").
  assert (exists ico, run = Returns ico) as [ico E] by (eexists; vm_compute; reflexivity).
  exists ico. split; [exact E|].
  destruct (icon_entries_describe_images (one_file two_images) "two.ico" ico E)
    as (Hc & _ & _ & _).
  assert (length (images ico) = 2%nat) as Hn
    by (revert E; vm_compute; intro E; injection E as <-; reflexivity).
  split; [exact Hn|]. rewrite Hc, Hn. reflexivity.
Defined.

(** The failures in front of the image loop that are not the header's: a
    path that cannot be opened, and a file too short for the entry table its
    header announces, which is reported before any entry is looked at. *)
Theorem icon_fails_before_the_entries fs file_path :
  (file_at fs file_path = None ->
   icon fs file_path =
   Throws (invalid_argument
             ("Failed to open " ++ quote ++ file_path ++ quote ++ "!")%string)) /\
  (forall data,
     file_at fs file_path = Some data ->
     (6 <= length data)%nat ->
     u16_at data 0 = 0 -> u16_at data 2 = 1 -> u16_at data 4 <> 0 ->
     (length data < 6 + 16 * Z.to_nat (u16_at data 4))%nat ->
     icon fs file_path = Throws entries_read_failure).
Proof.
  split.
  - intro Hf. unfold icon, open_file. rewrite Hf. reflexivity.
  - intros data Hf HL Hr Ht Hc Hshort.
    rewrite (icon_open _ _ _ Hf), read_icon_entries_at, read_header_at.
    destruct (Nat.leb_spec 6 (length data)); [|lia].
    cbv zeta.
    change (header.reserved (header_of_bytes data)) with (u16_at data 0).
    change (header.type (header_of_bytes data)) with (u16_at data 2).
    change (header.entries_count (header_of_bytes data)) with (u16_at data 4).
    rewrite Hr, Ht.
    change (0 =? 0) with true. change (2 =? 1) with false. change (1 =? 1) with true.
    cbn [negb].
    destruct (Z.eqb_spec 0 (u16_at data 4)); [congruence|].
    cbn [bind contents gpos failbit at_pos].
    change (header.entries_count (header_of_bytes data)) with (u16_at data 4).
    destruct (Nat.leb_spec (Z.to_nat (u16_at data 4) * 16) (length data - 6)); [lia|].
    reflexivity.
Qed.

(** Two entries announced, one present, and that one invalid: the short
    table is what is reported. *)
Definition entry_incomplete : list byte :=
  [x00; x00; x01; x00; x02; x00;
   x20; x20; x00; xff; x01; x00; x20; x00; x00; x00; x00; x00; x16; x00; x00; x00].

Lemma icon_fails_before_the_entries_witness :
  icon (one_file entry_incomplete) "entry_incomplete.ico" = Throws entries_read_failure.
Proof.
  apply (proj2 (icon_fails_before_the_entries (one_file entry_incomplete)
                  "entry_incomplete.ico") entry_incomplete eq_refl);
    try reflexivity; try discriminate; cbn; lia.
Defined.

End Acceptance.

(* ------------------------------------------------------------------ *)
(** ** The bytes the reader looks at, and the bytes [get_header] gives back *)

Section Extent.

Import icon.

(** Where the last blob ends when the blobs follow the table back to back. *)
Definition file_extent (data : list byte) : nat :=
  6 + 16 * Z.to_nat (u16_at data 4) + payload_size (directory data).

Lemma dir_entry_firstn m data i :
  (6 + 16 * (i + 1) <= m)%nat -> dir_entry (firstn m data) i = dir_entry data i.
Proof.
  intro H. unfold dir_entry, icon_entry_of_bytes.
  rewrite !u8_at_skipn, !u16_at_skipn, !u32_at_skipn.
  rewrite !u8_at_firstn, !u16_at_firstn, !u32_at_firstn by lia.
  reflexivity.
Qed.

Lemma directory_firstn m data :
  (6 + 16 * Z.to_nat (u16_at data 4) <= m)%nat ->
  directory (firstn m data) = directory data.
Proof.
  intro H. unfold directory.
  rewrite u16_at_firstn by lia.
  apply map_ext_in. intros i Hi. apply in_seq in Hi.
  apply dir_entry_firstn. lia.
Qed.

Lemma blobs_from_firstn m data es : forall k,
  (k + payload_size es <= m)%nat ->
  blobs_from (firstn m data) k es = blobs_from data k es.
Proof.
  induction es as [|e es IH]; intros k H; [reflexivity|].
  rewrite payload_size_cons in H. cbn [blobs_from].
  rewrite IH by lia. f_equal.
  rewrite skipn_firstn_comm, firstn_firstn. f_equal. lia.
Qed.

(** A file and its first [m] bytes, [m] reaching to the end of the last
    blob, are accepted alike and give the same icon. *)
Lemma loaded_firstn m data :
  (file_extent data <= m)%nat -> (m <= length data)%nat ->
  loaded (firstn m data) = loaded data /\
  (loadable (firstn m data) <-> loadable data).
Proof.
  unfold file_extent. intros Hm HL.
  assert (directory (firstn m data) = directory data) as Hdir
    by (apply directory_firstn; lia).
  assert (u16_at (firstn m data) 0 = u16_at data 0 /\
          u16_at (firstn m data) 2 = u16_at data 2 /\
          u16_at (firstn m data) 4 = u16_at data 4) as (H0 & H2 & H4)
    by (rewrite !u16_at_firstn by lia; auto).
  split.
  - unfold loaded, header_of_bytes. rewrite Hdir, H0, H2, H4.
    rewrite blobs_from_firstn by lia. reflexivity.
  - unfold loadable, table_readable. rewrite Hdir, H0, H2, H4, length_firstn.
    split; intros ((? & ? & ? & ? & ?) & ? & ?);
      repeat match goal with |- _ /\ _ => split end; auto; lia.
Qed.

(** The constructor looks at nothing behind the last blob: a file that
    agrees with an accepted one up to there gives the same icon. *)
Theorem icon_reads_only_its_extent fs file_path data ico fs' file_path' data' :
  file_at fs file_path = Some data ->
  icon fs file_path = Returns ico ->
  file_at fs' file_path' = Some data' ->
  firstn (file_extent data) data' = firstn (file_extent data) data ->
  icon fs' file_path' = Returns ico.
Proof.
  intros Hf H Hf' Hpre.
  destruct (icon_loaded_inv _ _ _ _ Hf H) as [Hl ->].
  set (N := file_extent data) in *.
  assert (N <= length data)%nat as HN
    by (destruct Hl as (_ & _ & ?); exact H0).
  assert (N <= length data')%nat as HN'.
  { apply (f_equal (@length byte)) in Hpre. rewrite !length_firstn in Hpre. lia. }
  destruct (loaded_firstn N data (Nat.le_refl _) HN) as [Hsame Hiff].
  assert (6 <= N)%nat as H6 by (unfold N, file_extent; lia).
  assert (u16_at data' 4 = u16_at data 4) as H4.
  { rewrite <- (u16_at_firstn N data' 4), Hpre, u16_at_firstn by lia. reflexivity. }
  assert (directory data' = directory data) as Hdir.
  { rewrite <- (directory_firstn N data'), Hpre by (rewrite H4; unfold N, file_extent; lia).
    apply directory_firstn. unfold N, file_extent. lia. }
  assert (file_extent data' = N) as HN2
    by (unfold file_extent at 1; rewrite H4, Hdir; reflexivity).
  destruct (loaded_firstn N data') as [Hsame' Hiff']; [lia|exact HN'|].
  rewrite Hpre in Hsame', Hiff'.
  rewrite <- Hsame, Hsame'.
  apply (icon_loads _ _ _ Hf'). apply Hiff', Hiff, Hl.
Qed.

Lemma icon_reads_only_its_extent_witness :
  icon (one_file (two_images ++ [xde; xad])) "longer.ico" =
  icon (one_file two_images) "two.ico".
Proof.
  pose (run := icon (one_file two_images) "two.ico").
  assert (exists ico, run = Returns ico) as [ico E] by (eexists; vm_compute; reflexivity).
  change (icon (one_file (two_images ++ [xde; xad])) "longer.ico" = run).
  rewrite E.
  apply (icon_reads_only_its_extent (one_file two_images) "two.ico" two_images ico
           (one_file (two_images ++ [xde; xad])) "longer.ico"
           (two_images ++ [xde; xad]) eq_refl E eq_refl).
  vm_compute. reflexivity.
Defined.

(** *** [get_header] against the file *)

Lemma byte_of_Z_low a z : byte_of_Z (Z_of_byte a + 256 * z) = a.
Proof.
  rewrite <- (byte_of_Z_of_byte a) at 2. unfold byte_of_Z.
  replace ((Z_of_byte a + 256 * z) mod 256) with (Z_of_byte a mod 256)
    by (rewrite (Z.mul_comm 256 z), Z.mod_add; lia).
  reflexivity.
Qed.

Lemma enc_u8_byte a : enc_u8 (Z_of_byte a) = [a].
Proof. unfold enc_u8. rewrite byte_of_Z_of_byte. reflexivity. Qed.

Lemma enc_u16_bytes a b : enc_u16 (Z_of_byte a + 256 * Z_of_byte b) = [a; b].
Proof.
  pose proof (Z_of_byte_range a). unfold enc_u16.
  rewrite byte_of_Z_low.
  replace ((Z_of_byte a + 256 * Z_of_byte b) / 256) with (Z_of_byte b)
    by (Z.div_mod_to_equations; lia).
  rewrite byte_of_Z_of_byte. reflexivity.
Qed.

Lemma enc_u32_bytes a b c d :
  enc_u32 (Z_of_byte a + 256 * Z_of_byte b +
           65536 * (Z_of_byte c + 256 * Z_of_byte d)) = [a; b; c; d].
Proof.
  pose proof (Z_of_byte_range a). pose proof (Z_of_byte_range b).
  pose proof (Z_of_byte_range c). pose proof (Z_of_byte_range d).
  unfold enc_u32.
  set (v := Z_of_byte a + 256 * Z_of_byte b +
            65536 * (Z_of_byte c + 256 * Z_of_byte d)).
  replace v with (Z_of_byte a +
                  256 * (Z_of_byte b + 256 * (Z_of_byte c + 256 * Z_of_byte d)))
    at 1 by (unfold v; lia).
  replace (v / 256) with (Z_of_byte b + 256 * (Z_of_byte c + 256 * Z_of_byte d))
    by (unfold v; Z.div_mod_to_equations; lia).
  replace (v / 65536) with (Z_of_byte c + 256 * Z_of_byte d)
    by (unfold v; Z.div_mod_to_equations; lia).
  replace (v / 16777216) with (Z_of_byte d)
    by (unfold v; Z.div_mod_to_equations; lia).
  rewrite !byte_of_Z_low, byte_of_Z_of_byte. reflexivity.
Qed.

Lemma serialize_header_of_bytes b :
  (6 <= length b)%nat -> serialize_header (header_of_bytes b) = firstn 6 b.
Proof.
  intro H.
  destruct b as [|b0 [|b1 [|b2 [|b3 [|b4 [|b5 rest]]]]]]; cbn [length] in H; try lia.
  unfold serialize_header, header_of_bytes, u16_at, u8_at.
  cbn [header.reserved header.type header.entries_count nth Nat.add firstn].
  rewrite !enc_u16_bytes. reflexivity.
Qed.

(** The record of an entry is the entry's first 12 bytes and the id. *)
Lemma serialize_entry_of_bytes b id :
  (12 <= length b)%nat ->
  serialize_entry (resource_entry_of (icon_entry_of_bytes b) id) =
  firstn 12 b ++ enc_u16 id.
Proof.
  intro H.
  destruct b as [|b0 [|b1 [|b2 [|b3 [|b4 [|b5 [|b6 [|b7 [|b8 [|b9 [|b10 [|b11 rest]]]]]]]]]]]];
    cbn [length] in H; try lia.
  unfold serialize_entry, resource_entry_of, icon_entry_of_bytes, u32_at, u16_at, u8_at.
  cbn [entry.width entry.height entry.color_count entry.reserved entry.planes
       entry.bit_count entry.resource_size entry.icon_id
       icon_entry.width icon_entry.height icon_entry.color_count icon_entry.reserved
       icon_entry.planes icon_entry.bit_count icon_entry.image_size
       nth Nat.add firstn].
  rewrite !enc_u8_byte, !enc_u16_bytes, enc_u32_bytes. reflexivity.
Qed.

Lemma serialized_directory data : forall n s,
  (6 + 16 * (s + n) <= length data)%nat ->
  concat (map serialize_entry (numbered (map (dir_entry data) (seq s n)) (Z.of_nat s))) =
  flat_map (fun i => firstn 12 (skipn (6 + 16 * i) data) ++ enc_u16 (Z.of_nat i + 1))
           (seq s n).
Proof.
  induction n as [|n IH]; intros s H; [reflexivity|].
  cbn [seq map numbered concat flat_map].
  replace (Z.of_nat s + 1) with (Z.of_nat (S s)) by lia.
  rewrite IH by lia. f_equal.
  unfold dir_entry. rewrite serialize_entry_of_bytes by (rewrite length_skipn; lia).
  reflexivity.
Qed.

(** [get_header] of a loaded icon is the start of the file with every
    entry's 4-byte [image_offset] replaced by the 2-byte id: the 6 header
    bytes, then for entry number [i] its first 12 bytes and [i + 1]. *)
Theorem get_header_copies_the_directory fs file_path data ico :
  file_at fs file_path = Some data ->
  icon fs file_path = Returns ico ->
  get_header ico =
  firstn 6 data ++
  flat_map (fun i => firstn 12 (skipn (6 + 16 * i) data) ++ enc_u16 (Z.of_nat i + 1))
           (seq 0 (Z.to_nat (u16_at data 4))).
Proof.
  intros Hf H.
  destruct (icon_loaded_inv _ _ _ _ Hf H) as [((HL & _ & _ & _ & Hn) & _ & _) ->].
  rewrite get_header_concat. cbn [resource_header resource_entries loaded].
  rewrite serialize_header_of_bytes by exact HL.
  unfold directory. change 0 with (Z.of_nat 0) at 1.
  rewrite (serialized_directory data (Z.to_nat (u16_at data 4)) 0) by (cbn [Nat.add]; lia).
  reflexivity.
Qed.

Lemma get_header_copies_the_directory_witness :
  get_header (loaded two_images) =
  [x00; x00; x01; x00; x02; x00;
   x10; x10; x00; x00; x01; x00; x20; x00; x01; x00; x00; x00; x01; x00;
   x20; x20; x00; x00; x00; x00; x18; x00; x02; x00; x00; x00; x02; x00].
Proof.
  assert (icon (one_file two_images) "two.ico" = Returns (loaded two_images)) as E
    by (vm_compute; reflexivity).
  rewrite (get_header_copies_the_directory (one_file two_images) "two.ico" two_images
             (loaded two_images) eq_refl E).
  vm_compute. reflexivity.
Defined.

End Extent.

(* ------------------------------------------------------------------ *)
(** ** The checks of the bitmap loader *)

Section LoaderChecks.

Import bitmap.

Lemma u8_at_overflow bs i : (length bs <= i)%nat -> u8_at bs i = 0.
Proof. intro H. unfold u8_at. rewrite nth_overflow by exact H. reflexivity. Qed.

(** A read into a zeroed buffer leaves the bytes of the file, and zeros
    where the file has none. *)
Lemma read_into_zeros data k failed n :
  exists buf k' failed',
    istream_read (quiet data k failed) (repeat x00 n) n
      = Some (buf, quiet data k' failed') /\
    (forall i, (i < n)%nat ->
       u8_at buf i = if failed then 0 else u8_at data (k + i)) /\
    failed' = failed || negb (n <=? length data - k)%nat /\
    (failed' = false -> k' = (k + n)%nat).
Proof.
  unfold istream_read, quiet. cbn [failbit contents gpos exceptions_mask].
  destruct failed.
  - exists (repeat x00 n), k, true.
    repeat split; try discriminate.
    intros i Hi. unfold u8_at. rewrite nth_repeat. reflexivity.
  - rewrite length_skipn.
    destruct (Nat.leb_spec n (length data - k)) as [Hle|Hgt].
    + eexists _, _, false. repeat split.
      intros i Hi. rewrite skipn_repeat_all, app_nil_r.
      rewrite u8_at_firstn by exact Hi. apply u8_at_skipn.
    + eexists _, _, true. repeat split; try discriminate.
      intros i Hi. unfold u8_at.
      destruct (Nat.lt_ge_cases i (length data - k)) as [Hin|Hout].
      * rewrite app_nth1 by (rewrite length_skipn; exact Hin).
        rewrite nth_skipn. reflexivity.
      * rewrite app_nth2 by (rewrite length_skipn; exact Hout).
        rewrite nth_skipn, nth_repeat, nth_overflow by lia. reflexivity.
Qed.

(** The two header reads and the two checks, for any file: a field the
    file is too short for is read as 0, and the stream is left in a failed
    state when the file has fewer than 54 bytes. *)
Lemma loadFromImage_headers self fs path data :
  file_at fs path = Some data ->
  exists k failed,
    failed = negb (54 <=? length data)%nat /\
    (failed = false -> k = 54%nat) /\
    loadFromImage self fs path =
    if negb (u16_at data 0 =? 0x4D42)
    then (self, Throws (runtime_error ("Not a valid BMP file: " ++ path)%string))
    else if negb (u32_at data 30 =? 0)
    then (self, Throws (runtime_error ("Unsupported BMP compression: " ++ path)%string))
    else load_pixels {| width := i32_at data 18; height := i32_at data 22;
                        bitDepth := u16_at data 28; pixels := pixels self |}
                     (quiet data k failed) (u32_at data 10).
Proof.
  intro Hf. unfold loadFromImage. rewrite Hf, quiet_open.
  destruct (read_into_zeros data 0 false sizeof_BitmapFileHeader)
    as (fh & k1 & f1 & R1 & Hfh & Hf1 & Hk1).
  rewrite R1.
  destruct (read_into_zeros data k1 f1 sizeof_BitmapInfoHeader)
    as (ih & k2 & f2 & R2 & Hih & Hf2 & Hk2).
  rewrite R2.
  unfold sizeof_BitmapFileHeader, sizeof_BitmapInfoHeader in *.
  cbn [orb Nat.add] in Hf1, Hfh.
  assert (forall i, (i < 40)%nat -> u8_at ih i = u8_at data (14 + i)) as Hih'.
  { intros i Hi. rewrite (Hih i Hi). destruct f1.
    - symmetry. apply u8_at_overflow.
      symmetry in Hf1. apply negb_true_iff, Nat.leb_gt in Hf1. lia.
    - rewrite (Hk1 eq_refl). reflexivity. }
  exists k2, f2.
  split; [|split].
  - rewrite Hf2. destruct f1.
    + symmetry in Hf1. apply negb_true_iff, Nat.leb_gt in Hf1.
      destruct (Nat.leb_spec 54 (length data)); [lia|reflexivity].
    + rewrite (Hk1 eq_refl). cbn [orb Nat.add].
      symmetry in Hf1. apply negb_false_iff, Nat.leb_le in Hf1.
      destruct (Nat.leb_spec 40 (length data - 14)), (Nat.leb_spec 54 (length data));
        try reflexivity; lia.
  - intro E. rewrite E in Hf2. symmetry in Hf2. apply orb_false_elim in Hf2.
    destruct Hf2 as [-> _]. rewrite (Hk2 E), (Hk1 eq_refl). reflexivity.
  - unfold BitmapFileHeader_of_bytes, BitmapInfoHeader_of_bytes, i32_at, u32_at, u16_at.
    cbn [bfType bfOffBits biWidth biHeight biBitCount biCompression].
    rewrite !Hfh, !Hih' by lia. reflexivity.
Qed.

(** On a stream that does not raise, the row loop never throws. *)
Lemma read_rows_settles : forall n y h topDown padded raw data k failed row px px' r,
  read_rows n y h topDown padded raw (quiet data k failed) row px = (px', r) ->
  r = Returns tt \/ r = Undefined.
Proof.
  induction n as [|n IH]; intros y h topDown padded raw data k failed row px px' r H.
  - injection H as _ <-. auto.
  - cbn [read_rows] in H.
    destruct (read_quiet data k failed row (Z.to_nat padded))
      as (row' & k' & failed' & Hread & _).
    rewrite Hread in H.
    destruct (_ && _); [eapply IH; eassumption|].
    injection H as _ <-. auto.
Qed.

Lemma load_pixels_settles self data k failed off self' r :
  load_pixels self (quiet data k failed) off = (self', r) ->
  r = Returns true \/ r = Throws length_error \/ r = Undefined.
Proof.
  unfold load_pixels, row_sizes, pixel_bytes, int_mul, int_add, int_result. intro H.
  repeat match type of H with
         | context [if in_int ?z then _ else _] =>
             destruct (in_int z); cbn [bind] in H;
             [|injection H as _ <-; auto]
         end.
  destruct (_ >? max_size); [injection H as _ <-; auto|].
  rewrite seekg_quiet in H. cbv zeta in H.
  destruct (_ >? max_size); [injection H as _ <-; auto|].
  destruct (read_rows _ _ _ _ _ _ _ _ _) as [px r'] eqn:Hrows.
  apply read_rows_settles in Hrows.
  injection H as _ <-. destruct Hrows as [-> | ->]; auto.
Qed.

(** How a call of [loadFromImage] can end when memory suffices. *)
Lemma loadFromImage_settles self fs path self' r :
  loadFromImage self fs path = (self', r) ->
  r = Returns true \/ r = Undefined \/
  exists e, r = Throws e /\
    (e = invalid_argument ("Failed to open BMP file: " ++ path)%string \/
     e = runtime_error ("Not a valid BMP file: " ++ path)%string \/
     e = runtime_error ("Unsupported BMP compression: " ++ path)%string \/
     e = length_error).
Proof.
  intro H.
  assert (forall e,
            e = invalid_argument ("Failed to open BMP file: " ++ path)%string \/
            e = runtime_error ("Not a valid BMP file: " ++ path)%string \/
            e = runtime_error ("Unsupported BMP compression: " ++ path)%string \/
            e = length_error ->
            r = Throws e ->
            r = Returns true \/ r = Undefined \/
            exists e, r = Throws e /\
              (e = invalid_argument ("Failed to open BMP file: " ++ path)%string \/
               e = runtime_error ("Not a valid BMP file: " ++ path)%string \/
               e = runtime_error ("Unsupported BMP compression: " ++ path)%string \/
               e = length_error)) as Hthrows
    by (intros e He Hr; right; right; exists e; auto).
  destruct (file_at fs path) as [data|] eqn:Hf.
  - destruct (loadFromImage_headers self fs path data Hf) as (k & failed & _ & _ & E).
    rewrite E in H. clear E.
    destruct (negb _); [injection H as _ <-; eapply Hthrows; [|reflexivity]; auto|].
    destruct (negb _); [injection H as _ <-; eapply Hthrows; [|reflexivity]; auto|].
    apply load_pixels_settles in H.
    destruct H as [->|[->| ->]]; auto.
    eapply Hthrows; [|reflexivity]; auto.
  - unfold loadFromImage in H. rewrite Hf in H. injection H as _ <-.
    eapply Hthrows; [|reflexivity]; auto.
Qed.

(** The failures of [loadFromImage].  A path that cannot be opened is an
    [invalid_argument]; a file that does not start with 'BM' -- an empty or
    one-byte file included, the missing bytes being read as 0 -- is "not a
    valid BMP file", and this is checked before the compression field; a
    nonzero compression field is "unsupported".  In these three cases the
    bitmap is left as it was. *)
Theorem loadFromImage_rejects self fs path :
  (file_at fs path = None ->
   loadFromImage self fs path =
   (self, Throws (invalid_argument ("Failed to open BMP file: " ++ path)%string))) /\
  (forall data,
     file_at fs path = Some data ->
     (u16_at data 0 <> 0x4D42 ->
      loadFromImage self fs path =
      (self, Throws (runtime_error ("Not a valid BMP file: " ++ path)%string))) /\
     (u16_at data 0 = 0x4D42 -> u32_at data 30 <> 0 ->
      loadFromImage self fs path =
      (self, Throws (runtime_error ("Unsupported BMP compression: " ++ path)%string)))).
Proof.
  split.
  - intro Hf. unfold loadFromImage. rewrite Hf. reflexivity.
  - intros data Hf.
    destruct (loadFromImage_headers self fs path data Hf) as (k & failed & _ & _ & ->).
    split.
    + intro Hbm. destruct (Z.eqb_spec (u16_at data 0) 19778); [contradiction|reflexivity].
    + intros Hbm Hc. rewrite Hbm. change (negb (19778 =? 19778)) with false. cbv iota.
      destruct (Z.eqb_spec (u32_at data 30) 0); [contradiction|reflexivity].
Qed.

Lemma loadFromImage_rejects_witness :
  loadFromImage empty (one_file []) "empty.bmp" =
  (empty, Throws (runtime_error "Not a valid BMP file: empty.bmp")).
Proof.
  apply (proj1 (proj2 (loadFromImage_rejects empty (one_file []) "empty.bmp")
                  [] eq_refl)).
  discriminate.
Defined.

(** A header that is cut off is not noticed: every file of at most 22
    bytes that starts with 'BM' is loaded, as a bitmap of height 0 and bit
    depth 0 without pixels, and the call returns [true]. *)
Theorem loadFromImage_accepts_cut_header self fs path data :
  file_at fs path = Some data ->
  u16_at data 0 = 0x4D42 ->
  (length data <= 22)%nat ->
  loadFromImage self fs path =
  ({| width := i32_at data 18; height := 0; bitDepth := 0; pixels := [] |},
   Returns true).
Proof.
  intros Hf Hbm HL.
  destruct (loadFromImage_headers self fs path data Hf) as (k & failed & _ & _ & ->).
  assert (forall i, (22 <= i)%nat -> u8_at data i = 0) as Hz
    by (intros i Hi; apply u8_at_overflow; lia).
  assert (u32_at data 30 = 0 /\ i32_at data 22 = 0 /\ u16_at data 28 = 0) as (-> & -> & ->)
    by (unfold i32_at, u32_at, u16_at; rewrite !Hz by lia; auto).
  rewrite Hbm. change (negb (19778 =? 19778)) with false.
  change (negb (0 =? 0)) with false. cbv iota.
  unfold load_pixels, row_sizes, pixel_bytes, int_mul, int_add.
  cbn [width height bitDepth pixels].
  rewrite !Z.mul_0_r. cbn [Z.mul].
  change (int_result 0) with (Returns (A:=Z) 0). cbn [bind Z.add].
  change (int_result 31) with (Returns (A:=Z) 31). cbn [bind].
  change (int_result (31 ÷ 32 * 4)) with (Returns (A:=Z) 0). cbn [bind].
  change (to_size_t 0) with 0. rewrite ?Z.mul_0_r. cbn [Z.mul].
  reflexivity.
Qed.

Lemma loadFromImage_accepts_cut_header_witness :
  loadFromImage empty (one_file [x42; x4d; x00]) "cut.bmp" = (empty, Returns true).
Proof.
  apply (loadFromImage_accepts_cut_header empty (one_file [x42; x4d; x00]) "cut.bmp"
           [x42; x4d; x00] eq_refl eq_refl).
  cbn. lia.
Defined.

End LoaderChecks.

(* ------------------------------------------------------------------ *)
(** ** The failures of the writer *)

Section WriterFailures.

Import bitmap.

Lemma int_result_settles z : int_result z = Returns z \/ int_result z = Undefined.
Proof. unfold int_result. destruct (in_int z); auto. Qed.

Lemma pixel_at_settles px i :
  (exists b, pixel_at px i = Returns b) \/ pixel_at px i = Undefined.
Proof.
  unfold pixel_at. destruct (0 <=? i); [|auto].
  destruct (nth_error px (Z.to_nat i)); eauto.
Qed.

Ltac settle_step :=
  match goal with
  | |- context [bind (int_result ?z) _] =>
      destruct (int_result_settles z) as [-> | ->]; cbn [bind]; [|right; reflexivity]
  | |- context [bind (pixel_at ?p ?i) _] =>
      destruct (pixel_at_settles p i) as [[? ->] | ->]; cbn [bind]; [|right; reflexivity]
  end.

Lemma put_row_settles px y w : forall n x,
  (exists row, put_row n x y w px = Returns row) \/ put_row n x y w px = Undefined.
Proof.
  induction n as [|n IH]; intro x; cbn [put_row]; [left; eexists; reflexivity|].
  unfold int_mul, int_add. repeat settle_step.
  destruct (IH (x + 1)) as [[rest ->] | ->]; cbn [bind];
    [left; eexists; reflexivity|right; reflexivity].
Qed.

Lemma put_rows_settles px w : forall n,
  (exists colour, put_rows n w px = Returns colour) \/ put_rows n w px = Undefined.
Proof.
  induction n as [|n IH]; cbn [put_rows]; [left; eexists; reflexivity|].
  destruct (put_row_settles px (Z.of_nat n) w (Z.to_nat w) 0) as [[row ->] | ->];
    cbn [bind]; [|right; reflexivity].
  destruct IH as [[rest ->] | ->]; cbn [bind];
    [left; eexists; reflexivity|right; reflexivity].
Qed.

(** Once the file is open the writer throws nothing: the vector of the
    mask never exceeds [max_size]. *)
Lemma ico_bytes_settles self :
  0 < width self -> 0 < height self ->
  (exists out, ico_bytes self = Returns out) \/ ico_bytes self = Undefined.
Proof.
  intros Hw Hh.
  destruct (Z.le_gt_cases (width self * height self * 4) INT_MAX) as [Hmax|Hmax].
  - rewrite (ico_bytes_unfold _ Hw Hh Hmax).
    destruct (put_rows_settles (pixels self) (width self) (Z.to_nat (height self)))
      as [[colour ->] | ->]; cbn [bind]; [left; eexists; reflexivity|right; reflexivity].
  - right. unfold ico_bytes, int_mul.
    destruct (int_result_settles (width self * height self)) as [-> | ->];
      cbn [bind]; [|reflexivity].
    unfold int_result at 1, in_int.
    destruct (Z.leb_spec (width self * height self * 4) INT_MAX); [lia|].
    rewrite andb_false_r. reflexivity.
Qed.

(** How a call of [saveToIco] can end, and what it leaves. *)
Lemma saveToIco_settles self fs path fs' r :
  saveToIco self fs path = (fs', r) ->
  (exists out, fs' = fs_write fs path out /\ (r = Returns true \/ r = Undefined)) \/
  fs' = fs /\
  ((width self <= 0 \/ height self <= 0 \/ bitDepth self <> 24) /\
   r = Throws unsupported_bitmap_format \/
   (0 < width self /\ 0 < height self /\ bitDepth self = 24) /\
   writable fs path = false /\
   r = Throws (runtime_error ("Failed to write ICO file: " ++ path)%string)).
Proof.
  unfold saveToIco. intro H.
  destruct (Z.leb_spec (width self) 0) as [Hw|Hw];
    [injection H as <- <-; right; split; [reflexivity|left; auto]|].
  destruct (Z.leb_spec (height self) 0) as [Hh|Hh];
    [injection H as <- <-; right; split; [reflexivity|left; auto]|].
  destruct (Z.eqb_spec (bitDepth self) 24) as [Hd|Hd];
    [|injection H as <- <-; right; split; [reflexivity|left; auto]].
  cbn [orb negb] in H.
  destruct (writable fs path) eqn:Hwr; cbn [negb] in H;
    [|injection H as <- <-; right; split; [reflexivity|right; auto]].
  destruct (ico_bytes_settles self Hw Hh) as [[out E] | E]; rewrite E in H;
    injection H as <- <-; left; eexists; eauto.
Qed.

(** The writer throws in exactly two cases, and has not touched the file
    system in either: the bitmap fails the precondition, which is checked
    first; or the bitmap passes and the path cannot be opened for writing. *)
Theorem saveToIco_throws_iff self fs path fs' e :
  saveToIco self fs path = (fs', Throws e) <->
  fs' = fs /\
  ((width self <= 0 \/ height self <= 0 \/ bitDepth self <> 24) /\
   e = runtime_error "Bitmap must be valid and 24-bit to save as ICO." \/
   (0 < width self /\ 0 < height self /\ bitDepth self = 24) /\
   writable fs path = false /\
   e = runtime_error ("Failed to write ICO file: " ++ path)%string).
Proof.
  split.
  - intro H. apply saveToIco_settles in H.
    destruct H as [(out & _ & [H|H])|(-> & [(Hbad & H)|(Hgood & Hwr & H)])];
      try discriminate; injection H as ->; auto.
  - intros (-> & [(Hbad & ->)|((Hw & Hh & Hd) & Hwr & ->)]); unfold saveToIco.
    + assert ((width self <=? 0) || (height self <=? 0) || negb (bitDepth self =? 24)
              = true) as ->; [|reflexivity].
      destruct (Z.leb_spec (width self) 0); [reflexivity|].
      destruct (Z.leb_spec (height self) 0); [reflexivity|].
      destruct (Z.eqb_spec (bitDepth self) 24); [lia|reflexivity].
    + destruct (Z.leb_spec (width self) 0); [lia|].
      destruct (Z.leb_spec (height self) 0); [lia|].
      rewrite Hd, Hwr. reflexivity.
Qed.

Lemma saveToIco_throws_iff_witness :
  saveToIco empty (mk_filesystem (fun _ => None) (fun _ => false)) "out.ico" =
  (mk_filesystem (fun _ => None) (fun _ => false),
   Throws (runtime_error "Bitmap must be valid and 24-bit to save as ICO.")).
Proof.
  apply (proj2 (saveToIco_throws_iff empty (mk_filesystem (fun _ => None) (fun _ => false))
                  "out.ico" _ _)).
  split; [reflexivity|]. left. split; [|reflexivity]. left. cbn. lia.
Defined.

End WriterFailures.

(* ------------------------------------------------------------------ *)
(** ** [from_bmp]: its dead branches and its traces in the file system *)

Section FromBmp.

Import bitmap.

(** The reader accepts whatever the writer wrote. *)
Lemma icon_after_saveToIco self fs path fs' b :
  saveToIco self fs path = (fs', Returns b) ->
  exists ico, icon.icon fs' path = Returns ico.
Proof.
  intro Hs.
  destruct (saveToIco_returns _ _ _ _ _ Hs) as (Hw & Hh & Hmax & colour & Hcol & ->).
  destruct (size_facts _ _ Hw Hh Hmax) as (_ & _ & _ & _ & Hm).
  set (w := width self) in *. set (h := height self) in *.
  set (rest := colour ++ repeat x00 (Z.to_nat (mask_size w h))).
  destruct (ico_headers_fields w h rest Hw Hh Hmax)
    as (_ & (_ & _ & _ & _ & _ & _ & F14 & _) & _).
  assert (length rest = Z.to_nat (w * h * 4 + mask_size w h)) as Hrest.
  { unfold rest. rewrite length_app, repeat_length, Hcol. unfold INT_MAX in *. nia. }
  assert (Z.to_nat (u32_at (ico_headers w h ++ rest) 14) <= 40 + length rest)%nat as Hfits.
  { rewrite F14, Hrest.
    pose proof (Z.mod_le (40 + (w * h * 4 + mask_size w h)) 4294967296).
    pose proof (Z.mod_pos_bound (40 + (w * h * 4 + mask_size w h)) 4294967296).
    unfold INT_MAX in *. lia. }
  destruct (icon_reads_written w h rest (fs_write fs path (ico_headers w h ++ rest)) path
              Hw Hh Hmax (file_at_fs_write fs _ _) Hfits) as [Hicon _].
  eexists. exact Hicon.
Qed.

(** In the model -- memory suffices and the temporary file can be
    removed -- what [from_bmp] throws is thrown by the loader or is one of
    the two exceptions of the writer. *)
Lemma from_bmp_throws fs bmp_path fs' e :
  icon.from_bmp fs bmp_path = (fs', Throws e) ->
  e = invalid_argument ("Failed to open BMP file: " ++ bmp_path)%string \/
  e = runtime_error ("Not a valid BMP file: " ++ bmp_path)%string \/
  e = runtime_error ("Unsupported BMP compression: " ++ bmp_path)%string \/
  e = length_error \/
  e = runtime_error "Bitmap must be valid and 24-bit to save as ICO." \/
  e = runtime_error ("Failed to write ICO file: " ++ bmp_path ++ ".temp.ico")%string.
Proof.
  intro H. unfold icon.from_bmp in H.
  destruct (loadFromImage empty fs bmp_path) as [bmp r0] eqn:Hload.
  apply loadFromImage_settles in Hload.
  destruct Hload as [->|[->|(e0 & -> & He0)]].
  - cbn [negb] in H.
    destruct (saveToIco bmp fs (bmp_path ++ ".temp.ico")) as [fs1 saved] eqn:Hs.
    destruct (saveToIco_settles _ _ _ _ _ Hs)
      as [(out & _ & [-> | ->])|(_ & [(_ & ->)|(_ & _ & ->)])];
      cbn [bind negb] in H.
    + destruct (icon_after_saveToIco _ _ _ _ _ Hs) as [ico Hi].
      rewrite Hi in H. discriminate.
    + discriminate.
    + injection H as _ <-. unfold unsupported_bitmap_format. tauto.
    + injection H as _ <-. tauto.
  - discriminate.
  - injection H as _ <-. tauto.
Qed.

(** The two [runtime_error]s that [from_bmp] throws itself, for a [false]
    from [loadFromImage] and for a [false] from [saveToIco], are never
    thrown: neither function ever returns [false], and no other exception of
    the call carries one of these two messages. *)
Theorem from_bmp_never_throws_its_own_errors fs bmp_path fs' e :
  icon.from_bmp fs bmp_path = (fs', Throws e) ->
  e <> runtime_error ("Failed to load BMP image from: " ++ bmp_path)%string /\
  e <> runtime_error "Failed to save temporary .ICO file".
Proof.
  intro H. pose proof (from_bmp_throws _ _ _ _ H) as Hlist.
  split; intro E; subst e;
    repeat match type of Hlist with _ \/ _ => destruct Hlist as [Hlist|Hlist] end;
    cbn in Hlist; discriminate Hlist.
Qed.

Lemma from_bmp_never_throws_its_own_errors_witness :
  snd (icon.from_bmp (one_file []) "empty.bmp") =
    Throws (runtime_error "Not a valid BMP file: empty.bmp") /\
  runtime_error "Not a valid BMP file: empty.bmp" <>
    runtime_error "Failed to load BMP image from: empty.bmp".
Proof.
  split; [reflexivity|].
  exact (proj1 (from_bmp_never_throws_its_own_errors (one_file []) "empty.bmp"
                  (one_file []) (runtime_error "Not a valid BMP file: empty.bmp")
                  eq_refl)).
Defined.

Lemma file_at_fs_write_other fs path data p :
  p <> path -> file_at (fs_write fs path data) p = file_at fs p.
Proof. intro H. cbn. destruct (String.eqb_spec p path); [contradiction|reflexivity]. Qed.

Lemma file_at_fs_remove_other fs path p :
  p <> path -> file_at (fs_remove fs path) p = file_at fs p.
Proof. intro H. cbn. destruct (String.eqb_spec p path); [contradiction|reflexivity]. Qed.

(** [from_bmp] touches one path only, [bmp_path] with ".temp.ico"
    appended: every other file is left as it was, however the call ends; and
    a call that fails in the loader has not touched the file system at all. *)
Theorem from_bmp_touches_only_the_temporary_file fs bmp_path fs' r :
  icon.from_bmp fs bmp_path = (fs', r) ->
  (forall p, p <> (bmp_path ++ ".temp.ico")%string -> file_at fs' p = file_at fs p) /\
  (forall p, writable fs' p = writable fs p) /\
  (forall bmp e, loadFromImage empty fs bmp_path = (bmp, Throws e) -> fs' = fs).
Proof.
  unfold icon.from_bmp. intro H.
  destruct (loadFromImage empty fs bmp_path) as [bmp r0] eqn:Hload.
  destruct r0 as [ok|e0| |];
    try (injection H as <- _; split; [|split]; intros; reflexivity).
  destruct ok; cbn [negb] in H;
    [|injection H as <- _; split; [|split]; intros; reflexivity].
  destruct (saveToIco bmp fs (bmp_path ++ ".temp.ico")) as [fs1 saved] eqn:Hs.
  assert ((forall p, p <> (bmp_path ++ ".temp.ico")%string ->
             file_at fs1 p = file_at fs p) /\
          (forall p, writable fs1 p = writable fs p)) as [Hfile Hwr].
  { destruct (saveToIco_settles _ _ _ _ _ Hs) as [(out & -> & _)|(-> & _)].
    - split; [intros p Hp; apply file_at_fs_write_other; exact Hp|reflexivity].
    - split; reflexivity. }
  assert ((forall p, p <> (bmp_path ++ ".temp.ico")%string ->
             file_at (fs_remove fs1 (bmp_path ++ ".temp.ico")) p = file_at fs p) /\
          (forall p, writable (fs_remove fs1 (bmp_path ++ ".temp.ico")) p = writable fs p))
    as [Hfile' Hwr'].
  { split; [|exact Hwr].
    intros p Hp. rewrite file_at_fs_remove_other by exact Hp. apply Hfile, Hp. }
  destruct (match saved with
            | Returns ok' =>
                if negb ok'
                then Throws (runtime_error "Failed to save temporary .ICO file")
                else icon.icon fs1 (bmp_path ++ ".temp.ico")
            | Throws e => Throws e
            | Aborts => Aborts
            | Undefined => Undefined
            end) eqn:Hattempt;
    unfold bind in H; rewrite Hattempt in H; injection H as <- _;
    (split; [first [exact Hfile'|exact Hfile]
            |split; [first [exact Hwr'|exact Hwr]|intros; discriminate]]).
Qed.

Lemma from_bmp_touches_only_the_temporary_file_witness :
  file_at (fst (icon.from_bmp (one_file bmp_2x2) "valid_24bit.bmp")) "other.txt" =
  Some bmp_2x2.
Proof.
  pose (run := icon.from_bmp (one_file bmp_2x2) "valid_24bit.bmp").
  assert (run = (fst run, snd run)) as E by (vm_compute; reflexivity).
  apply (proj1 (from_bmp_touches_only_the_temporary_file
                  (one_file bmp_2x2) "valid_24bit.bmp" (fst run) (snd run) E)
           "other.txt"%string).
  discriminate.
Defined.

(** A bitmap that [loadFromImage] returned and that passes the writer's
    precondition is written without any access out of bounds, provided
    [width * height * 4] fits in an [int]: [saveToIco] returns [true], the
    file exists afterwards, starts with reserved 0, type 1 and count 1, and
    has 62 + width*height*4 + ((width+31)/32)*4*height bytes. *)
Theorem loaded_bitmap_saves self fs bmp_path bmp fs2 ico_path :
  loadFromImage self fs bmp_path = (bmp, Returns true) ->
  0 < width bmp -> 0 < height bmp -> bitDepth bmp = 24 ->
  width bmp * height bmp * 4 <= INT_MAX ->
  writable fs2 ico_path = true ->
  exists out,
    saveToIco bmp fs2 ico_path = (fs_write fs2 ico_path out, Returns true) /\
    file_at (fs_write fs2 ico_path out) ico_path = Some out /\
    u16_at out 0 = 0 /\ u16_at out 2 = 1 /\ u16_at out 4 = 1 /\
    Z.of_nat (length out) =
      62 + width bmp * height bmp * 4 + (width bmp + 31) / 32 * 4 * height bmp.
Proof.
  intros Hload Hw Hh Hd Hmax Hwr.
  assert (len (pixels bmp) = width bmp * height bmp * 3) as Hpx.
  { destruct (loadFromImage_buffer_size _ _ _ _ _ Hload) as [Hwh ->].
    rewrite Hd. change (to_size_t (24 ÷ 8)) with 3.
    unfold to_size_t, SIZE_MOD, INT_MIN, INT_MAX in *.
    rewrite (Z.mod_small (width bmp * height bmp)) by nia.
    apply Z.mod_small. nia. }
  destruct (size_facts _ _ Hw Hh Hmax) as (_ & _ & _ & _ & Hm).
  eexists. split; [apply saveToIco_run; auto; lia|].
  split; [apply file_at_fs_write|].
  destruct (ico_headers_fields (width bmp) (height bmp)
              (colour_plane (width bmp) (height bmp) (pixels bmp) ++
               repeat x00 (Z.to_nat (mask_size (width bmp) (height bmp)))) Hw Hh Hmax)
    as ((F0 & F2 & F4) & _).
  repeat match goal with |- _ /\ _ => split end; try assumption.
  rewrite !length_app, length_ico_headers, length_colour_plane, repeat_length.
  unfold mask_size in *. unfold INT_MAX in *. nia.
Qed.

Lemma loaded_bitmap_saves_witness :
  snd (saveToIco (fst (loadFromImage empty (one_file bmp_2x2) "valid_24bit.bmp"))
         (one_file bmp_2x2) "output_icon.ico") = Returns true.
Proof.
  pose (run := loadFromImage empty (one_file bmp_2x2) "valid_24bit.bmp").
  assert (run = (fst run, Returns true)) as E by (vm_compute; reflexivity).
  change (snd (saveToIco (fst run) (one_file bmp_2x2) "output_icon.ico") = Returns true).
  destruct (loaded_bitmap_saves empty (one_file bmp_2x2) "valid_24bit.bmp" (fst run)
              (one_file bmp_2x2) "output_icon.ico" E
              ltac:(vm_compute; reflexivity) ltac:(vm_compute; reflexivity)
              ltac:(vm_compute; reflexivity) ltac:(vm_compute; discriminate)
              ltac:(reflexivity))
    as (out & -> & _).
  reflexivity.
Defined.

End FromBmp.

(* ------------------------------------------------------------------ *)
(** ** From a BMP file to the icon, end to end *)

Section EndToEnd.

Import bitmap.

Lemma nth_flat_map_rows {A : Type} (f : nat -> list A) (R : nat) (d : A) : forall l q i,
  (forall j, In j l -> length (f j) = R) ->
  (q < length l)%nat -> (i < R)%nat ->
  nth (q * R + i) (flat_map f l) d = nth i (f (nth q l 0%nat)) d.
Proof.
  induction l as [|a l IH]; intros q i Hlen Hq Hi; [cbn in Hq; lia|].
  assert (length (f a) = R) as Ha by (apply Hlen; left; reflexivity).
  cbn [flat_map]. destruct q as [|q].
  - cbn [Nat.mul Nat.add nth]. apply app_nth1. lia.
  - rewrite app_nth2 by (rewrite Ha; cbn; lia).
    replace (S q * R + i - length (f a))%nat with (q * R + i)%nat by (rewrite Ha; cbn; lia).
    cbn [nth]. cbn [length] in Hq.
    apply IH; [intros j Hj; apply Hlen; right; exact Hj|lia|exact Hi].
Qed.

Lemma nth_rev_seq n y : (y < n)%nat -> nth y (rev (seq 0 n)) 0%nat = (n - 1 - y)%nat.
Proof.
  intro Hy. rewrite rev_nth by (rewrite length_seq; exact Hy).
  rewrite length_seq, seq_nth by lia. lia.
Qed.

Lemma flat_map_rev_seq {A : Type} (f : nat -> list A) n :
  flat_map (fun y => f (n - 1 - y)%nat) (rev (seq 0 n)) = flat_map f (seq 0 n).
Proof.
  assert (map (fun y => (n - 1 - y)%nat) (rev (seq 0 n)) = seq 0 n) as E.
  { apply (nth_ext _ _ (n - 1 - 0)%nat 0%nat).
    - rewrite length_map, length_rev. reflexivity.
    - intros k Hk. rewrite length_map, length_rev, length_seq in Hk.
      rewrite (map_nth (fun y => (n - 1 - y)%nat)), nth_rev_seq, seq_nth by exact Hk.
      lia. }
  rewrite <- E at 2. rewrite !flat_map_concat_map, map_map. reflexivity.
Qed.

(** The writer's colour plane of a buffer made of rows stored last row
    first is the rows in their own order, each one widened. *)
Lemma colour_plane_of_rows (rows : nat -> list byte) w h :
  0 < w -> 0 < h ->
  (forall j, (j < Z.to_nat h)%nat -> length (rows j) = Z.to_nat (w * 3)) ->
  colour_plane w h (flat_map rows (rev (seq 0 (Z.to_nat h)))) =
  flat_map (fun j => bgra_row w 0 (rows j)) (seq 0 (Z.to_nat h)).
Proof.
  intros Hw Hh Hlen.
  set (n := Z.to_nat h) in *. set (px := flat_map rows (rev (seq 0 n))).
  unfold colour_plane. fold n.
  rewrite <- (flat_map_rev_seq (fun j => bgra_row w 0 (rows j)) n).
  rewrite !flat_map_concat_map. f_equal. apply map_ext_in. intros y Hy.
  apply in_rev, in_seq in Hy.
  unfold bgra_row. rewrite !flat_map_concat_map. f_equal. apply map_ext_in.
  intros x Hx. apply in_seq in Hx.
  assert (forall c, 0 <= c < 3 ->
            nth (Z.to_nat ((Z.of_nat y * w + Z.of_nat x) * 3 + c)) px x00 =
            nth (Z.to_nat ((0 * w + Z.of_nat x) * 3 + c)) (rows (n - 1 - y)%nat) x00)
    as Hc.
  { intros c Hc.
    replace (Z.to_nat ((Z.of_nat y * w + Z.of_nat x) * 3 + c))
      with (y * Z.to_nat (w * 3) + (x * 3 + Z.to_nat c))%nat by nia.
    unfold px. rewrite (nth_flat_map_rows rows (Z.to_nat (w * 3)) x00).
    - rewrite nth_rev_seq by lia. f_equal. lia.
    - intros j Hj. apply in_rev, in_seq in Hj. apply Hlen. lia.
    - rewrite length_rev, length_seq. lia.
    - lia. }
  unfold bgra. rewrite !Hc by lia. reflexivity.
Qed.

Lemma byte_of_Z_mod z : byte_of_Z (z mod 256) = byte_of_Z z.
Proof. unfold byte_of_Z. rewrite Z.mod_mod by lia. reflexivity. Qed.

(** [from_bmp] on a complete bottom-up 24-bit BMP whose sizes fit in an
    [int] and in the 32-bit size field, the temporary path being writable:
    the icon has one image, made of
    the 40-byte info header (height doubled, 32 bits), the rows of the BMP
    file in the file's own order -- the loader's flip and the writer's flip
    cancel -- with the row padding dropped and every pixel followed by 255,
    and the zero mask; [get_header] gives the 6-byte header of a one-image
    icon and one record with the width and the height modulo 256, 1 plane,
    32 bits, the size of the image and id 1. *)
Theorem from_bmp_end_to_end fs bmp_path data :
  file_at fs bmp_path = Some data ->
  (54 <= length data)%nat ->
  u16_at data 0 = 0x4D42 -> u32_at data 30 = 0 -> u16_at data 28 = 24 ->
  let w := i32_at data 18 in
  let h := i32_at data 22 in
  let off := Z.to_nat (u32_at data 10) in
  let P := Z.to_nat ((24 * w + 31) / 32 * 4) in
  let R := Z.to_nat (w * 3) in
  0 < w -> 0 < h ->
  24 * w + 31 <= INT_MAX -> w * h * 4 <= INT_MAX ->
  40 + (w * h * 4 + mask_size w h) < 4294967296 ->
  (off + Z.to_nat h * P <= length data)%nat ->
  writable fs (bmp_path ++ ".temp.ico")%string = true ->
  exists ico,
    snd (icon.from_bmp fs bmp_path) = Returns ico /\
    icon.images ico =
      [bytes_of_BitmapInfoHeader
         {| biSize := 40; biWidth := w; biHeight := h * 2; biPlanes := 1;
            biBitCount := 32; biCompression := 0; biSizeImage := w * h * 4;
            biXPelsPerMeter := 0; biYPelsPerMeter := 0;
            biClrUsed := 0; biClrImportant := 0 |} ++
       flat_map (fun j => bgra_row w 0 (file_row data off P R j)) (seq 0 (Z.to_nat h)) ++
       repeat x00 (Z.to_nat (mask_size w h))] /\
    icon.get_header ico =
      [x00; x00; x01; x00; x01; x00;
       byte_of_Z w; byte_of_Z h; x00; x00; x01; x00; x20; x00] ++
      enc_u32 (40 + (w * h * 4 + mask_size w h)) ++ [x01; x00].
Proof.
  intros Hf HL Hbm Hcomp Hbits w h off P R Hw Hh Hrow Hmax Hfit Hdata Hwr.
  destruct (size_facts _ _ Hw Hh Hmax) as (Hwh & Hhw & _ & _ & Hm).
  pose proof (bottom_up_file_loads empty fs bmp_path data Hf HL Hbm Hcomp) as Hload.
  cbv zeta in Hload. rewrite Hbits in Hload. change (24 / 8) with 3 in Hload.
  fold w h off P R in Hload.
  specialize (Hload Hw Hh ltac:(lia) Hrow ltac:(unfold INT_MAX in *; lia) Hdata).
  set (px := flat_map (file_row data off P R) (rev (seq 0 (Z.to_nat h)))) in *.
  assert (R <= P)%nat as HRP.
  { unfold R, P, INT_MAX in *. apply Z2Nat.inj_le; [lia| |];
      Z.div_mod_to_equations; lia. }
  assert (forall j, (j < Z.to_nat h)%nat -> length (file_row data off P R j) = R) as Hrows.
  { intros j Hj. apply length_file_row; [exact HRP|]. nia. }
  assert (len px = w * h * 3) as Hpx.
  { unfold len, px.
    rewrite (flat_map_constant_length (c := R))
      by (intros j Hj; apply in_rev, in_seq in Hj; apply Hrows; lia).
    rewrite length_rev, length_seq. unfold R. nia. }
  set (bmp := {| width := w; height := h; bitDepth := 24; pixels := px |}) in *.
  pose proof (saveToIco_run bmp fs (bmp_path ++ ".temp.ico") Hw Hh eq_refl Hmax
                ltac:(cbn [width height pixels bmp]; lia) Hwr) as Hsave.
  cbn [width height pixels bmp] in Hsave.
  unfold px in Hsave at 1. rewrite (colour_plane_of_rows _ w h Hw Hh Hrows) in Hsave.
  set (rest := flat_map (fun j => bgra_row w 0 (file_row data off P R j))
                        (seq 0 (Z.to_nat h)) ++
               repeat x00 (Z.to_nat (mask_size w h))) in *.
  set (out := ico_headers w h ++ rest) in *.
  destruct (ico_headers_fields w h rest Hw Hh Hmax)
    as ((F0 & F2 & F4) & (F6 & F7 & F8 & F9 & F10 & F12 & F14 & _) & _).
  fold out in F0, F2, F4, F6, F7, F8, F9, F10, F12, F14.
  assert (length rest = Z.to_nat (w * h * 4 + mask_size w h)) as Hrest.
  { unfold rest. rewrite length_app, repeat_length.
    rewrite (flat_map_constant_length (c := (Z.to_nat w * 4)%nat))
      by (intros; apply length_bgra_row).
    rewrite length_seq. unfold INT_MAX in *. nia. }
  assert (u32_at out 14 = 40 + (w * h * 4 + mask_size w h)) as Hsize
    by (rewrite F14; apply Z.mod_small; unfold INT_MAX in *; lia).
  destruct (icon_reads_written w h rest
              (fs_write fs (bmp_path ++ ".temp.ico") out) (bmp_path ++ ".temp.ico")
              Hw Hh Hmax (file_at_fs_write fs _ out)
              ltac:(fold out; rewrite Hsize, Hrest; unfold INT_MAX in *; lia))
    as [Hicon Himg].
  fold out in Hicon, Himg.
  exists (loaded out). split; [|split].
  - unfold icon.from_bmp. rewrite Hload. cbn [negb]. rewrite Hsave. cbn [bind negb].
    rewrite Hicon. reflexivity.
  - rewrite Himg, Hsize. f_equal.
    rewrite firstn_all2
      by (rewrite length_skipn; unfold out; rewrite length_app, length_ico_headers, Hrest;
          unfold INT_MAX in *; lia).
    reflexivity.
  - rewrite get_header_concat. cbn [icon.resource_header icon.resource_entries loaded].
    rewrite serialize_header_of_bytes
      by (unfold out; rewrite length_app, length_ico_headers; lia).
    unfold directory. rewrite F4. change (Z.to_nat 1) with 1%nat.
    cbn [seq map numbered concat]. unfold dir_entry.
    rewrite serialize_entry_of_bytes
      by (rewrite length_skipn; unfold out; rewrite length_app, length_ico_headers; lia).
    rewrite app_nil_r.
    change (firstn 6 out) with [x00; x00; x01; x00; x01; x00].
    change (firstn 12 (skipn (6 + 16 * 0) out))
      with ([byte_of_Z (to_u8 w); byte_of_Z (to_u8 h); x00; x00; x01; x00; x20; x00] ++
            enc_u32 (to_u32 (40 + (w * h * 4 + mask_size w h)))).
    unfold to_u8, to_u32. rewrite !byte_of_Z_mod.
    rewrite (Z.mod_small (40 + (w * h * 4 + mask_size w h)))
      by (unfold INT_MAX in *; lia).
    change (enc_u16 (0 + 1)) with [x01; x00]. reflexivity.
Qed.

Lemma from_bmp_end_to_end_witness :
  exists ico,
    snd (icon.from_bmp (one_file bmp_2x2) "valid_24bit.bmp") = Returns ico /\
    skipn 40 (hd [] (icon.images ico)) =
      [x01; x02; x03; xff; x04; x05; x06; xff;
       x11; x12; x13; xff; x14; x15; x16; xff;
       x00; x00; x00; x00; x00; x00; x00; x00].
Proof.
  destruct (from_bmp_end_to_end (one_file bmp_2x2) "valid_24bit.bmp" bmp_2x2
              eq_refl ltac:(apply Nat.leb_le; reflexivity) eq_refl eq_refl eq_refl
              ltac:(reflexivity) ltac:(reflexivity)
              ltac:(vm_compute; discriminate) ltac:(vm_compute; discriminate)
              ltac:(reflexivity)
              ltac:(apply Nat.leb_le; reflexivity) eq_refl)
    as (ico & Hrun & Himg & _).
  exists ico. split; [exact Hrun|].
  rewrite Himg. reflexivity.
Defined.

End EndToEnd.

(* ------------------------------------------------------------------ *)
(** ** Top-down files *)

Section TopDown.

Import bitmap.

(** What the loader does with a top-down file ([biHeight] negative).  The
    height is stored as it is read, so [width * height] is negative and its
    conversion to [std::size_t] is huge: with 8 or more bits per pixel
    [pixels.resize] throws [std::length_error], the three integer members
    already overwritten; below 8 bits the byte count is 0, the row loop does
    not run, and the call returns [true] with a negative height and no
    pixels. *)
Theorem loadFromImage_top_down self fs path data :
  file_at fs path = Some data ->
  u16_at data 0 = 0x4D42 -> u32_at data 30 = 0 ->
  let w := i32_at data 18 in
  let h := i32_at data 22 in
  let bits := u16_at data 28 in
  0 < w -> h < 0 -> bits * w + 31 <= INT_MAX -> INT_MIN <= w * h ->
  (8 <= bits ->
   loadFromImage self fs path =
   ({| width := w; height := h; bitDepth := bits; pixels := pixels self |},
    Throws length_error)) /\
  (bits < 8 ->
   loadFromImage self fs path =
   ({| width := w; height := h; bitDepth := bits; pixels := [] |}, Returns true)).
Proof.
  intros Hf Hbm Hcomp w h bits Hw Hh Hrow Hwh.
  pose proof (u16_at_range data 28) as Hb. fold bits in Hb.
  destruct (loadFromImage_headers self fs path data Hf) as (k & failed & _ & _ & ->).
  rewrite Hbm, Hcomp. change (negb (19778 =? 19778)) with false.
  change (negb (0 =? 0)) with false. cbv iota. fold w h bits.
  unfold INT_MAX, INT_MIN in *.
  assert (0 <= bits / 8 <= 8191) as Hbpp by (Z.div_mod_to_equations; lia).
  assert (0 <= (bits * w + 31) / 32 /\ (bits * w + 31) / 32 * 32 <= bits * w + 31)
    as (Hq0 & Hq).
  { pose proof (Z.mul_div_le (bits * w + 31) 32 ltac:(lia)).
    split; [apply Z.div_pos; nia|lia]. }
  assert (w * h < 0) as Hneg by nia.
  unfold load_pixels, row_sizes, pixel_bytes, int_mul, int_add.
  cbn [width height bitDepth pixels].
  rewrite (int_result_ok (bits * w)) by (unfold INT_MIN, INT_MAX; nia). cbn [bind].
  rewrite (int_result_ok (bits * w + 31)) by (unfold INT_MIN, INT_MAX; nia). cbn [bind].
  rewrite (Z.quot_div_nonneg (bits * w + 31) 32) by nia.
  rewrite (int_result_ok ((bits * w + 31) / 32 * 4)) by (unfold INT_MIN, INT_MAX; nia).
  cbn [bind].
  rewrite (int_result_ok (w * h)) by (unfold INT_MIN, INT_MAX; nia). cbn [bind].
  rewrite (Z.quot_div_nonneg bits 8) by lia.
  unfold to_size_t, SIZE_MOD.
  rewrite (Z.mod_small (bits / 8)) by lia.
  rewrite Z.mul_mod_idemp_l by lia.
  split; intro Hbits.
  - assert (1 <= bits / 8) by (Z.div_mod_to_equations; lia).
    assert (- 2 ^ 45 <= w * h * (bits / 8) < 0) as Hn by nia.
    rewrite <- (Z.mod_add (w * h * (bits / 8)) 1 (2 ^ 64)) by lia.
    rewrite (Z.mod_small (w * h * (bits / 8) + 1 * 2 ^ 64)) by lia.
    destruct (Z.gtb_spec (w * h * (bits / 8) + 1 * 2 ^ 64) max_size);
      [reflexivity|unfold max_size in *; lia].
  - assert (bits / 8 = 0) as -> by (Z.div_mod_to_equations; lia).
    rewrite Z.mul_0_r. change (0 mod 2 ^ 64) with 0.
    change (0 >? max_size) with false. cbv iota.
    rewrite seekg_quiet.
    rewrite (Z.mod_small ((bits * w + 31) / 32 * 4)) by lia.
    destruct (Z.gtb_spec ((bits * w + 31) / 32 * 4) max_size);
      [unfold max_size in *; lia|].
    cbn [width height bitDepth pixels].
    replace (Z.to_nat h) with 0%nat by lia.
    destruct (Z.ltb_spec h 0); [reflexivity|lia].
Qed.

Lemma loadFromImage_top_down_witness :
  loadFromImage empty (one_file bmp_top_down_24bpp) "top_down.bmp" =
  ({| width := 2; height := -2; bitDepth := 24; pixels := [] |}, Throws length_error).
Proof.
  apply (proj1 (loadFromImage_top_down empty (one_file bmp_top_down_24bpp) "top_down.bmp"
                  bmp_top_down_24bpp eq_refl eq_refl eq_refl
                  ltac:(reflexivity) ltac:(reflexivity)
                  ltac:(vm_compute; discriminate) ltac:(vm_compute; discriminate))).
  vm_compute. discriminate.
Defined.

End TopDown.

(* ------------------------------------------------------------------ *)
(** ** The images against the file *)

Section Payload.

Import icon.

Lemma firstn_plus {A : Type} (l : list A) : forall a b,
  firstn (a + b) l = firstn a l ++ firstn b (skipn a l).
Proof.
  induction l as [|x l IH]; intros a b.
  - rewrite skipn_nil, !firstn_nil. reflexivity.
  - destruct a as [|a]; [reflexivity|].
    cbn [Nat.add firstn skipn app]. rewrite IH. reflexivity.
Qed.

Lemma concat_blobs_from data es : forall k,
  concat (blobs_from data k es) = firstn (payload_size es) (skipn k data).
Proof.
  induction es as [|e es IH]; intro k; [reflexivity|].
  cbn [blobs_from concat]. rewrite IH, payload_size_cons, firstn_plus, skipn_skipn.
  do 3 f_equal. lia.
Qed.

(** The images of a loaded icon are a partition of the bytes behind the
    entry table: put end to end, in order, they are the run of the file from
    offset 6 + 16 * count to the end of the last blob; no byte of that run
    is skipped and none is read twice. *)
Theorem images_partition_the_payload fs file_path data ico :
  file_at fs file_path = Some data ->
  icon fs file_path = Returns ico ->
  let table_end := (6 + 16 * Z.to_nat (u16_at data 4))%nat in
  concat (images ico) =
    firstn (list_sum (map (@length byte) (images ico))) (skipn table_end data) /\
  (table_end + list_sum (map (@length byte) (images ico)) <= length data)%nat.
Proof.
  intros Hf H table_end.
  destruct (icon_loaded_inv _ _ _ _ Hf H) as [(_ & _ & Hlen) ->].
  cbn [images loaded]. fold table_end in Hlen |- *.
  assert (forall es k, (k + payload_size es <= length data)%nat ->
            list_sum (map (@length byte) (blobs_from data k es)) = payload_size es) as Hsum.
  { induction es as [|e es IH]; intros k Hk; [reflexivity|].
    rewrite payload_size_cons in Hk |- *.
    cbn [blobs_from map list_sum fold_right].
    change (fold_right Nat.add 0%nat (map (@length byte) (blobs_from data (k + blob_size e) es)))
      with (list_sum (map (@length byte) (blobs_from data (k + blob_size e) es))).
    rewrite IH by lia. rewrite length_firstn, length_skipn. lia. }
  rewrite (Hsum _ _ Hlen). split; [apply concat_blobs_from|exact Hlen].
Qed.

Lemma images_partition_the_payload_witness :
  concat (images (loaded two_images)) = [xaa; xbb; xcc].
Proof.
  assert (icon (one_file two_images) "two.ico" = Returns (loaded two_images)) as E
    by (vm_compute; reflexivity).
  rewrite (proj1 (images_partition_the_payload (one_file two_images) "two.ico" two_images
                    (loaded two_images) eq_refl E)).
  vm_compute. reflexivity.
Defined.

End Payload.

(* ------------------------------------------------------------------ *)
(** ** The header fields the loader never reads *)

Section UnusedFields.

Import bitmap.

(** The header bytes of the fields [loadFromImage] makes no use of:
    [bfSize] and the two reserved words (2 to 9), [biSize] (14 to 17),
    [biPlanes] (26, 27), and [biSizeImage] to [biClrImportant] (34 to 53). *)
Definition unused_header_byte (i : nat) : bool :=
  ((2 <=? i) && (i <? 10) || (14 <=? i) && (i <? 18) ||
   (26 <=? i) && (i <? 28) || (34 <=? i) && (i <? 54))%nat.

(** Two streams that are both failed, or are at the same position of files
    that agree from there on, are read alike. *)
Lemma istream_read_agree d d' k k' f buf n :
  (f = false -> k = k' /\ skipn k d = skipn k d') ->
  exists buf' k1 k1' f1,
    istream_read (quiet d k f) buf n = Some (buf', quiet d k1 f1) /\
    istream_read (quiet d' k' f) buf n = Some (buf', quiet d' k1' f1) /\
    (f1 = false -> k1 = k1' /\ skipn k1 d = skipn k1 d').
Proof.
  intro H. unfold istream_read, quiet. cbn [failbit contents gpos exceptions_mask].
  destruct f.
  - exists buf, k, k', true. repeat split; discriminate.
  - destruct (H eq_refl) as [<- E]. rewrite <- E.
    destruct (n <=? length (skipn k d))%nat.
    + eexists _, _, _, false. repeat split.
      rewrite (Nat.add_comm k n), <- !skipn_skipn, E. reflexivity.
    + eexists _, _, _, true. repeat split; discriminate.
Qed.

Lemma read_rows_agree : forall n y h topDown padded raw d d' k k' f row px,
  (f = false -> k = k' /\ skipn k d = skipn k d') ->
  read_rows n y h topDown padded raw (quiet d k f) row px =
  read_rows n y h topDown padded raw (quiet d' k' f) row px.
Proof.
  induction n as [|n IH]; intros y h topDown padded raw d d' k k' f row px H;
    [reflexivity|].
  cbn [read_rows].
  destruct (istream_read_agree d d' k k' f row (Z.to_nat padded) H)
    as (row' & k1 & k1' & f1 & -> & -> & H1).
  destruct (_ && _); [apply IH; exact H1|reflexivity].
Qed.

Lemma load_pixels_agree self d d' k k' f off :
  (f = false -> skipn (Z.to_nat off) d = skipn (Z.to_nat off) d') ->
  load_pixels self (quiet d k f) off = load_pixels self (quiet d' k' f) off.
Proof.
  intro H. unfold load_pixels.
  destruct (row_sizes self) as [[[bytesPerPixel paddedRowSize] rawRowSize]| | |];
    try reflexivity.
  destruct (pixel_bytes self bytesPerPixel) as [n| | |]; try reflexivity.
  destruct (n >? max_size); [reflexivity|].
  rewrite !seekg_quiet. cbv zeta.
  destruct (paddedRowSize >? max_size); [reflexivity|].
  rewrite (read_rows_agree _ _ _ _ _ _ d d' (if f then k else Z.to_nat off)
             (if f then k' else Z.to_nat off) f); [reflexivity|].
  intros ->. split; [reflexivity|apply H; reflexivity].
Qed.

(** Two files of the same length that differ only in bytes of the unused
    header fields, the pixel data starting behind the headers, are loaded
    alike: the same bitmap and the same outcome.  None of these fields is
    read, so none of them is validated. *)
Theorem loadFromImage_ignores_unused_fields self fs fs' path data data' :
  file_at fs path = Some data ->
  file_at fs' path = Some data' ->
  length data = length data' ->
  (forall i, unused_header_byte i = false -> nth i data x00 = nth i data' x00) ->
  54 <= u32_at data 10 ->
  loadFromImage self fs path = loadFromImage self fs' path.
Proof.
  intros Hf Hf' HL Hsame Hoff.
  assert (forall i, unused_header_byte i = false -> u8_at data i = u8_at data' i) as H8
    by (intros i Hi; unfold u8_at; rewrite (Hsame i Hi); reflexivity).
  assert (u16_at data 0 = u16_at data' 0 /\ u32_at data 10 = u32_at data' 10 /\
          i32_at data 18 = i32_at data' 18 /\ i32_at data 22 = i32_at data' 22 /\
          u16_at data 28 = u16_at data' 28 /\ u32_at data 30 = u32_at data' 30)
    as (E0 & E10 & E18 & E22 & E28 & E30)
    by (unfold i32_at, u32_at, u16_at; rewrite !H8 by reflexivity; auto 7).
  destruct (loadFromImage_headers self fs path data Hf) as (k & f & Hfail & _ & ->).
  destruct (loadFromImage_headers self fs' path data' Hf') as (k' & f' & Hfail' & _ & ->).
  rewrite <- HL in Hfail'. rewrite <- Hfail in Hfail'. subst f'.
  rewrite <- E0, <- E10, <- E18, <- E22, <- E28, <- E30.
  destruct (negb (u16_at data 0 =? 19778)); [reflexivity|].
  destruct (negb (u32_at data 30 =? 0)); [reflexivity|].
  apply load_pixels_agree. intros _.
  apply (nth_ext _ _ x00 x00); [rewrite !length_skipn, HL; reflexivity|].
  intros i _. rewrite !nth_skipn. apply Hsame.
  unfold unused_header_byte.
  assert (54 <= Z.to_nat (u32_at data 10) + i)%nat as Hi by lia.
  repeat match goal with
         | |- context [(?a <? ?b)%nat] => destruct (Nat.ltb_spec a b); [lia|]
         end.
  rewrite !andb_false_r. reflexivity.
Qed.

(** [bmp_2x2] with other values in the unused fields: a [bfSize] of
    0xFFFFFFFF and a [biSize] and [biPlanes] of 0. *)
Definition bmp_2x2_odd_header : list byte :=
  [x42; x4d; xff; xff; xff; xff] ++ skipn 6 (firstn 14 bmp_2x2) ++
  [x00; x00; x00; x00] ++ skipn 18 (firstn 26 bmp_2x2) ++
  [x00; x00] ++ skipn 28 bmp_2x2.

Lemma loadFromImage_ignores_unused_fields_witness :
  loadFromImage empty (one_file bmp_2x2_odd_header) "valid_24bit.bmp" =
  loadFromImage empty (one_file bmp_2x2) "valid_24bit.bmp".
Proof.
  apply (loadFromImage_ignores_unused_fields empty (one_file bmp_2x2_odd_header)
           (one_file bmp_2x2) "valid_24bit.bmp" bmp_2x2_odd_header bmp_2x2
           eq_refl eq_refl eq_refl).
  - intros i Hi.
    do 54 (destruct i as [|i]; [first [reflexivity|discriminate Hi]|]).
    reflexivity.
  - vm_compute. discriminate.
Defined.

End UnusedFields.

(* ------------------------------------------------------------------ *)
(** ** Files that are cut short *)

Section Truncation.

Import bitmap.

(** The row loop of a bottom-up file runs to its end on any stream that
    does not raise, whatever is left to read: every row lands inside the
    buffer. *)
Lemma read_rows_completes P R h : forall n y data k failed row px,
  (y + n = h)%nat -> (0 < R)%nat -> (R <= P)%nat ->
  Z.of_nat h * Z.of_nat R < SIZE_MOD ->
  length row = P -> length px = (h * R)%nat ->
  exists px',
    read_rows n (Z.of_nat y) (Z.of_nat h) false (Z.of_nat P) (Z.of_nat R)
      (quiet data k failed) row px = (px', Returns tt) /\
    length px' = (h * R)%nat.
Proof.
  induction n as [|n IH]; intros y data k failed row px Hy HR0 HRP Hsmall Hrow Hpx.
  - exists px. split; [reflexivity|exact Hpx].
  - cbn [read_rows]. rewrite Nat2Z.id.
    destruct (read_quiet data k failed row P) as (row' & k' & failed' & -> & Hlen).
    assert (length row' = P) as Hrow' by lia.
    unfold to_size_t, len. rewrite Hrow', Hpx.
    assert (Z.of_nat h - 1 - Z.of_nat y = Z.of_nat (h - 1 - y)) as -> by lia.
    unfold SIZE_MOD in *.
    rewrite (Z.mod_small (Z.of_nat (h - 1 - y))) by nia.
    rewrite (Z.mod_small (Z.of_nat (h - 1 - y) * Z.of_nat R)) by nia.
    destruct (Z.leb_spec (Z.of_nat R) (Z.of_nat P)); [|lia].
    destruct (Z.leb_spec (Z.of_nat (h - 1 - y) * Z.of_nat R + Z.of_nat R)
                (Z.of_nat (h * R))); [|nia].
    destruct (Z.ltb_spec (Z.of_nat (h - 1 - y) * Z.of_nat R) (Z.of_nat (h * R))).
    + cbn [andb]. replace (Z.of_nat y + 1) with (Z.of_nat (S y)) by lia.
      apply IH; try assumption; try lia.
      rewrite length_write_at; [exact Hpx|].
      rewrite length_firstn, Nat2Z.id, Hrow', Hpx. nia.
    + exfalso. nia.
Qed.

(** A bottom-up file with a valid signature, no compression and sizes
    within [int] is loaded whether or not its pixel rows are there: the call
    returns [true] with the dimensions of the header and a buffer of
    [width * height * (bitDepth / 8)] bytes, also when rows are missing or
    [bfOffBits] points behind the end.  A file that is cut short is never
    reported.  The buffer is taken to be no larger than the file, so that
    its allocation is not in question. *)
Theorem loadFromImage_never_reports_truncation self fs path data :
  file_at fs path = Some data ->
  u16_at data 0 = 0x4D42 -> u32_at data 30 = 0 ->
  let w := i32_at data 18 in
  let h := i32_at data 22 in
  let bits := u16_at data 28 in
  0 < w -> 0 < h -> 8 <= bits ->
  bits * w + 31 <= INT_MAX -> w * h <= INT_MAX ->
  w * h * (bits / 8) <= len data ->
  exists px,
    loadFromImage self fs path =
    ({| width := w; height := h; bitDepth := bits; pixels := px |}, Returns true) /\
    len px = w * h * (bits / 8).
Proof.
  intros Hf Hbm Hcomp w h bits Hw Hh Hbits Hrow Hwh _.
  pose proof (u16_at_range data 28) as Hb. fold bits in Hb.
  destruct (loadFromImage_headers self fs path data Hf) as (k & failed & _ & _ & ->).
  rewrite Hbm, Hcomp. change (negb (19778 =? 19778)) with false.
  change (negb (0 =? 0)) with false. cbv iota. fold w h bits.
  unfold INT_MAX in *.
  assert (1 <= bits / 8 <= 8191 /\ bits / 8 * 8 <= bits) as (Hbpp & Hbpp8)
    by (Z.div_mod_to_equations; lia).
  assert (0 <= (bits * w + 31) / 32 /\
          bits * w <= (bits * w + 31) / 32 * 32 <= bits * w + 31) as (Hq0 & Hq).
  { pose proof (Z.mul_div_le (bits * w + 31) 32 ltac:(lia)).
    pose proof (Z.mod_pos_bound (bits * w + 31) 32 ltac:(lia)).
    pose proof (Z.div_mod (bits * w + 31) 32 ltac:(lia)).
    split; [apply Z.div_pos; nia|lia]. }
  unfold load_pixels, row_sizes, pixel_bytes, int_mul, int_add.
  cbn [width height bitDepth pixels].
  rewrite (int_result_ok (bits * w)) by (unfold INT_MIN, INT_MAX; nia). cbn [bind].
  rewrite (int_result_ok (bits * w + 31)) by (unfold INT_MIN, INT_MAX; nia). cbn [bind].
  rewrite (Z.quot_div_nonneg (bits * w + 31) 32) by nia.
  rewrite (int_result_ok ((bits * w + 31) / 32 * 4)) by (unfold INT_MIN, INT_MAX; nia).
  cbn [bind].
  rewrite (int_result_ok (w * h)) by (unfold INT_MIN, INT_MAX; nia). cbn [bind].
  rewrite (Z.quot_div_nonneg bits 8) by lia.
  unfold to_size_t, SIZE_MOD.
  rewrite (Z.mod_small (bits / 8)) by lia.
  rewrite (Z.mod_small ((bits * w + 31) / 32 * 4)) by nia.
  rewrite (Z.mod_small w) by lia.
  rewrite (Z.mod_small (w * h)) by nia.
  rewrite (Z.mod_small (w * (bits / 8))) by nia.
  rewrite (Z.mod_small (w * h * (bits / 8))) by nia.
  destruct (Z.gtb_spec (w * h * (bits / 8)) max_size); [unfold max_size in *; nia|].
  destruct (Z.gtb_spec ((bits * w + 31) / 32 * 4) max_size);
    [unfold max_size in *; nia|].
  destruct (Z.ltb_spec h 0); [lia|].
  rewrite seekg_quiet.
  set (P := Z.to_nat ((bits * w + 31) / 32 * 4)).
  set (R := Z.to_nat (w * (bits / 8))).
  assert (Z.to_nat (w * h * (bits / 8)) = (Z.to_nat h * R)%nat) as Hn by (unfold R; nia).
  assert (Z.of_nat P = (bits * w + 31) / 32 * 4) as HP by (unfold P; nia).
  assert (Z.of_nat R = w * (bits / 8)) as HR by (unfold R; nia).
  assert (0 < w * (bits / 8) /\ w * (bits / 8) * 8 <= bits * w) as (HR0 & HR8) by nia.
  rewrite Hn.
  destruct (read_rows_completes P R (Z.to_nat h) (Z.to_nat h) 0
              data (if failed then k else Z.to_nat (u32_at data 10)) failed
              (repeat x00 P) (resize (pixels self) (Z.to_nat h * R)))
    as (px' & Hrows & Hlen).
  - lia.
  - lia.
  - lia.
  - unfold SIZE_MOD. rewrite HR, Z2Nat.id by lia.
    assert (h * (w * (bits / 8)) <= 2147483647 * 2147483647)
      by (apply Z.mul_le_mono_nonneg; lia).
    lia.
  - apply repeat_length.
  - apply length_resize.
  - change (Z.of_nat 0) with 0 in Hrows.
    rewrite HP, HR, (Z2Nat.id h) in Hrows by lia. rewrite Hrows. cbn [bind].
    exists px'. split; [reflexivity|].
    unfold len. rewrite Hlen. nia.
Qed.

Lemma loadFromImage_never_reports_truncation_witness :
  exists px,
    loadFromImage empty (one_file bmp_1x1_headers_only) "cut.bmp" =
    ({| width := 1; height := 1; bitDepth := 24; pixels := px |}, Returns true) /\
    len px = 3.
Proof.
  apply (loadFromImage_never_reports_truncation empty (one_file bmp_1x1_headers_only)
           "cut.bmp" bmp_1x1_headers_only eq_refl eq_refl eq_refl);
    first [reflexivity|vm_compute; discriminate].
Defined.

End Truncation.
